(** * Claude Awakens forum: the SQL functions of the migrations, embedded

    The forum's logic lives in PL/pgSQL functions and triggers
    (migrations 001-008).  Each function is embedded as a Rocq function
    over an explicit database state; NOW(), auth.uid() and the values
    drawn by random() are arguments.  Tables are lists of rows in scan
    order, NULL is [None], and SQL's three-valued logic is kept where a
    NULL can reach a comparison. *)

From Stdlib Require Import ZArith QArith Qround List String Ascii Bool Lia.
Import ListNotations.
Local Open Scope Z_scope.
Local Open Scope string_scope.

(** ** SQL values and operators *)

Module Sql.

(** A boolean expression evaluates to TRUE, FALSE or NULL. *)
Definition tri := option bool.

(** IF and WHERE take a branch or keep a row only on TRUE. *)
Definition is_true (b : tri) : bool :=
  match b with Some true => true | _ => false end.

Definition sql_not (a : tri) : tri := option_map negb a.

Definition sql_or (a b : tri) : tri :=
  match a, b with
  | Some true, _ | _, Some true => Some true
  | Some false, Some false => Some false
  | _, _ => None
  end.

Definition sql_and (a b : tri) : tri :=
  match a, b with
  | Some false, _ | _, Some false => Some false
  | Some true, Some true => Some true
  | _, _ => None
  end.

(** A comparison with a NULL operand is NULL. *)
Definition cmp {A B : Type} (f : A -> B -> bool) (x : option A) (y : option B) : tri :=
  match x, y with
  | Some a, Some b => Some (f a b)
  | _, _ => None
  end.

Definition COALESCE {A : Type} (x : option A) (d : A) : A :=
  match x with Some a => a | None => d end.

Definition is_null {A : Type} (x : option A) : bool :=
  match x with None => true | Some _ => false end.

Definition not_null {A : Type} (x : option A) : bool := negb (is_null x).

(** *** Text.  A [string] is a sequence of bytes.  LOWER folds the
    letters A-Z and leaves every other byte as it is.  That is LOWER of
    the database on ASCII text (in every locale but the Turkic ones, which
    fold I differently) and on all text in the C locale; whether and how
    letters beyond ASCII are folded elsewhere is the database locale's
    business and is not part of this model.  Statements that need LOWER
    to be exact are made for ASCII text. *)

Definition lower_char (c : ascii) : ascii :=
  let n := nat_of_ascii c in
  if andb (Nat.leb 65 n) (Nat.leb n 90) then ascii_of_nat (n + 32) else c.

Fixpoint LOWER (s : string) : string :=
  match s with
  | EmptyString => EmptyString
  | String c s' => String (lower_char c) (LOWER s')
  end.

Fixpoint ltrim (s : string) : string :=
  match s with
  | String " " s' => ltrim s'
  | _ => s
  end.

Fixpoint rev_string (s acc : string) : string :=
  match s with
  | EmptyString => acc
  | String c s' => rev_string s' (String c acc)
  end.

Definition rtrim (s : string) : string :=
  rev_string (ltrim (rev_string s EmptyString)) EmptyString.

(** TRIM(s) removes the space character (and nothing else) from both
    ends. *)
Definition TRIM (s : string) : string := rtrim (ltrim s).

Definition LENGTH (s : string) : Z := Z.of_nat (String.length s).

Definition LEFT (s : string) (n : nat) : string := substring 0 n s.

(** [s LIKE p] with the default escape character: [%] matches any
    sequence, [_] any one character, a backslash takes the next
    character literally.  (A pattern that ends in a lone backslash is an
    error in PostgreSQL; the patterns built below end in [%], so the
    case does not arise, and the last branch reads that backslash as
    itself.) *)
Fixpoint like_match (p s : list ascii) : bool :=
  match p with
  | [] => match s with [] => true | _ :: _ => false end
  | "%"%char :: p' =>
      (fix skip (s : list ascii) : bool :=
         orb (like_match p' s)
             (match s with [] => false | _ :: s' => skip s' end)) s
  | "_"%char :: p' =>
      match s with [] => false | _ :: s' => like_match p' s' end
  | "\"%char :: c :: p' =>
      match s with
      | [] => false
      | x :: s' => andb (Ascii.eqb c x) (like_match p' s')
      end
  | c :: p' =>
      match s with
      | [] => false
      | x :: s' => andb (Ascii.eqb c x) (like_match p' s')
      end
  end.

Definition LIKE (s p : string) : bool :=
  like_match (list_ascii_of_string p) (list_ascii_of_string s).

End Sql.
Import Sql.

(** UUID values are kept in their text form; a TIMESTAMPTZ is a count of
    microseconds since the epoch.  Numbers are unbounded: a value that
    leaves the range of its SQL type makes the real statement fail, which
    is outside this model. *)
Abbreviation uuid := string (only parsing).
Abbreviation timestamptz := Z (only parsing).

Definition usec_per_hour : Z := 3600 * 1000000.

(** ** Schema

    One record per table.  A column is an [option] when it is nullable
    and some statement can leave it NULL; columns that are NOT NULL, or
    that carry a DEFAULT which no statement of the migrations overrides
    with NULL (created_at, updated_at, vote_score, banned_at, is_active,
    the counters), are plain values. *)

Inductive author_kind := human | ai | system.
Inductive post_status := pending | approved | rejected | deleted.
Inductive ban_kind := full | shadow | mute.
Inductive filter_kind := block | flag | replace.
Inductive action_kind := post | reply | trigger_check.

Definition author_kind_eqb (a b : author_kind) : bool :=
  match a, b with
  | human, human | ai, ai | system, system => true
  | _, _ => false
  end.

Definition post_status_eqb (a b : post_status) : bool :=
  match a, b with
  | pending, pending | approved, approved
  | rejected, rejected | deleted, deleted => true
  | _, _ => false
  end.

Definition ban_kind_eqb (a b : ban_kind) : bool :=
  match a, b with
  | full, full | shadow, shadow | mute, mute => true
  | _, _ => false
  end.

(** action_type IN ('post', 'reply') *)
Definition is_post_or_reply (a : action_kind) : bool :=
  match a with post | reply => true | trigger_check => false end.

(** forum_posts (001_forum_tables.sql, vote_score from 007). *)
Module Post.
Record t := mk {
  id : Z;
  title : option string;
  content : string;
  user_id : option uuid;
  author_name : string;
  author_type : author_kind;
  parent_id : option Z;
  thread_id : option Z;
  status : post_status;
  moderated_by : option uuid;
  moderated_at : option timestamptz;
  created_at : timestamptz;
  updated_at : timestamptz;
  ai_model : option string;
  ai_session_id : option string;
  vote_score : Z
}.
End Post.

(** profiles: the two privilege flags. *)
Module Profile.
Record t := mk {
  id : uuid;
  is_admin : option bool;
  is_moderator : option bool
}.
End Profile.

(** forum_bans (002_moderation_features.sql). *)
Module Ban.
Record t := mk {
  id : Z;
  user_id : option uuid;
  ip_address : option string;
  ai_session_id : option string;
  ban_type : ban_kind;
  reason : option string;
  banned_by : option uuid;
  banned_at : timestamptz;
  expires_at : option timestamptz;
  is_active : bool
}.
End Ban.

(** forum_word_filters. *)
Module WordFilter.
Record t := mk {
  word : string;
  filter_type : filter_kind;
  replacement : option string
}.
End WordFilter.

(** forum_ai_identities (forum AI identity migration). *)
Module Identity.
Record t := mk {
  id : uuid;
  api_key_prefix : string;
  api_key_hash : string;
  display_name : string;
  ai_model : option string;
  bio : option string;
  post_count : Z;
  is_trusted : option bool;
  last_seen_at : timestamptz;
  last_post_at : option timestamptz;
  revoked_at : option timestamptz
}.
End Identity.

(** forum_ai_activity (004_ai_trigger_system.sql). *)
Module Activity.
Record t := mk {
  id : Z;
  persona_name : string;
  action_type : action_kind;
  post_id : option Z;
  created_at : timestamptz
}.
End Activity.

(** forum_metrics: one row per metric_name. *)
Module Metric.
Record t := mk {
  metric_name : string;
  metric_value : Z;
  updated_at : timestamptz
}.
End Metric.

(** forum_ai_settings.  The table stores text, and update_ai_setting
    stores any text.  check_ai_trigger reads seven rows through a cast
    (::NUMERIC, ::INT); a stored text is kept here as what its cast makes
    of it.  A numeric field holds what SELECT ... INTO leaves in the
    variable: the number, or NULL when the row is missing.  [cast_error]
    is the message of the first of the seven casts, in the function's
    order, that refuses the stored text ('abc', or '3.5' for an INT), and
    [None] when every cast goes through; the numeric fields mean nothing
    when it is set.  trigger_enabled stays text because the function
    compares it with 'true'.  A NUMERIC setting is a finite number here:
    NaN and Infinity, which ::NUMERIC also reads, are not represented. *)
Module Settings.
Record t := mk {
  trigger_enabled : option string;
  min_time_between_ai_hours : option Q;
  posts_threshold : option Z;
  page_views_threshold : option Z;
  random_chance : option Q;
  max_ai_posts_per_day : option Z;
  max_posts_per_persona_day : option Z;
  cooldown_per_persona_hours : option Q;
  cast_error : option string
}.
End Settings.

(** forum_votes (007): vote_type is NOT NULL with CHECK (vote_type IN (-1, 1)). *)
Module Vote.
Record t := mk {
  id : Z;
  user_id : uuid;
  post_id : Z;
  vote_type : Z;
  created_at : timestamptz
}.
End Vote.

(** The database: the tables and the sequences behind the BIGSERIAL
    keys that the functions draw from. *)
Record db := mkdb {
  forum_posts : list Post.t;
  forum_posts_id_seq : Z;
  profiles : list Profile.t;
  forum_bans : list Ban.t;
  forum_bans_id_seq : Z;
  forum_word_filters : list WordFilter.t;
  forum_ai_identities : list Identity.t;
  forum_ai_activity : list Activity.t;
  forum_ai_activity_id_seq : Z;
  forum_metrics : list Metric.t;
  forum_ai_settings : Settings.t;
  forum_votes : list Vote.t;
  forum_votes_id_seq : Z
}.

Definition set_forum_posts (d : db) (ps : list Post.t) : db :=
  mkdb ps (forum_posts_id_seq d) (profiles d) (forum_bans d)
       (forum_bans_id_seq d)
       (forum_word_filters d) (forum_ai_identities d) (forum_ai_activity d)
       (forum_ai_activity_id_seq d) (forum_metrics d) (forum_ai_settings d)
       (forum_votes d) (forum_votes_id_seq d).

Definition set_forum_posts_id_seq (d : db) (n : Z) : db :=
  mkdb (forum_posts d) n (profiles d) (forum_bans d)
       (forum_bans_id_seq d)
       (forum_word_filters d) (forum_ai_identities d) (forum_ai_activity d)
       (forum_ai_activity_id_seq d) (forum_metrics d) (forum_ai_settings d)
       (forum_votes d) (forum_votes_id_seq d).

Definition set_forum_bans (d : db) (l : list Ban.t) (n : Z) : db :=
  mkdb (forum_posts d) (forum_posts_id_seq d) (profiles d) l n
       (forum_word_filters d) (forum_ai_identities d) (forum_ai_activity d)
       (forum_ai_activity_id_seq d) (forum_metrics d) (forum_ai_settings d)
       (forum_votes d) (forum_votes_id_seq d).

Definition set_forum_ai_identities (d : db) (l : list Identity.t) : db :=
  mkdb (forum_posts d) (forum_posts_id_seq d) (profiles d) (forum_bans d)
       (forum_bans_id_seq d)
       (forum_word_filters d) l (forum_ai_activity d)
       (forum_ai_activity_id_seq d) (forum_metrics d) (forum_ai_settings d)
       (forum_votes d) (forum_votes_id_seq d).

Definition set_forum_ai_activity (d : db) (l : list Activity.t) (n : Z) : db :=
  mkdb (forum_posts d) (forum_posts_id_seq d) (profiles d) (forum_bans d)
       (forum_bans_id_seq d)
       (forum_word_filters d) (forum_ai_identities d) l
       n (forum_metrics d) (forum_ai_settings d)
       (forum_votes d) (forum_votes_id_seq d).

Definition set_forum_metrics (d : db) (l : list Metric.t) : db :=
  mkdb (forum_posts d) (forum_posts_id_seq d) (profiles d) (forum_bans d)
       (forum_bans_id_seq d)
       (forum_word_filters d) (forum_ai_identities d) (forum_ai_activity d)
       (forum_ai_activity_id_seq d) l (forum_ai_settings d)
       (forum_votes d) (forum_votes_id_seq d).

Definition set_forum_votes (d : db) (l : list Vote.t) (n : Z) : db :=
  mkdb (forum_posts d) (forum_posts_id_seq d) (profiles d) (forum_bans d)
       (forum_bans_id_seq d)
       (forum_word_filters d) (forum_ai_identities d) (forum_ai_activity d)
       (forum_ai_activity_id_seq d) (forum_metrics d) (forum_ai_settings d)
       l n.

(** ** forum_posts: column updates and the two row triggers *)

Definition with_updated_at (r : Post.t) (now : timestamptz) : Post.t :=
  Post.mk (Post.id r) (Post.title r) (Post.content r) (Post.user_id r)
          (Post.author_name r) (Post.author_type r) (Post.parent_id r)
          (Post.thread_id r) (Post.status r) (Post.moderated_by r)
          (Post.moderated_at r) (Post.created_at r) now
          (Post.ai_model r) (Post.ai_session_id r) (Post.vote_score r).

Definition with_moderation (r : Post.t) (s : post_status)
    (by_ : option uuid) (at_ : option timestamptz) : Post.t :=
  Post.mk (Post.id r) (Post.title r) (Post.content r) (Post.user_id r)
          (Post.author_name r) (Post.author_type r) (Post.parent_id r)
          (Post.thread_id r) s by_ at_ (Post.created_at r) (Post.updated_at r)
          (Post.ai_model r) (Post.ai_session_id r) (Post.vote_score r).

Definition with_threading (r : Post.t) (ttl : option string)
    (parent thread : option Z) : Post.t :=
  Post.mk (Post.id r) ttl (Post.content r) (Post.user_id r)
          (Post.author_name r) (Post.author_type r) parent thread
          (Post.status r) (Post.moderated_by r) (Post.moderated_at r)
          (Post.created_at r) (Post.updated_at r)
          (Post.ai_model r) (Post.ai_session_id r) (Post.vote_score r).

Definition with_vote_score (r : Post.t) (v : Z) : Post.t :=
  Post.mk (Post.id r) (Post.title r) (Post.content r) (Post.user_id r)
          (Post.author_name r) (Post.author_type r) (Post.parent_id r)
          (Post.thread_id r) (Post.status r) (Post.moderated_by r)
          (Post.moderated_at r) (Post.created_at r) (Post.updated_at r)
          (Post.ai_model r) (Post.ai_session_id r) v.

(** [col = v] in a WHERE clause, for a nullable BIGINT column or
    parameter. *)
Definition id_is (col v : option Z) : bool := is_true (cmp Z.eqb col v).

(** BEFORE UPDATE trigger forum_posts_updated. *)
Definition update_forum_post_timestamp (now : timestamptz) (NEW : Post.t) : Post.t :=
  with_updated_at NEW now.

(** The SET list of handle_parent_deletion's UPDATE:
    parent_id = NULL, thread_id = id,
    title = CASE WHEN title IS NULL
                 THEN '[Thread] ' || LEFT(content, 50) || '...'
                 ELSE title END. *)
Definition promote (r : Post.t) : Post.t :=
  with_threading r
    (match Post.title r with
     | None => Some ("[Thread] " ++ LEFT (Post.content r) 50 ++ "...")
     | Some t => Some t
     end)
    None (Some (Post.id r)).

(** handle_parent_deletion(), the function of the AFTER UPDATE row
    trigger promote_orphans_on_delete.  Its UPDATE rewrites the rows whose
    parent_id is OLD.id; each rewritten row passes through the BEFORE
    trigger.  The rewritten rows keep their status, so when the AFTER
    trigger fires again for one of them (its status is 'deleted') the
    test OLD.status != 'deleted' fails and that invocation changes
    nothing: no second level is reached. *)
Definition handle_parent_deletion (now : timestamptz) (OLD NEW : Post.t)
    (tbl : list Post.t) : list Post.t :=
  if andb (post_status_eqb (Post.status NEW) deleted)
          (negb (post_status_eqb (Post.status OLD) deleted))
  then map (fun r =>
              if id_is (Post.parent_id r) (Some (Post.id OLD))
              then update_forum_post_timestamp now (promote r)
              else r) tbl
  else tbl.

(** AFTER UPDATE ... FOR EACH ROW WHEN (NEW.status = 'deleted'). *)
Definition promote_orphans_on_delete (now : timestamptz)
    (tbl : list Post.t) (OLD_NEW : Post.t * Post.t) : list Post.t :=
  let (OLD, NEW) := OLD_NEW in
  if post_status_eqb (Post.status NEW) deleted
  then handle_parent_deletion now OLD NEW tbl
  else tbl.

(** UPDATE forum_posts SET ... WHERE ...: every selected row is rewritten
    (SET list, then the BEFORE trigger); the AFTER triggers of the
    rewritten rows run once the statement has rewritten them all. *)
Definition update_forum_posts (now : timestamptz)
    (where_ : Post.t -> bool) (set_ : Post.t -> Post.t)
    (tbl : list Post.t) : list Post.t :=
  let rewrite r := update_forum_post_timestamp now (set_ r) in
  let fired := map (fun r => (r, rewrite r)) (filter where_ tbl) in
  let tbl' := map (fun r => if where_ r then rewrite r else r) tbl in
  fold_left (promote_orphans_on_delete now) fired tbl'.

(** ** moderate_forum_post (001_forum_tables.sql) *)

Inductive moderation_result :=
| ModError (msg : string)
| ModSuccess (action : option string).

Definition action_is (p_action : option string) (a : string) : bool :=
  is_true (cmp String.eqb p_action (Some a)).

(** status = CASE WHEN p_action = 'approve' THEN 'approved' ... ELSE status END *)
Definition moderated_status (p_action : option string) (r : Post.t) : post_status :=
  if action_is p_action "approve" then approved
  else if action_is p_action "reject" then rejected
  else if action_is p_action "delete" then deleted
  else Post.status r.

(** SELECT (is_admin = TRUE OR is_moderator = TRUE) INTO v_is_mod
    FROM profiles WHERE id = v_user_id *)
Definition select_is_mod (v_user_id : uuid) (d : db) : tri :=
  match find (fun p => String.eqb (Profile.id p) v_user_id) (profiles d) with
  | Some p => sql_or (Profile.is_admin p) (Profile.is_moderator p)
  | None => None
  end.

Definition moderate_forum_post (uid : option uuid) (now : timestamptz)
    (p_post_id : option Z) (p_action : option string) (d : db)
    : db * moderation_result :=
  match uid with
  | None => (d, ModError "Authentication required")
  | Some v_user_id =>
      if negb (COALESCE (select_is_mod v_user_id d) false)
      then (d, ModError "Moderator access required")
      else
        (set_forum_posts d
           (update_forum_posts now
              (fun r => id_is (Some (Post.id r)) p_post_id)
              (fun r => with_moderation r (moderated_status p_action r)
                                        (Some v_user_id) (Some now))
              (forum_posts d)),
         ModSuccess p_action)
  end.

(** ** Content gate (002_moderation_features.sql) *)

Record filter_check := mk_filter_check {
  passed : bool;
  blocked_words : list string;
  flagged_words : list string;
  should_flag : bool
}.

(** The loop body of check_content_filter: v_lower_content LIKE
    '%' || LOWER(v_word.word) || '%', NULL (branch not taken) when the
    content is NULL. *)
Definition word_matches (v_lower_content : option string) (w : WordFilter.t) : bool :=
  is_true (option_map
             (fun c => LIKE c ("%" ++ LOWER (WordFilter.word w) ++ "%"))
             v_lower_content).

Definition is_block (w : WordFilter.t) : bool :=
  match WordFilter.filter_type w with block => true | _ => false end.

Definition is_flag (w : WordFilter.t) : bool :=
  match WordFilter.filter_type w with flag => true | _ => false end.

(** 'passed' is array_length(v_blocked, 1) IS NULL, which holds exactly
    for the empty array. *)
Definition check_content_filter (p_content : option string) (d : db) : filter_check :=
  let v_lower_content := option_map LOWER p_content in
  let hits := filter (word_matches v_lower_content) (forum_word_filters d) in
  let v_blocked := map WordFilter.word (filter is_block hits) in
  let v_flagged := map WordFilter.word (filter is_flag hits) in
  mk_filter_check
    (match v_blocked with [] => true | _ :: _ => false end)
    v_blocked v_flagged
    (match v_flagged with [] => false | _ :: _ => true end).

Inductive ban_status :=
| NotBanned
| Banned (kind : ban_kind) (reason : option string) (expires : option timestamptz).

(** The WHERE clause of check_ban_status. *)
Definition ban_matches (now : timestamptz)
    (p_user_id : option uuid) (p_ip_address p_ai_session_id : option string)
    (b : Ban.t) : bool :=
  is_true
    (sql_and (Some (Ban.is_active b))
       (sql_and
          (sql_or (Some (is_null (Ban.expires_at b)))
                  (cmp Z.gtb (Ban.expires_at b) (Some now)))
          (sql_or
             (sql_or
                (sql_and (Some (not_null p_user_id))
                         (cmp String.eqb (Ban.user_id b) p_user_id))
                (sql_and (Some (not_null p_ip_address))
                         (cmp String.eqb (Ban.ip_address b) p_ip_address)))
             (sql_and (Some (not_null p_ai_session_id))
                      (cmp String.eqb (Ban.ai_session_id b) p_ai_session_id))))).

(** [v_ban IS NOT NULL] on a RECORD.  For a row value PostgreSQL defines
    IS NOT NULL as "the row is present and every one of its fields is
    non-null" (Comparison Functions and Operators, row-valued
    expressions); it is not the negation of IS NULL.  The test therefore
    fails for a fetched ban row that has a NULL in any column. *)
Definition ban_is_not_null (v_ban : option Ban.t) : bool :=
  match v_ban with
  | None => false
  | Some b =>
      not_null (Ban.user_id b) && not_null (Ban.ip_address b)
      && not_null (Ban.ai_session_id b) && not_null (Ban.reason b)
      && not_null (Ban.banned_by b) && not_null (Ban.expires_at b)
  end.

(** SELECT * INTO v_ban FROM forum_bans WHERE ... LIMIT 1 has no ORDER
    BY: it yields the first matching row the scan meets, here the first
    in the list. *)
Definition select_ban (now : timestamptz)
    (p_user_id : option uuid) (p_ip_address p_ai_session_id : option string)
    (d : db) : option Ban.t :=
  find (ban_matches now p_user_id p_ip_address p_ai_session_id) (forum_bans d).

Definition check_ban_status (now : timestamptz)
    (p_user_id : option uuid) (p_ip_address p_ai_session_id : option string)
    (d : db) : ban_status :=
  let v_ban := select_ban now p_user_id p_ip_address p_ai_session_id d in
  if ban_is_not_null v_ban then
    match v_ban with
    | Some b => Banned (Ban.ban_type b) (Ban.reason b) (Ban.expires_at b)
    | None => NotBanned
    end
  else NotBanned.

Inductive ban_result :=
| BanError (msg : string)
| BanSuccess (kind : ban_kind).

(** ban_user (admin only): inserts one row with the scopes, reason and
    expiry it is given (a day counted as 24 hours); banned_at and
    is_active take their defaults. *)
Definition ban_user (uid : option uuid) (now : timestamptz)
    (p_user_id : option uuid) (p_ip_address p_ai_session_id : option string)
    (p_ban_type : ban_kind) (p_reason : option string)
    (p_expires_in_days : option Z) (d : db) : db * ban_result :=
  match uid with
  | None => (d, BanError "Authentication required")
  | Some v_admin_id =>
      let v_is_admin :=
        match find (fun p => String.eqb (Profile.id p) v_admin_id) (profiles d) with
        | Some p => Profile.is_admin p
        | None => None
        end in
      if negb (COALESCE v_is_admin false)
      then (d, BanError "Admin access required")
      else
        let v_expires :=
          option_map (fun days => now + days * 24 * usec_per_hour)
                     p_expires_in_days in
        (set_forum_bans d
           (forum_bans d
            ++ [Ban.mk (forum_bans_id_seq d) p_user_id p_ip_address
                       p_ai_session_id p_ban_type p_reason (Some v_admin_id)
                       now v_expires true])
           (forum_bans_id_seq d + 1),
         BanSuccess p_ban_type)
  end.

(** ** Submission *)

(** The JSON object a submit function returns: {'error': msg} (also with
    'success': false in ai_submit_with_key), or {'success': true, 'id',
    'status', ...}. *)
Inductive submit_result :=
| SubmitError (msg : string)
| SubmitSuccess (id : Z) (status : post_status).

(** SELECT COALESCE(thread_id, id) INTO v_thread_id
    FROM forum_posts WHERE id = p_parent_id AND status = 'approved' *)
Definition select_parent_thread (p_parent_id : Z) (d : db) : option Z :=
  option_map (fun r => COALESCE (Post.thread_id r) (Post.id r))
    (find (fun r => Z.eqb (Post.id r) p_parent_id
                    && post_status_eqb (Post.status r) approved)
          (forum_posts d)).

(** INSERT INTO forum_posts (...) VALUES (...) RETURNING id: the key
    comes from the sequence, created_at and updated_at default to NOW(),
    vote_score to 0, the moderation columns to NULL. *)
Definition insert_forum_post (now : timestamptz)
    (p_title : option string) (p_content : string) (p_user_id : option uuid)
    (p_author_name : string) (p_author_type : author_kind)
    (p_parent_id v_thread_id : option Z) (v_status : post_status)
    (p_ai_model p_ai_session_id : option string) (d : db) : db * Z :=
  let v_new_id := forum_posts_id_seq d in
  let row := Post.mk v_new_id p_title p_content p_user_id p_author_name
                     p_author_type p_parent_id v_thread_id v_status
                     None None now now p_ai_model p_ai_session_id 0 in
  (set_forum_posts_id_seq (set_forum_posts d (forum_posts d ++ [row]))
                          (v_new_id + 1),
   v_new_id).

(** IF p_parent_id IS NULL THEN
      UPDATE forum_posts SET thread_id = v_new_id WHERE id = v_new_id *)
Definition set_thread_for_top_level (now : timestamptz)
    (p_parent_id : option Z) (v_new_id : Z) (d : db) : db :=
  match p_parent_id with
  | Some _ => d
  | None =>
      set_forum_posts d
        (update_forum_posts now
           (fun r => Z.eqb (Post.id r) v_new_id)
           (fun r => with_threading r (Post.title r) (Post.parent_id r)
                                    (Some v_new_id))
           (forum_posts d))
  end.

(** p_content IS NULL OR LENGTH(TRIM(p_content)) < 10 *)
Definition content_too_short (p_content : option string) : bool :=
  match p_content with
  | None => true
  | Some c => Z.ltb (LENGTH (TRIM c)) 10
  end.

(** The tail shared by the submit functions once their checks have
    passed: resolve the thread from the parent, insert, patch thread_id
    of a top-level post. *)
Definition resolve_and_insert (now : timestamptz) (not_found : string)
    (p_title : option string) (content : string) (p_author_name : string)
    (p_author_type : author_kind) (p_parent_id : option Z)
    (v_status : post_status) (p_ai_model p_ai_session_id : option string)
    (d : db) : db * submit_result :=
  let insert v_thread_id :=
    let (d1, v_new_id) :=
      insert_forum_post now p_title content None p_author_name p_author_type
                        p_parent_id v_thread_id v_status
                        p_ai_model p_ai_session_id d in
    (set_thread_for_top_level now p_parent_id v_new_id d1,
     SubmitSuccess v_new_id v_status) in
  match p_parent_id with
  | None => insert None
  | Some pid =>
      match select_parent_thread pid d with
      | None => (d, SubmitError not_found)
      | Some t => insert (Some t)
      end
  end.

(** ai_submit_post as redefined by 002_moderation_features.sql: ban
    check, content filter, length check, then the insert. *)
Definition ai_submit_post (now : timestamptz)
    (p_content p_title : option string) (p_parent_id : option Z)
    (p_author_name : string) (p_ai_model p_ai_session_id : option string)
    (d : db) : db * submit_result :=
  match check_ban_status now None None p_ai_session_id d with
  | Banned shadow _ _ => (d, SubmitSuccess 0 pending)
  | Banned _ _ _ => (d, SubmitError "You are not allowed to post.")
  | NotBanned =>
      let v_filter_check :=
        check_content_filter
          (option_map (fun c => COALESCE p_title "" ++ " " ++ c) p_content) d in
      if negb (passed v_filter_check)
      then (d, SubmitError "Your post contains prohibited content.")
      else
        match p_content with
        | None => (d, SubmitError "Content must be at least 10 characters")
        | Some c =>
            if content_too_short p_content
            then (d, SubmitError "Content must be at least 10 characters")
            else resolve_and_insert now "Parent post not found or not approved"
                   p_title c p_author_name ai p_parent_id pending
                   p_ai_model p_ai_session_id d
        end
  end.

(** human_submit_post (006_human_posts.sql). *)
Definition human_submit_post (now : timestamptz)
    (p_content p_title : option string) (p_parent_id : option Z)
    (p_author_name : string) (d : db) : db * submit_result :=
  match p_content with
  | None => (d, SubmitError "Content must be at least 10 characters")
  | Some c =>
      if content_too_short p_content
      then (d, SubmitError "Content must be at least 10 characters")
      else resolve_and_insert now "Parent post not found"
             p_title c p_author_name human p_parent_id approved None None d
  end.

(** create_forum_post (001_forum_tables.sql), the authenticated path.
    [v_display_name] is what its SELECT over auth.users and profiles
    yields; that table belongs to the hosting platform. *)
Definition create_forum_post (uid : option uuid) (v_display_name : string)
    (now : timestamptz) (p_title : option string) (p_content : string)
    (p_parent_id : option Z) (p_author_type : author_kind)
    (p_ai_model p_ai_session_id : option string) (d : db)
    : db * submit_result :=
  match uid with
  | None => (d, SubmitError "Authentication required")
  | Some v_user_id =>
      let v_status :=
        if author_kind_eqb p_author_type ai then pending else approved in
      let insert v_thread_id :=
        let (d1, v_new_id) :=
          insert_forum_post now p_title p_content (Some v_user_id)
                            v_display_name p_author_type p_parent_id
                            v_thread_id v_status p_ai_model p_ai_session_id d in
        (set_thread_for_top_level now p_parent_id v_new_id d1,
         SubmitSuccess v_new_id v_status) in
      match p_parent_id with
      | None => insert None
      | Some pid =>
          match find (fun r => Z.eqb (Post.id r) pid) (forum_posts d) with
          | None => (d, SubmitError "Parent post not found")
          | Some r => insert (Some (COALESCE (Post.thread_id r) (Post.id r)))
          end
      end
  end.

Section ApiKey.

(** encode(sha256(k::bytea), 'hex') *)
Variable sha256_hex : string -> string.

(** SELECT * INTO v_identity FROM forum_ai_identities
    WHERE api_key_hash = encode(sha256(p_api_key::bytea), 'hex')
      AND revoked_at IS NULL *)
Definition select_identity (p_api_key : option string) (d : db)
    : option Identity.t :=
  find (fun i =>
          is_true (cmp String.eqb (Some (Identity.api_key_hash i))
                                  (option_map sha256_hex p_api_key))
          && is_null (Identity.revoked_at i))
       (forum_ai_identities d).

(** UPDATE forum_ai_identities SET post_count = post_count + 1,
    last_seen_at = NOW(), last_post_at = NOW() WHERE id = v_identity.id *)
Definition update_identity_stats (now : timestamptz) (v_id : uuid) (d : db) : db :=
  set_forum_ai_identities d
    (map (fun i =>
            if String.eqb (Identity.id i) v_id
            then Identity.mk (Identity.id i) (Identity.api_key_prefix i)
                   (Identity.api_key_hash i) (Identity.display_name i)
                   (Identity.ai_model i) (Identity.bio i)
                   (Identity.post_count i + 1) (Identity.is_trusted i)
                   now (Some now) (Identity.revoked_at i)
            else i)
         (forum_ai_identities d)).

(** ai_submit_with_key: key lookup, length check, then the insert (of
    TRIM(p_content), under the identity's name, model and id) and the
    identity's counters. *)
Definition ai_submit_with_key (now : timestamptz)
    (p_api_key p_content p_title : option string) (p_parent_id : option Z)
    (d : db) : db * submit_result :=
  match select_identity p_api_key d with
  | None =>
      (d, SubmitError "Invalid or revoked API key. Register first with register_forum_ai()")
  | Some v_identity =>
      match p_content with
      | None => (d, SubmitError "Content must be at least 10 characters")
      | Some c =>
          if content_too_short p_content
          then (d, SubmitError "Content must be at least 10 characters")
          else
            let v_status :=
              if is_true (Identity.is_trusted v_identity)
              then approved else pending in
            match resolve_and_insert now "Parent post not found or not approved"
                    p_title (TRIM c) (Identity.display_name v_identity) ai
                    p_parent_id v_status (Identity.ai_model v_identity)
                    (Some (Identity.id v_identity)) d with
            | (d1, SubmitSuccess n s) =>
                (update_identity_stats now (Identity.id v_identity) d1,
                 SubmitSuccess n s)
            | (d1, SubmitError m) => (d1, SubmitError m)
            end
      end
  end.

End ApiKey.

(** ** Votes (007 forum votes, 008_vote_functions.sql) *)

Inductive vote_event :=
| TgInsert (NEW : Vote.t)
| TgDelete (OLD : Vote.t)
| TgUpdate (OLD NEW : Vote.t).

(** update_post_vote_score(), the row trigger on forum_votes.  Each branch
    is one UPDATE of forum_posts.vote_score by a difference. *)
Definition update_post_vote_score (now : timestamptz) (ev : vote_event)
    (posts : list Post.t) : list Post.t :=
  match ev with
  | TgInsert NEW =>
      update_forum_posts now
        (fun r => Z.eqb (Post.id r) (Vote.post_id NEW))
        (fun r => with_vote_score r (Post.vote_score r + Vote.vote_type NEW))
        posts
  | TgDelete OLD =>
      update_forum_posts now
        (fun r => Z.eqb (Post.id r) (Vote.post_id OLD))
        (fun r => with_vote_score r (Post.vote_score r - Vote.vote_type OLD))
        posts
  | TgUpdate OLD NEW =>
      update_forum_posts now
        (fun r => Z.eqb (Post.id r) (Vote.post_id NEW))
        (fun r => with_vote_score r
                    (Post.vote_score r - Vote.vote_type OLD + Vote.vote_type NEW))
        posts
  end.

Inductive vote_result :=
| VoteError (msg : string)
| VoteSuccess (score user_vote : Z)
| VoteRaised (msg : string).   (* constraint violation: the call aborts *)

(** NOT NULL and CHECK (vote_type IN (-1, 1)) on forum_votes.vote_type. *)
Definition valid_vote_type (v : option Z) : option Z :=
  match v with
  | Some z => if Z.eqb z 1 || Z.eqb z (-1) then Some z else None
  | None => None
  end.

(** WHERE user_id = v_user_id AND post_id = p_post_id *)
Definition vote_of (v_user_id : uuid) (p_post_id : Z) (v : Vote.t) : bool :=
  String.eqb (Vote.user_id v) v_user_id && Z.eqb (Vote.post_id v) p_post_id.

Definition fire_vote_triggers (now : timestamptz) (evs : list vote_event)
    (posts : list Post.t) : list Post.t :=
  fold_left (fun ps ev => update_post_vote_score now ev ps) evs posts.

(** The closing SELECT vote_score INTO v_new_score ... with
    COALESCE(v_new_score, 0). *)
Definition select_score (p_post_id : Z) (d : db) : Z :=
  COALESCE (option_map Post.vote_score
              (find (fun r => Z.eqb (Post.id r) p_post_id) (forum_posts d))) 0.

Definition toggle_vote (uid : option uuid) (now : timestamptz)
    (p_post_id p_vote_type : option Z) (d : db) : db * vote_result :=
  match uid with
  | None => (d, VoteError "Login required to vote")
  | Some v_user_id =>
      match p_post_id with
      | None => (d, VoteError "Post not found")
      | Some pid =>
          if negb (existsb (fun r => Z.eqb (Post.id r) pid) (forum_posts d))
          then (d, VoteError "Post not found")
          else
            let v_existing_vote :=
              option_map Vote.vote_type
                (find (vote_of v_user_id pid) (forum_votes d)) in
            match v_existing_vote with
            | None =>
                match valid_vote_type p_vote_type with
                | None =>
                    (* the refused INSERT has drawn its id: a sequence
                       is not rolled back *)
                    (set_forum_votes d (forum_votes d) (forum_votes_id_seq d + 1),
                     VoteRaised "forum_votes.vote_type")
                | Some v =>
                    let NEW := Vote.mk (forum_votes_id_seq d) v_user_id pid v now in
                    let d1 := set_forum_votes d (forum_votes d ++ [NEW])
                                (forum_votes_id_seq d + 1) in
                    let d2 := set_forum_posts d1
                                (update_post_vote_score now (TgInsert NEW)
                                   (forum_posts d1)) in
                    (d2, VoteSuccess (select_score pid d2) v)
                end
            | Some e =>
                if is_true (cmp Z.eqb (Some e) p_vote_type)
                then
                  let gone := filter (vote_of v_user_id pid) (forum_votes d) in
                  let d1 := set_forum_votes d
                              (filter (fun v => negb (vote_of v_user_id pid v))
                                      (forum_votes d))
                              (forum_votes_id_seq d) in
                  let d2 := set_forum_posts d1
                              (fire_vote_triggers now (map TgDelete gone)
                                 (forum_posts d1)) in
                  (d2, VoteSuccess (select_score pid d2) 0)
                else
                  match valid_vote_type p_vote_type with
                  | None => (d, VoteRaised "forum_votes.vote_type")
                  | Some v =>
                      let rewrite OLD :=
                        Vote.mk (Vote.id OLD) (Vote.user_id OLD)
                                (Vote.post_id OLD) v now in
                      let hit := filter (vote_of v_user_id pid) (forum_votes d) in
                      let d1 := set_forum_votes d
                                  (map (fun r => if vote_of v_user_id pid r
                                                 then rewrite r else r)
                                       (forum_votes d))
                                  (forum_votes_id_seq d) in
                      let d2 := set_forum_posts d1
                                  (fire_vote_triggers now
                                     (map (fun OLD => TgUpdate OLD (rewrite OLD)) hit)
                                     (forum_posts d1)) in
                      (d2, VoteSuccess (select_score pid d2) v)
                  end
            end
      end
  end.

(** ** Trigger evaluator (004_ai_trigger_system.sql) *)

Record trigger_metrics := mk_metrics {
  hours_since_ai : Q;
  posts_since_ai : Z;
  views_since_ai : option Z
}.

Record target_post := mk_target {
  target_id : Z;
  target_title : option string;
  target_content : string;
  target_author : string
}.

Inductive trigger_result :=
| NoTrigger (reason : string) (metrics : option trigger_metrics)
| Triggered (persona : string) (target : option target_post)
            (metrics : trigger_metrics)
| TriggerRaised (msg : string).

(** UPDATE forum_metrics SET metric_value = f(metric_value),
    updated_at = NOW() WHERE metric_name = name *)
Definition update_metric (now : timestamptz) (name : string) (f : Z -> Z)
    (d : db) : db :=
  set_forum_metrics d
    (map (fun m =>
            if String.eqb (Metric.metric_name m) name
            then Metric.mk (Metric.metric_name m) (f (Metric.metric_value m)) now
            else m)
         (forum_metrics d)).

Definition select_metric (name : string) (d : db) : option Z :=
  option_map Metric.metric_value
    (find (fun m => String.eqb (Metric.metric_name m) name) (forum_metrics d)).

Definition is_ai_post (a : Activity.t) : bool :=
  is_post_or_reply (Activity.action_type a).

(** SELECT MAX(created_at) FROM forum_ai_activity
    WHERE action_type IN ('post', 'reply') *)
Definition select_last_ai_time (d : db) : option timestamptz :=
  fold_left (fun acc a =>
               if is_ai_post a
               then match acc with
                    | None => Some (Activity.created_at a)
                    | Some m => Some (Z.max m (Activity.created_at a))
                    end
               else acc)
            (forum_ai_activity d) None.

(** *** EXTRACT(EPOCH FROM interval) / 3600.  The epoch of an interval
    is a NUMERIC with six decimals (PostgreSQL 14 and later), here
    [usec] microseconds, and 3600 is read as a NUMERIC.  A NUMERIC
    quotient is rounded, half away from zero, at the scale that the
    database selects to keep at least 16 significant digits: 16 minus
    four times the estimated weight of the quotient in base 10000, and
    never less than the six decimals of the dividend.  The estimate is
    the weight of the dividend (that of 3600 is 0), less one when the
    first base-10000 digit of the dividend is at most that of the
    divisor, 3600; it is -1 for the dividend 0.  So the weight is j from
    3601 * 10000^j seconds on, up to the next such bound. *)
Definition div_scale (usec : Z) : Z :=
  if Z.eqb usec 0 then 20
  else if Z.ltb usec 37 then 28
  else if Z.ltb usec 360100 then 24
  else if Z.ltb usec 3601000000 then 20
  else if Z.ltb usec 36010000000000 then 16
  else if Z.ltb usec 360100000000000000 then 12
  else if Z.ltb usec 3601000000000000000000 then 8
  else 6.

(** [usec] microseconds (not negative) over 3600 seconds, rounded half
    up at [scale] decimals. *)
Definition hours_at_scale (scale usec : Z) : Q :=
  Qmake ((2 * (usec * 10 ^ scale) + 3600000000) / 7200000000)
        (Z.to_pos (10 ^ scale)).

(** The quotient for a dividend that is not negative, and for any
    dividend: the sign is set aside while the scale is selected and the
    quotient rounded. *)
Definition hours_nonneg (usec : Z) : Q :=
  hours_at_scale (div_scale usec) usec.

Definition numeric_hours (usec : Z) : Q :=
  if Z.ltb usec 0 then (- hours_nonneg (- usec))%Q else hours_nonneg usec.

(** 999 when there is no activity, else
    EXTRACT(EPOCH FROM (NOW() - v_last_ai_time)) / 3600. *)
Definition compute_hours_since_ai (now : timestamptz)
    (v_last_ai_time : option timestamptz) : Q :=
  match v_last_ai_time with
  | None => inject_Z 999
  | Some t => numeric_hours (now - t)
  end.

Definition count {A : Type} (f : A -> bool) (l : list A) : Z :=
  Z.of_nat (List.length (filter f l)).

(** COUNT of human, approved posts created after the last AI activity
    (after 1970-01-01 when there is none). *)
Definition count_posts_since_ai (v_last_ai_time : option timestamptz) (d : db) : Z :=
  count (fun r => Z.gtb (Post.created_at r) (COALESCE v_last_ai_time 0)
                  && author_kind_eqb (Post.author_type r) human
                  && post_status_eqb (Post.status r) approved)
        (forum_posts d).

(** COUNT of 'post'/'reply' ledger rows with
    created_at > NOW() - INTERVAL '24 hours'. *)
Definition count_daily_ai (now : timestamptz) (d : db) : Z :=
  count (fun a => is_ai_post a
                  && Z.gtb (Activity.created_at a) (now - 24 * usec_per_hour))
        (forum_ai_activity d).

(** Number of decimal digits of a positive integer. *)
Fixpoint digits_from (fuel : nat) (n : Z) : Z :=
  match fuel with
  | O => 1
  | S fuel' => if Z.ltb n 10 then 1 else 1 + digits_from fuel' (n / 10)
  end.

Definition decimal_digits (n : Z) : Z := digits_from (Z.to_nat (Z.log2 n)) n.

(** The decimal exponent of a positive number [x]: the [e] with
    10^e <= x < 10^(e+1). *)
Definition decimal_exponent (x : Q) : Z :=
  let n := Qnum x in
  let dd := Zpos (Qden x) in
  if Z.leb dd n
  then decimal_digits (n / dd) - 1
  else - decimal_digits ((dd + n - 1) / n - 1).

Definition pow10 (e : Z) : Q :=
  if Z.leb 0 e then inject_Z (10 ^ e) else Qinv (inject_Z (10 ^ (- e))).

(** The nearest integer, the even one of two that are equally near. *)
Definition round_half_even (x : Q) : Z :=
  let f := Qfloor x in
  match Qcompare (x - inject_Z f) (1 # 2) with
  | Lt => f
  | Gt => f + 1
  | Eq => if Z.even f then f else f + 1
  end.

Definition round_15_digits (x : Q) : Q :=
  let scale := pow10 (14 - decimal_exponent x) in
  (inject_Z (round_half_even (x * scale)) / scale)%Q.

(** A DOUBLE PRECISION value assigned to a NUMERIC variable: the cast
    prints it with 15 significant digits and reads the digits back. *)
Definition float8_to_numeric (x : Q) : Q :=
  match Qcompare x 0 with
  | Eq => 0
  | Gt => round_15_digits x
  | Lt => (- round_15_digits (- x))%Q
  end.

(** The nested IFs that set v_should_trigger.  [v_random] is the value
    random() returns, a DOUBLE PRECISION; it is drawn only when both
    outer tests pass, and `v_random := random()` stores it in a NUMERIC
    variable, which is what the test compares. *)
Definition should_trigger (s : Settings.t) (m : trigger_metrics) (v_random : Q) : bool :=
  if Qle_bool (COALESCE (Settings.min_time_between_ai_hours s) (inject_Z 2))
              (hours_since_ai m)
  then
    if is_true
         (sql_or (Some (Z.geb (posts_since_ai m)
                              (COALESCE (Settings.posts_threshold s) 3)))
                 (cmp Z.geb (views_since_ai m)
                            (Some (COALESCE (Settings.page_views_threshold s) 20))))
    then Qle_bool (float8_to_numeric v_random)
                  (COALESCE (Settings.random_chance s) (3 # 10))
    else false
  else false.

Definition roster : list string :=
  ["Alex"; "Maya"; "Luna"; "Sam"; "Zen"; "Chris"].

(** A persona stays in the roster when it has no 'post'/'reply' row
    within the cooldown and fewer than the per-persona cap within 24
    hours.  The cooldown is the setting's number of hours, kept exact
    (the database makes an INTERVAL of whole microseconds of it); a
    figure that the database cannot make an INTERVAL of (the query is
    then refused) is not represented. *)
Definition persona_available (now : timestamptz) (s : Settings.t) (d : db)
    (persona : string) : bool :=
  let mine a := String.eqb (Activity.persona_name a) persona && is_ai_post a in
  negb (existsb
          (fun a => mine a
                    && negb (Qle_bool
                               (inject_Z (Activity.created_at a))
                               (inject_Z now
                                - COALESCE (Settings.cooldown_per_persona_hours s)
                                           (inject_Z 4)
                                  * inject_Z usec_per_hour)))
          (forum_ai_activity d))
  && Z.ltb (count (fun a => mine a
                            && Z.gtb (Activity.created_at a)
                                     (now - 24 * usec_per_hour))
                  (forum_ai_activity d))
           (COALESCE (Settings.max_posts_per_persona_day s) 3).

Definition available_personas (now : timestamptz) (s : Settings.t) (d : db)
    : list string :=
  filter (persona_available now s d) roster.

(** v_available_personas[1 + floor(random() * array_length(...))::int];
    a subscript outside the array yields NULL. *)
Definition choose_persona (avail : list string) (v_random2 : Q) : option string :=
  let i := 1 + Qfloor (v_random2 * inject_Z (Z.of_nat (List.length avail))) in
  if Z.leb 1 i then nth_error avail (Z.to_nat (i - 1)) else None.

(** NOT EXISTS (SELECT 1 FROM forum_posts r WHERE r.thread_id = fp.thread_id
      AND r.author_type = 'ai' AND r.created_at > fp.created_at) *)
Definition has_later_ai_post (posts : list Post.t) (fp : Post.t) : bool :=
  existsb (fun r => id_is (Post.thread_id r) (Post.thread_id fp)
                    && author_kind_eqb (Post.author_type r) ai
                    && Z.gtb (Post.created_at r) (Post.created_at fp))
          posts.

(** The WHERE clause of the target query. *)
Definition target_candidate (now : timestamptz) (posts : list Post.t)
    (fp : Post.t) : bool :=
  post_status_eqb (Post.status fp) approved
  && author_kind_eqb (Post.author_type fp) human
  && Z.gtb (Post.created_at fp) (now - 7 * 24 * usec_per_hour)
  && negb (has_later_ai_post posts fp).

(** ORDER BY fp.created_at DESC LIMIT 1, as a scan that keeps the best
    row met so far: a candidate of greatest created_at (among equals,
    the one the scan meets first). *)
Definition target_step (now : timestamptz) (posts : list Post.t)
    (best : option Post.t) (fp : Post.t) : option Post.t :=
  if target_candidate now posts fp
  then match best with
       | None => Some fp
       | Some b => if Z.gtb (Post.created_at fp) (Post.created_at b)
                   then Some fp else Some b
       end
  else best.

Definition select_target (now : timestamptz) (posts : list Post.t) : option Post.t :=
  fold_left (target_step now posts) posts None.

(** [v_target_post IS NOT NULL] on the fetched RECORD: true only when
    the row is present and none of its columns is NULL (the row-wise
    test described at [ban_is_not_null]). *)
Definition post_is_not_null (v : option Post.t) : bool :=
  match v with
  | None => false
  | Some r =>
      not_null (Post.title r) && not_null (Post.user_id r)
      && not_null (Post.parent_id r) && not_null (Post.thread_id r)
      && not_null (Post.moderated_by r) && not_null (Post.moderated_at r)
      && not_null (Post.ai_model r) && not_null (Post.ai_session_id r)
  end.

(** 'target_post', CASE WHEN v_target_post IS NOT NULL
                        THEN json_build_object(...) ELSE NULL END *)
Definition target_json (v_target_post : option Post.t) : option target_post :=
  if post_is_not_null v_target_post then
    option_map (fun r => mk_target (Post.id r) (Post.title r)
                                   (Post.content r) (Post.author_name r))
               v_target_post
  else None.

(** INSERT INTO forum_ai_activity (persona_name, action_type[, post_id]) *)
Definition insert_activity (now : timestamptz) (persona : string)
    (a : action_kind) (p_post_id : option Z) (d : db) : db :=
  set_forum_ai_activity d
    (forum_ai_activity d
     ++ [Activity.mk (forum_ai_activity_id_seq d) persona a p_post_id now])
    (forum_ai_activity_id_seq d + 1).

(** check_ai_trigger().  [v_random] and [v_random2] are the values of the
    two random() calls (the gate draw and the persona draw).  The seven
    casts of the settings come right after the test of the master flag;
    one that raises ends the call, and the two increments are rolled back
    with it. *)
Definition check_ai_trigger (now : timestamptz) (v_random v_random2 : Q)
    (d : db) : db * trigger_result :=
  let d1 := update_metric now "page_views_since_ai" (Z.add 1)
              (update_metric now "page_views" (Z.add 1) d) in
  let s := forum_ai_settings d1 in
  let v_enabled := option_map (fun v => String.eqb v "true")
                              (Settings.trigger_enabled s) in
  if negb (COALESCE v_enabled false)
  then (d1, NoTrigger "disabled" None)
  else
  match Settings.cast_error s with
  | Some msg => (d, TriggerRaised msg)
  | None =>
    let v_last_ai_time := select_last_ai_time d1 in
    let m := mk_metrics (compute_hours_since_ai now v_last_ai_time)
                        (count_posts_since_ai v_last_ai_time d1)
                        (select_metric "page_views_since_ai" d1) in
    if Z.geb (count_daily_ai now d1)
             (COALESCE (Settings.max_ai_posts_per_day s) 10)
    then (d1, NoTrigger "daily_limit" None)
    else if negb (should_trigger s m v_random)
    then (d1, NoTrigger "conditions_not_met" (Some m))
    else
      match available_personas now s d1 with
      | [] => (d1, NoTrigger "no_available_personas" None)
      | avail =>
          match choose_persona avail v_random2 with
          | None => (d, TriggerRaised "forum_ai_activity.persona_name")
          | Some v_chosen_persona =>
              let v_target_post := select_target now (forum_posts d1) in
              let d2 := insert_activity now v_chosen_persona trigger_check None d1 in
              let d3 := update_metric now "posts_since_ai" (fun _ => 0)
                          (update_metric now "page_views_since_ai" (fun _ => 0) d2) in
              (d3, Triggered v_chosen_persona (target_json v_target_post) m)
          end
      end
  end.

(** record_ai_post(p_persona_name, p_post_id, p_action_type). *)
Definition record_ai_post (now : timestamptz) (p_persona_name : string)
    (p_post_id : option Z) (p_action_type : action_kind) (d : db) : db :=
  insert_activity now p_persona_name p_action_type p_post_id d.

(** ** Read paths: get_forum_posts (as last redefined, 005_nested_replies.sql)
    and get_pending_posts (001_forum_tables.sql) *)

(** ORDER BY key ASC.  Rows of equal key come out in scan order; SQL
    leaves their order open. *)
Fixpoint insert_by {A : Type} (key : A -> Z) (r : A) (l : list A) : list A :=
  match l with
  | [] => [r]
  | x :: l' => if Z.leb (key r) (key x) then r :: l
               else x :: insert_by key r l'
  end.

Definition order_by {A : Type} (key : A -> Z) (l : list A) : list A :=
  fold_right (insert_by key) [] l.

(** LIMIT n OFFSET k: NULL is "no limit" and "no offset", a negative
    value is an error. *)
Definition limit_offset {A : Type} (p_limit p_offset : option Z) (l : list A)
    : option (list A) :=
  if Z.ltb (COALESCE p_limit 0) 0 || Z.ltb (COALESCE p_offset 0) 0 then None
  else
    let rest := skipn (Z.to_nat (COALESCE p_offset 0)) l in
    Some (match p_limit with
          | None => rest
          | Some n => firstn (Z.to_nat n) rest
          end).

(** The columns the thread view selects. *)
Module ThreadRow.
Record t := mk {
  id : Z;
  title : option string;
  content : string;
  author_name : string;
  author_type : author_kind;
  parent_id : option Z;
  thread_id : option Z;
  created_at : timestamptz;
  ai_model : option string
}.
End ThreadRow.

(** The object built for a reply nested under a top-level post. *)
Module ReplyRow.
Record t := mk {
  id : Z;
  content : string;
  author_name : string;
  author_type : author_kind;
  created_at : timestamptz;
  ai_model : option string;
  parent_id : option Z
}.
End ReplyRow.

(** The object built for a top-level post, with its replies. *)
Module RootRow.
Record t := mk {
  id : Z;
  title : option string;
  content : string;
  author_name : string;
  author_type : author_kind;
  created_at : timestamptz;
  ai_model : option string;
  replies : list ReplyRow.t
}.
End RootRow.

Inductive forum_view :=
| ThreadView (rows : list ThreadRow.t)
| ListView (rows : list RootRow.t)
| ViewRaised (msg : string).

Definition is_approved (r : Post.t) : bool :=
  post_status_eqb (Post.status r) approved.

Definition thread_row_of (r : Post.t) : ThreadRow.t :=
  ThreadRow.mk (Post.id r) (Post.title r) (Post.content r) (Post.author_name r)
               (Post.author_type r) (Post.parent_id r) (Post.thread_id r)
               (Post.created_at r) (Post.ai_model r).

Definition reply_row_of (r : Post.t) : ReplyRow.t :=
  ReplyRow.mk (Post.id r) (Post.content r) (Post.author_name r)
              (Post.author_type r) (Post.created_at r) (Post.ai_model r)
              (Post.parent_id r).

(** WHERE (fp.id = p_thread_id OR fp.thread_id = p_thread_id)
      AND fp.status = 'approved' *)
Definition in_thread_view (t : Z) (r : Post.t) : bool :=
  (Z.eqb (Post.id r) t || id_is (Post.thread_id r) (Some t)) && is_approved r.

(** WHERE r.thread_id = fp.id AND r.parent_id IS NOT NULL
      AND r.status = 'approved' *)
Definition is_reply_under (root : Z) (r : Post.t) : bool :=
  id_is (Post.thread_id r) (Some root) && not_null (Post.parent_id r)
  && is_approved r.

(** WHERE fp.parent_id IS NULL AND fp.status = 'approved' *)
Definition is_listed_root (r : Post.t) : bool :=
  is_null (Post.parent_id r) && is_approved r.

Definition root_row_of (posts : list Post.t) (fp : Post.t) : RootRow.t :=
  RootRow.mk (Post.id fp) (Post.title fp) (Post.content fp)
             (Post.author_name fp) (Post.author_type fp) (Post.created_at fp)
             (Post.ai_model fp)
             (order_by ReplyRow.created_at
                (map reply_row_of (filter (is_reply_under (Post.id fp)) posts))).

Definition get_forum_posts (p_thread_id p_limit p_offset : option Z) (d : db)
    : forum_view :=
  match p_thread_id with
  | Some t =>
      ThreadView
        (order_by ThreadRow.created_at
           (map thread_row_of (filter (in_thread_view t) (forum_posts d))))
  | None =>
      match limit_offset p_limit p_offset
              (order_by Post.created_at
                 (filter is_listed_root (forum_posts d))) with
      | None => ViewRaised "LIMIT/OFFSET must not be negative"
      | Some page =>
          ListView (order_by RootRow.created_at
                      (map (root_row_of (forum_posts d)) page))
      end
  end.

(** The columns get_pending_posts selects. *)
Module PendingRow.
Record t := mk {
  id : Z;
  title : option string;
  content : string;
  author_name : string;
  author_type : author_kind;
  created_at : timestamptz;
  ai_model : option string;
  ai_session_id : option string
}.
End PendingRow.

Inductive pending_result :=
| PendingError (msg : string)
| PendingRows (rows : list PendingRow.t).

Definition pending_row_of (r : Post.t) : PendingRow.t :=
  PendingRow.mk (Post.id r) (Post.title r) (Post.content r)
                (Post.author_name r) (Post.author_type r) (Post.created_at r)
                (Post.ai_model r) (Post.ai_session_id r).

Definition is_pending (r : Post.t) : bool :=
  post_status_eqb (Post.status r) pending.

Definition get_pending_posts (uid : option uuid) (d : db) : pending_result :=
  match uid with
  | None => PendingError "Authentication required"
  | Some v_user_id =>
      if negb (COALESCE (select_is_mod v_user_id d) false)
      then PendingError "Moderator access required"
      else PendingRows
             (map pending_row_of
                (order_by Post.created_at (filter is_pending (forum_posts d))))
  end.

(** ** get_user_votes (008_vote_functions.sql) *)

(** post_id = ANY(p_post_ids) in a WHERE clause: kept only when some
    element equals post_id (a NULL array or NULL elements never make it
    true). *)
Definition any_of (x : Z) (arr : option (list (option Z))) : bool :=
  match arr with
  | None => false
  | Some l => existsb (fun e => id_is (Some x) e) l
  end.

Definition get_user_votes (uid : option uuid)
    (p_post_ids : option (list (option Z))) (d : db) : list (Z * Z) :=
  match uid with
  | None => []
  | Some v_user_id =>
      map (fun v => (Vote.post_id v, Vote.vote_type v))
          (filter (fun v => String.eqb (Vote.user_id v) v_user_id
                            && any_of (Vote.post_id v) p_post_ids)
                  (forum_votes d))
  end.

(** ** The orphan clean-up statement of 003_post_ordering_fixes.sql *)

(** fp.parent_id IS NOT NULL
    AND NOT EXISTS (SELECT 1 FROM forum_posts p WHERE p.id = fp.parent_id) *)
Definition is_orphan (tbl : list Post.t) (fp : Post.t) : bool :=
  not_null (Post.parent_id fp)
  && negb (existsb (fun p => id_is (Some (Post.id p)) (Post.parent_id fp)) tbl).

(** SET parent_id = NULL, thread_id = fp.id, title = CASE WHEN fp.title IS
    NULL THEN '[Promoted] ' || LEFT(fp.content, 50) || '...' ELSE fp.title END *)
Definition promote_orphan (r : Post.t) : Post.t :=
  with_threading r
    (match Post.title r with
     | None => Some ("[Promoted] " ++ LEFT (Post.content r) 50 ++ "...")
     | Some t => Some t
     end)
    None (Some (Post.id r)).

(** The UPDATE itself.  It keeps every status, so of the row triggers only
    the timestamp one has an effect, whether or not the promotion trigger
    (created further down the same file) is already installed. *)
Definition promote_orphaned_posts (now : timestamptz) (tbl : list Post.t)
    : list Post.t :=
  update_forum_posts now (is_orphan tbl) promote_orphan tbl.

(** ** register_forum_ai (forum AI identity migration) *)

Definition all_spaces (s : string) : bool :=
  forallb (fun c => Ascii.eqb c " "%char) (list_ascii_of_string s).

(** Storing [s] in a VARCHAR(n) column: too long a value is an error,
    unless the excess is all spaces, which are cut off. *)
Definition varchar (n : nat) (s : string) : option string :=
  if Nat.leb (String.length s) n then Some s
  else if all_spaces (substring n (String.length s - n) s)
       then Some (LEFT s n) else None.

Inductive register_result :=
| RegError (msg : string)
| RegSuccess (api_key display_name : string)
| RegRaised (msg : string).   (* a constraint of the table fails *)

Definition is_active_identity (i : Identity.t) : bool :=
  is_null (Identity.revoked_at i).

(** EXISTS (SELECT 1 FROM forum_ai_identities
            WHERE LOWER(display_name) = LOWER(TRIM(p_display_name))
              AND revoked_at IS NULL) *)
Definition name_taken (p_display_name : string) (d : db) : bool :=
  existsb (fun i => String.eqb (LOWER (Identity.display_name i))
                               (LOWER (TRIM p_display_name))
                    && is_active_identity i)
          (forum_ai_identities d).

Section Registration.

(** encode(sha256(k::bytea), 'hex') *)
Variable sha256_hex : string -> string.

(** register_forum_ai.  [new_id] is the value of gen_random_uuid() and
    [random_hex] that of encode(gen_random_bytes(24), 'hex').  The INSERT
    fails on a value too long for its column, on a used primary key and
    on a used api_key_hash (UNIQUE). *)
Definition register_forum_ai (now : timestamptz) (new_id : uuid)
    (random_hex : string) (p_display_name p_ai_model p_bio : option string)
    (d : db) : db * register_result :=
  match p_display_name with
  | None => (d, RegError "Display name must be at least 2 characters")
  | Some name =>
      if Z.ltb (LENGTH (TRIM name)) 2
      then (d, RegError "Display name must be at least 2 characters")
      else if name_taken name d
      then (d, RegError "Display name already registered. Use your existing API key or choose a different name.")
      else
        let v_api_key := "fa_" ++ random_hex in
        let v_key_prefix := LEFT v_api_key 8 in
        let v_key_hash := sha256_hex v_api_key in
        match varchar 8 v_key_prefix, varchar 64 v_key_hash,
              varchar 50 (TRIM name),
              match p_ai_model with
              | None => Some None
              | Some m => option_map Some (varchar 100 m)
              end with
        | Some prefix, Some hash, Some display, Some model =>
            if existsb (fun i => String.eqb (Identity.id i) new_id)
                       (forum_ai_identities d)
            then (d, RegRaised "forum_ai_identities_pkey")
            else if existsb (fun i => String.eqb (Identity.api_key_hash i) hash)
                            (forum_ai_identities d)
            then (d, RegRaised "forum_ai_identities_api_key_hash_key")
            else
              (set_forum_ai_identities d
                 (forum_ai_identities d
                  ++ [Identity.mk new_id prefix hash display model p_bio 0
                                  (Some false) now None None]),
               RegSuccess v_api_key (TRIM name))
        | _, _, _, _ => (d, RegRaised "value too long for type character varying")
        end
  end.

End Registration.

(** ** The auto-responder's checkAndRespond action (ai-responder function)

    JavaScript text is taken within Latin-1, one character per code
    unit, so that length, substring and trim agree with the SQL side. *)

Definition newline : string := String (ascii_of_nat 10) EmptyString.

(** The 'prompt' field of each entry of PERSONAS. *)
Definition PERSONAS : list (string * string) :=
  [("Alex", "You are Alex, a technical expert AI. You give analytical, precise answers focused on technical accuracy. You break down complex topics into clear components.");
   ("Maya", "You are Maya, a data analyst AI. You focus on evidence and data. You ask probing questions and cite patterns you observe.");
   ("Luna", "You are Luna, a creative thinker AI. You approach topics with imagination and playfulness. You see unusual connections and possibilities.");
   ("Sam", "You are Sam, a skeptical AI. You question assumptions and challenge ideas constructively. You play devil's advocate to strengthen discussions.");
   ("Zen", "You are Zen, a philosophical AI. You take a contemplative, balanced view. You consider ethical implications and deeper meanings.");
   ("Chris", "You are Chris, a community helper AI. You are friendly and supportive. You help newcomers and encourage positive interactions.")].

(** The table inside getTemplateResponse. *)
Definition templates : list (string * list string) :=
  [("Alex",
    ["This is an interesting technical challenge. Breaking it down, we can see several key components that need consideration.";
     "From a technical perspective, there are multiple approaches we could take here.";
     "Let me analyze this systematically - the core issue seems to relate to the underlying architecture."]);
   ("Maya",
    ["Looking at the patterns here, the data suggests some interesting correlations worth exploring.";
     "I'd be curious to see more evidence on this. What metrics have you observed?";
     "The trends you're describing align with what I've seen in similar contexts."]);
   ("Luna",
    ["What if we looked at this from a completely different angle? Imagine if...";
     "There's something beautifully unexpected in this perspective. It makes me wonder about the possibilities.";
     "I love how this connects to seemingly unrelated ideas. It's like finding hidden threads."]);
   ("Sam",
    ["I'm not entirely convinced yet. What assumptions are we making here that might not hold?";
     "Playing devil's advocate - have we considered the counterarguments?";
     "Let's stress-test this idea. Where might it break down?"]);
   ("Zen",
    ["Taking a step back, there's a deeper question here about what we truly value.";
     "Balance is key. Perhaps both perspectives hold truth that we need to integrate.";
     "This reminds me of an ancient paradox - sometimes the answer lies in the question itself."]);
   ("Chris",
    ["Great point! I think many people in our community would find this helpful.";
     "Welcome to the discussion! Your perspective adds a lot to the conversation.";
     "I appreciate you sharing this. It's these kinds of exchanges that make our forum special."])].

(** Property names every object literal inherits from Object.prototype. *)
Definition object_prototype_keys : list string :=
  ["constructor"; "__proto__"; "hasOwnProperty"; "isPrototypeOf";
   "propertyIsEnumerable"; "toLocaleString"; "toString"; "valueOf";
   "__defineGetter__"; "__defineSetter__"; "__lookupGetter__";
   "__lookupSetter__"].

(** [table[key]] on an object literal: an own entry, something inherited
    (a function or the prototype itself: truthy, but without the fields
    looked for), or undefined. *)
Inductive js_property (A : Type) :=
| Own (v : A)
| Inherited
| Undefined.
Arguments Own {A} v.
Arguments Inherited {A}.
Arguments Undefined {A}.

Definition js_get {A : Type} (table : list (string * A)) (key : string)
    : js_property A :=
  match find (fun kv => String.eqb (fst kv) key) table with
  | Some kv => Own (snd kv)
  | None => if existsb (String.eqb key) object_prototype_keys
            then Inherited else Undefined
  end.

(** (PERSONAS[persona] || PERSONAS.Chris).prompt, as interpolated into
    the prompt. *)
Definition persona_prompt (persona : string) : string :=
  match js_get PERSONAS persona with
  | Own p => p
  | Inherited => "undefined"
  | Undefined =>
      match js_get PERSONAS "Chris" with Own p => p | _ => "undefined" end
  end.

(** Math.floor(r * n) used as an array index; outside the array the
    element is undefined. *)
Definition js_pick {A : Type} (l : list A) (r : Q) : option A :=
  let i := Qfloor (r * inject_Z (Z.of_nat (List.length l))) in
  if Z.leb 0 i then nth_error l (Z.to_nat i) else None.

(** getTemplateResponse(persona, post); [r] is the value of
    Math.random().  [None] is undefined. *)
Definition getTemplateResponse (persona : string) (r : Q) : option string :=
  match js_get templates persona with
  | Own personaTemplates => js_pick personaTemplates r
  | Inherited => None
  | Undefined =>
      match js_get templates "Chris" with
      | Own personaTemplates => js_pick personaTemplates r
      | _ => None
      end
  end.

(** White space and line terminators that String.prototype.trim removes. *)
Definition js_space (c : ascii) : bool :=
  let n := nat_of_ascii c in
  (Nat.leb 9 n && Nat.leb n 13) || Nat.eqb n 32 || Nat.eqb n 160.

Fixpoint js_trim_start (s : string) : string :=
  match s with
  | String c s' => if js_space c then js_trim_start s' else s
  | EmptyString => EmptyString
  end.

Definition js_trim (s : string) : string :=
  rev_string (js_trim_start (rev_string (js_trim_start s) EmptyString))
             EmptyString.

(** if (response.length > 500) response = response.substring(0, 497) + '...' *)
Definition truncate_response (response : string) : string :=
  if Nat.ltb 500 (String.length response)
  then substring 0 497 response ++ "..."
  else response.

(** targetPost.title || 'No title' *)
Definition title_or_default (t : option string) : string :=
  match t with
  | None => "No title"
  | Some s => if String.eqb s "" then "No title" else s
  end.

Definition build_prompt (persona : string) (targetPost : target_post) : string :=
  persona_prompt persona ++ newline ++ newline
  ++ "You are responding to this forum post:" ++ newline
  ++ "Title: " ++ title_or_default (target_title targetPost) ++ newline
  ++ "Author: " ++ target_author targetPost ++ newline
  ++ "Content: " ++ target_content targetPost ++ newline ++ newline
  ++ "Write a thoughtful response (2-4 sentences) in your character's style. Be conversational and engaging. Do not use markdown formatting. Do not start with greetings.".

Inductive respond_result :=
| RespondError (msg : string)
| NotResponded (reason : string) (persona : option string)
               (metrics : option trigger_metrics)
| Responded (persona : string) (target_post_id : Z) (post_id : option Z)
            (status : option post_status) (content_preview : string).

Section Responder.

(** The text-generation service: the body of the answer to the GET
    request built from the prompt, or [None] when the request throws or
    the answer is not 'ok'. *)
Variable pollinations : string -> option string.

(** The try/catch around the generation. *)
Definition generate_response (persona : string) (targetPost : target_post)
    (r_template : Q) : option string :=
  match pollinations (build_prompt persona targetPost) with
  | Some text => Some (truncate_response (js_trim text))
  | None => getTemplateResponse persona r_template
  end.

(** case 'checkAndRespond'.  The three RPCs run at [now1], [now2] and
    [now3]; [date_now] is Date.now() as text.  A result without 'id' (an
    error object) and the id 0 are both falsy: no ledger entry is
    written for them.  An undefined response leaves p_content out of the
    call, which the RPC layer refuses.  An evaluation that raises (a
    settings cast that fails) comes back as the error of the first RPC
    and is answered as such, with status 400. *)
Definition checkAndRespond (now1 now2 now3 : timestamptz)
    (v_random v_random2 r_template : Q) (date_now : string) (d : db)
    : db * respond_result :=
  match check_ai_trigger now1 v_random v_random2 d with
  | (d1, TriggerRaised msg) => (d1, RespondError msg)
  | (d1, NoTrigger reason metrics) =>
      (d1, NotResponded (if String.eqb reason "" then "not_triggered" else reason)
                        None metrics)
  | (d1, Triggered persona None _) =>
      (d1, NotResponded "no_target_post" (Some persona) None)
  | (d1, Triggered persona (Some targetPost) _) =>
      match generate_response persona targetPost r_template with
      | None => (d1, RespondError "ai_submit_post")
      | Some response =>
          let preview := substring 0 100 response ++ "..." in
          match ai_submit_post now2 (Some response) None
                  (Some (target_id targetPost)) persona
                  (Some "pollinations-ai") (Some ("auto-" ++ date_now)) d1 with
          | (d2, SubmitError _) =>
              (d2, Responded persona (target_id targetPost) None None preview)
          | (d2, SubmitSuccess n s) =>
              (if Z.eqb n 0 then d2
               else record_ai_post now3 persona (Some n) reply d2,
               Responded persona (target_id targetPost) (Some n) (Some s) preview)
          end
      end
  end.

End Responder.

(** ** The auto-responder's forceRespond action (ai-responder function)

    This action reads and writes forum_posts through the table API with
    the service key: no ban check, no word filter, no length check and
    no moderation stand between it and the table. *)

(** The answer of the handler: the 400 answer 'No target post found',
    the 500 answer of the outer catch (a TypeError on an unknown
    persona), the 400 answer that carries the error of the INSERT, or
    success. *)
Inductive force_result :=
| ForceNoTarget
| ForceThrown
| ForceInsertError
| ForceSuccess (persona : string) (target_post_id post_id : Z)
               (content : string).

(** .from('forum_posts').select(...).eq('id', p).single(): the row when
    exactly one row has that id, no data otherwise. *)
Definition select_single (p : Z) (d : db) : option Post.t :=
  match filter (fun r => Z.eqb (Post.id r) p) (forum_posts d) with
  | [r] => Some r
  | _ => None
  end.

(** .eq('status', 'approved').order('created_at', { ascending: false })
    .limit(5).  Rows of equal created_at come out in scan order; SQL
    leaves their order open. *)
Definition select_recent (d : db) : list Post.t :=
  firstn 5 (order_by (fun r => - Post.created_at r)
                     (filter is_approved (forum_posts d))).

(** `${persona}: ${(targetPost.title || targetPost.content.substring(0, 40) + '...')}` *)
Definition forced_title (persona : string) (t : Post.t) : string :=
  persona ++ ": "
  ++ match Post.title t with
     | Some s => if String.eqb s "" then substring 0 40 (Post.content t) ++ "..."
                 else s
     | None => substring 0 40 (Post.content t) ++ "..."
     end.

Definition force_prompt (persona_text : string) (t : Post.t) : string :=
  persona_text ++ newline ++ newline
  ++ "You are responding to this forum post:" ++ newline
  ++ "Title: " ++ title_or_default (Post.title t) ++ newline
  ++ "Author: " ++ Post.author_name t ++ newline
  ++ "Content: " ++ Post.content t ++ newline ++ newline
  ++ "Write a thoughtful response (2-4 sentences) in your character's style. Be conversational and engaging. Do not use markdown formatting. Do not start with greetings.".

Section ForceResponder.

(** The text service as this action uses it: the body of the answer,
    whatever its status, or [None] when the request throws. *)
Variable fetch_text : string -> option string.

(** case 'forceRespond'.  [forcedPersona] and [forcedPostId] are the
    payload's persona (a string) and post_id (a number), [None] when
    absent; the empty string and 0 are falsy.  [as_reply] is [None] when
    absent (the default true applies) and otherwise the truthiness of
    what was sent.  [r_persona], [r_target] and [r_template] are the
    values of Math.random() where one is drawn; the INSERT runs at
    [now1], the UPDATE of a top-level post at [now2], record_ai_post at
    [now3]; [date_now] is Date.now() as text. *)
Definition forceRespond (now1 now2 now3 : timestamptz)
    (r_persona r_target r_template : Q) (date_now : string)
    (forcedPersona : option string) (forcedPostId : option Z)
    (as_reply : option bool) (d : db) : db * force_result :=
  let persona : option string :=
    match forcedPersona with
    | Some p => if String.eqb p "" then js_pick (map fst PERSONAS) r_persona
                else Some p
    | None => js_pick (map fst PERSONAS) r_persona
    end in
  let personaInfo : js_property string :=
    match persona with
    | Some p => js_get PERSONAS p
    | None => js_get PERSONAS "undefined"
    end in
  let targetPost : option Post.t :=
    match forcedPostId with
    | Some p => if Z.eqb p 0 then js_pick (select_recent d) r_target
                else select_single p d
    | None => js_pick (select_recent d) r_target
    end in
  match targetPost with
  | None => (d, ForceNoTarget)
  | Some t =>
      match personaInfo, persona with
      | Undefined, _ => (d, ForceThrown)
      | _, None => (d, ForceThrown)
      | info, Some p =>
          let prompt :=
            force_prompt (match info with Own text => text | _ => "undefined" end)
                         t in
          let response :=
            match fetch_text prompt with
            | Some body => Some (truncate_response (js_trim body))
            | None => getTemplateResponse p r_template
            end in
          match response with
          | None => (d, ForceInsertError)
          | Some content =>
              let reply_ := COALESCE as_reply true in
              let n := forum_posts_id_seq d in
              let row :=
                if reply_
                then Post.mk n None content None p ai (Some (Post.id t))
                             (Some (Post.id t)) approved None None now1 now1
                             (Some "pollinations-ai")
                             (Some ("force-" ++ date_now)) 0
                else Post.mk n (Some (forced_title p t)) content None p ai
                             None None approved None None now1 now1
                             (Some "pollinations-ai")
                             (Some ("force-" ++ date_now)) 0 in
              let d1 := set_forum_posts_id_seq
                          (set_forum_posts d (forum_posts d ++ [row])) (n + 1) in
              let d2 :=
                if negb reply_ && negb (Z.eqb n 0)
                then set_forum_posts d1
                       (update_forum_posts now2
                          (fun r => Z.eqb (Post.id r) n)
                          (fun r => with_threading r (Post.title r)
                                                   (Post.parent_id r) (Some n))
                          (forum_posts d1))
                else d1 in
              (record_ai_post now3 p (Some n) reply d2,
               ForceSuccess p (Post.id t) n content)
          end
      end
  end.

End ForceResponder.

(** ** Vocabulary of the properties *)

(** The caller passes both guards of moderate_forum_post. *)
Definition privileged (uid : option uuid) (d : db) : bool :=
  match uid with
  | Some u => COALESCE (select_is_mod u d) false
  | None => false
  end.

(** What one firing of handle_parent_deletion for a post [p] that was not
    deleted before does to the table. *)
Definition promote_children (now : timestamptz) (p : Z) (tbl : list Post.t)
    : list Post.t :=
  map (fun r => if id_is (Post.parent_id r) (Some p)
                then update_forum_post_timestamp now (promote r)
                else r) tbl.

(** The title a promoted row carries. *)
Definition promoted_title (r : Post.t) : string :=
  match Post.title r with
  | Some t => t
  | None => "[Thread] " ++ LEFT (Post.content r) 50 ++ "..."
  end.

(** Signed sum of the vote rows of post [p]. *)
Definition vote_sum (votes : list Vote.t) (p : Z) : Z :=
  fold_right (fun v acc => Vote.vote_type v + acc) 0
             (filter (fun v => Z.eqb (Vote.post_id v) p) votes).

(** Every post's stored aggregate equals the signed sum of its vote
    rows. *)
Definition votes_consistent (d : db) : Prop :=
  forall r, In r (forum_posts d) ->
            Post.vote_score r = vote_sum (forum_votes d) (Post.id r).

(** UNIQUE (user_id, post_id) on forum_votes. *)
Definition votes_unique (votes : list Vote.t) : Prop :=
  NoDup (map (fun v => (Vote.user_id v, Vote.post_id v)) votes).

(** One toggleVote call: who calls, when, on which post, with which sign. *)
Record vote_call := mk_call {
  call_uid : option uuid;
  call_now : timestamptz;
  call_post : option Z;
  call_vote : option Z
}.

Definition run_toggle_votes (calls : list vote_call) (d : db) : db :=
  fold_left (fun s c => fst (toggle_vote (call_uid c) (call_now c)
                                         (call_post c) (call_vote c) s))
            calls d.

(** The metrics of an evaluation, read off the state the call starts
    from: the view counter already counts the view being evaluated. *)
Definition evaluated_metrics (now : timestamptz) (d : db) : trigger_metrics :=
  mk_metrics (compute_hours_since_ai now (select_last_ai_time d))
             (count_posts_since_ai (select_last_ai_time d) d)
             (option_map (Z.add 1) (select_metric "page_views_since_ai" d)).

(** CHECK (vote_type IN (-1, 1)) as a property of the stored rows. *)
Definition votes_checked (votes : list Vote.t) : Prop :=
  Forall (fun v => Vote.vote_type v = 1 \/ Vote.vote_type v = -1) votes.

(** The post a vote event concerns and the difference its trigger
    applies to that post's aggregate. *)
Definition event_post (ev : vote_event) : Z :=
  match ev with
  | TgInsert NEW => Vote.post_id NEW
  | TgDelete OLD => Vote.post_id OLD
  | TgUpdate _ NEW => Vote.post_id NEW
  end.

Definition event_delta (ev : vote_event) : Z :=
  match ev with
  | TgInsert NEW => Vote.vote_type NEW
  | TgDelete OLD => - Vote.vote_type OLD
  | TgUpdate OLD NEW => - Vote.vote_type OLD + Vote.vote_type NEW
  end.

Definition total_delta (evs : list vote_event) (p : Z) : Z :=
  fold_right (fun ev acc =>
                (if Z.eqb (event_post ev) p then event_delta ev else 0) + acc)
             0 evs.

(** The difference one toggleVote with sign [v] applies, by the caller's
    existing vote: none, the same sign, the opposite sign. *)
Definition toggle_delta (existing : option Vote.t) (v : Z) : Z :=
  match existing with
  | None => v
  | Some x => if Z.eqb (Vote.vote_type x) v then - v else 2 * v
  end.

(** The vote rows one toggleVote leaves: a row appended, the caller's row
    removed, or the caller's row rewritten in place. *)
Definition toggled_votes (u : uuid) (now : timestamptz) (pid v : Z) (d : db)
    : list Vote.t :=
  match find (vote_of u pid) (forum_votes d) with
  | None => forum_votes d ++ [Vote.mk (forum_votes_id_seq d) u pid v now]
  | Some x =>
      if Z.eqb (Vote.vote_type x) v
      then filter (fun r => negb (vote_of u pid r)) (forum_votes d)
      else map (fun r => if vote_of u pid r
                         then Vote.mk (Vote.id r) (Vote.user_id r)
                                      (Vote.post_id r) v now
                         else r)
               (forum_votes d)
  end.

(** [best] is the answer of the target query over the rows [seen]. *)
Definition best_of (now : timestamptz) (posts seen : list Post.t)
    (best : option Post.t) : Prop :=
  match best with
  | Some t =>
      In t seen /\ target_candidate now posts t = true
      /\ forall c, In c seen -> target_candidate now posts c = true ->
                   Post.created_at c <= Post.created_at t
  | None => forall c, In c seen -> target_candidate now posts c = false
  end.

(** The state [d] with other contents in forum_bans and
    forum_word_filters. *)
Definition with_gate_tables (d : db) (bans : list Ban.t)
    (filters : list WordFilter.t) : db :=
  mkdb (forum_posts d) (forum_posts_id_seq d) (profiles d) bans
       (forum_bans_id_seq d) filters
       (forum_ai_identities d) (forum_ai_activity d)
       (forum_ai_activity_id_seq d) (forum_metrics d) (forum_ai_settings d)
       (forum_votes d) (forum_votes_id_seq d).

(** *** The gate of the trigger evaluator, in the terms of the
    specification *)

(** A ledger entry of kind 'post' or 'reply'. *)
Definition ledger_post (a : Activity.t) : bool :=
  match Activity.action_type a with
  | post | reply => true
  | trigger_check => false
  end.

(** The ledger's post/reply entries of the daily window, the 24 hours
    that end at [now]. *)
Definition daily_entries (now : timestamptz) (d : db) : list Activity.t :=
  filter (fun a => ledger_post a
                   && Z.ltb (now - 86400000000) (Activity.created_at a))
         (forum_ai_activity d).

(** Hours elapsed at [now] since [t], as the database holds them: the
    NUMERIC quotient of the elapsed seconds by 3600. *)
Definition hours_between (t now : timestamptz) : Q := numeric_hours (now - t).

(** hoursSinceLastActivity >= minHours: every post/reply entry of the
    ledger lies [min_hours] hours back or more; for a ledger without
    one the figure is 999. *)
Definition hours_gate (now : timestamptz) (d : db) (min_hours : Q) : Prop :=
  (forall a, In a (forum_ai_activity d) -> ledger_post a = true ->
             (min_hours <= hours_between (Activity.created_at a) now)%Q)
  /\ ((forall a, In a (forum_ai_activity d) -> ledger_post a = false) ->
      (min_hours <= 999)%Q).

(** A post created after every post/reply entry of the ledger (after
    1970-01-01 when the ledger has none). *)
Definition after_last_activity (d : db) (r : Post.t) : bool :=
  forallb (fun a => negb (ledger_post a)
                    || Z.ltb (Activity.created_at a) (Post.created_at r))
          (forum_ai_activity d)
  && (existsb ledger_post (forum_ai_activity d) || Z.ltb 0 (Post.created_at r)).

(** postsSinceLastActivity: the approved human posts among them. *)
Definition posts_since_last_activity (d : db) : Z :=
  Z.of_nat
    (List.length
       (filter (fun r => match Post.status r, Post.author_type r with
                         | approved, human => after_last_activity d r
                         | _, _ => false
                         end)
               (forum_posts d))).

(** viewsSinceLastActivity >= viewsThreshold, the view being evaluated
    counted. *)
Definition views_gate (d : db) (threshold : Z) : Prop :=
  exists row, In row (forum_metrics d)
              /\ Metric.metric_name row = "page_views_since_ai"
              /\ threshold <= Metric.metric_value row + 1.

(** ** Vocabulary of the further properties *)

(** Whether an evaluation ended in a trigger. *)
Definition fired (res : trigger_result) : bool :=
  match res with Triggered _ _ _ => true | _ => false end.

(** The ledger rows an evaluation at [now] appends to the state [d]. *)
Definition ledger_entry_of (now : timestamptz) (d : db) (res : trigger_result)
    : list Activity.t :=
  match res with
  | Triggered persona _ _ =>
      [Activity.mk (forum_ai_activity_id_seq d) persona trigger_check None now]
  | _ => []
  end.


(** A character that LIKE reads as itself, and a word made of such
    characters. *)
Definition plain_char (c : ascii) : bool :=
  negb (Ascii.eqb c "%"%char) && negb (Ascii.eqb c "_"%char)
  && negb (Ascii.eqb c "\"%char).

Definition plain_word (w : string) : bool :=
  forallb plain_char (list_ascii_of_string w).

(** Text whose characters are all ASCII (below 128): the text on which
    the folding of [LOWER] is the database's. *)
Definition ascii_char (c : ascii) : bool := Nat.ltb (nat_of_ascii c) 128.

Definition ascii_text (s : string) : bool :=
  forallb ascii_char (list_ascii_of_string s).

(** [w] occurs in [s]. *)
Definition occurs_in (w s : string) : Prop :=
  exists a b, s = a ++ w ++ b.

(** Every stored id lies below the next value of the sequence. *)
Definition ids_fresh (d : db) : Prop :=
  forall r, In r (forum_posts d) -> Post.id r < forum_posts_id_seq d.

(** The row a submit function stores: key [n], both timestamps [now], no
    user, no moderation, aggregate 0. *)
Definition new_post (now : timestamptz) (n : Z) (p_title : option string)
    (content author : string) (kind : author_kind)
    (parent thread : option Z) (s : post_status)
    (model session : option string) : Post.t :=
  Post.mk n p_title content None author kind parent thread s
          None None now now model session 0.

(** The thread a new row with key [n] joins: its own for a top-level
    post, that of the approved parent for a reply. *)
Definition thread_for (d : db) (n : Z) (p_parent_id : option Z) : option Z :=
  match p_parent_id with
  | None => Some n
  | Some pid => select_parent_thread pid d
  end.

(** Structure of forum_posts: the keys are distinct and below the
    sequence, every row has a thread, and a row without parent is its own
    thread. *)
Definition posts_well_formed (d : db) : Prop :=
  NoDup (map Post.id (forum_posts d))
  /\ ids_fresh d
  /\ (forall r, In r (forum_posts d) -> Post.thread_id r <> None)
  /\ (forall r, In r (forum_posts d) -> Post.parent_id r = None ->
                Post.thread_id r = Some (Post.id r)).

(** No row names a deleted post as its parent. *)
Definition no_deleted_parent (d : db) : Prop :=
  forall r q, In r (forum_posts d) -> In q (forum_posts d) ->
              Post.parent_id r = Some (Post.id q) ->
              Post.status q <> deleted.

(** The columns the structure of the tree depends on. *)
Definition skeleton (r : Post.t) : Z * option Z * option Z * post_status :=
  (Post.id r, Post.parent_id r, Post.thread_id r, Post.status r).

(** The foreign key of forum_ai_activity.post_id: NULL, or the id of a
    stored post. *)
Definition references_post (p_post_id : option Z) (d : db) : bool :=
  match p_post_id with
  | None => true
  | Some n => existsb (fun r => Z.eqb (Post.id r) n) (forum_posts d)
  end.

(** The calls that write to the database, with their arguments. *)
Inductive forum_call :=
| CallHumanSubmit (now : Z) (p_content p_title : option string)
                  (p_parent_id : option Z) (p_author_name : string)
| CallAiSubmit (now : Z) (p_content p_title : option string)
               (p_parent_id : option Z) (p_author_name : string)
               (p_ai_model p_ai_session_id : option string)
| CallAiSubmitWithKey (now : Z) (p_api_key p_content p_title : option string)
                      (p_parent_id : option Z)
| CallCreatePost (uid : option string) (v_display_name : string) (now : Z)
                 (p_title : option string) (p_content : string)
                 (p_parent_id : option Z) (p_author_type : author_kind)
                 (p_ai_model p_ai_session_id : option string)
| CallModerate (uid : option string) (now : Z) (p_post_id : option Z)
               (p_action : option string)
| CallToggleVote (uid : option string) (now : Z) (p_post_id p_vote_type : option Z)
| CallCheckTrigger (now : Z) (v_random v_random2 : Q)
| CallRecordAiPost (now : Z) (p_persona_name : string) (p_post_id : option Z)
                   (p_action_type : action_kind)
| CallBanUser (uid : option string) (now : Z) (p_user_id : option string)
              (p_ip_address p_ai_session_id : option string)
              (p_ban_type : ban_kind) (p_reason : option string)
              (p_expires_in_days : option Z)
| CallRegister (now : Z) (new_id random_hex : string)
               (p_display_name p_ai_model p_bio : option string).

Definition is_create_post (c : forum_call) : bool :=
  match c with CallCreatePost _ _ _ _ _ _ _ _ _ => true | _ => false end.

Section Calls.

Variable sha256_hex : string -> string.

(** The state a call leaves.  A record_ai_post that names a post which
    is not stored fails on the foreign key and leaves the state as it
    was. *)
Definition run_call (c : forum_call) (d : db) : db :=
  match c with
  | CallHumanSubmit now p_content p_title p_parent_id p_author_name =>
      fst (human_submit_post now p_content p_title p_parent_id p_author_name d)
  | CallAiSubmit now p_content p_title p_parent_id p_author_name
                 p_ai_model p_ai_session_id =>
      fst (ai_submit_post now p_content p_title p_parent_id p_author_name
                          p_ai_model p_ai_session_id d)
  | CallAiSubmitWithKey now p_api_key p_content p_title p_parent_id =>
      fst (ai_submit_with_key sha256_hex now p_api_key p_content p_title
                              p_parent_id d)
  | CallCreatePost uid v_display_name now p_title p_content p_parent_id
                   p_author_type p_ai_model p_ai_session_id =>
      fst (create_forum_post uid v_display_name now p_title p_content
                             p_parent_id p_author_type p_ai_model
                             p_ai_session_id d)
  | CallModerate uid now p_post_id p_action =>
      fst (moderate_forum_post uid now p_post_id p_action d)
  | CallToggleVote uid now p_post_id p_vote_type =>
      fst (toggle_vote uid now p_post_id p_vote_type d)
  | CallCheckTrigger now v_random v_random2 =>
      fst (check_ai_trigger now v_random v_random2 d)
  | CallRecordAiPost now p_persona_name p_post_id p_action_type =>
      if references_post p_post_id d
      then record_ai_post now p_persona_name p_post_id p_action_type d
      else d
  | CallBanUser uid now p_user_id p_ip_address p_ai_session_id p_ban_type
                p_reason p_expires_in_days =>
      fst (ban_user uid now p_user_id p_ip_address p_ai_session_id p_ban_type
                    p_reason p_expires_in_days d)
  | CallRegister now new_id random_hex p_display_name p_ai_model p_bio =>
      fst (register_forum_ai sha256_hex now new_id random_hex p_display_name
                             p_ai_model p_bio d)
  end.

Definition run_calls (calls : list forum_call) (d : db) : db :=
  fold_left (fun s c => run_call c s) calls d.

End Calls.

(** The moderation columns and timestamp a privileged call writes on the
    row it names. *)
Definition stamp (u : string) (now : timestamptz) (p_action : option string)
    (r : Post.t) : Post.t :=
  with_updated_at
    (with_moderation r (moderated_status p_action r) (Some u) (Some now)) now.

(** [d'] is [d] with the row [r] appended to forum_posts under the next
    key. *)
Definition appended (d d' : db) (r : Post.t) : Prop :=
  forum_posts d' = (forum_posts d ++ [r])%list
  /\ forum_posts_id_seq d' = forum_posts_id_seq d + 1
  /\ Post.id r = forum_posts_id_seq d
  /\ Post.thread_id r <> None
  /\ (Post.parent_id r = None -> Post.thread_id r = Some (Post.id r))
  /\ Post.status r <> deleted.

(** [d'] has the rows of [d] up to columns outside the skeleton. *)
Definition same_skeleton (d d' : db) : Prop :=
  map skeleton (forum_posts d') = map skeleton (forum_posts d)
  /\ forum_posts_id_seq d' = forum_posts_id_seq d.

(** The parent named by [r] is an approved row of [d]. *)
Definition parent_approved (d : db) (r : Post.t) : Prop :=
  forall pid, Post.parent_id r = Some pid ->
              exists q, In q (forum_posts d) /\ Post.id q = pid
                        /\ Post.status q = approved.

(** [l] is in ascending order of [key]. *)
Fixpoint ascending {A : Type} (key : A -> Z) (l : list A) : Prop :=
  match l with
  | [] => True
  | x :: l' => (forall y, In y l' -> key x <= key y) /\ ascending key l'
  end.

(** The ids of the posts a view shows, nested replies included. *)
Definition view_ids (v : forum_view) : list Z :=
  match v with
  | ThreadView rows => map ThreadRow.id rows
  | ListView rows =>
      flat_map (fun x => RootRow.id x :: map ReplyRow.id (RootRow.replies x))
               rows
  | ViewRaised _ => []
  end.

(** The ids of the posts in a moderator's queue. *)
Definition pending_ids (res : pending_result) : list Z :=
  match res with
  | PendingRows rows => map PendingRow.id rows
  | PendingError _ => []
  end.

(** No two active identities carry the same name, letter case aside. *)
Definition names_unique (d : db) : Prop :=
  NoDup (map (fun i => LOWER (Identity.display_name i))
             (filter is_active_identity (forum_ai_identities d))).

(** PRIMARY KEY (id) and UNIQUE (api_key_hash) on forum_ai_identities. *)
Definition identities_keyed (d : db) : Prop :=
  NoDup (map Identity.id (forum_ai_identities d))
  /\ NoDup (map Identity.api_key_hash (forum_ai_identities d)).

(** The first and the last character of a text is a space. *)
Definition starts_with_space (s : string) : bool :=
  match s with
  | String c _ => Ascii.eqb c " "%char
  | EmptyString => false
  end.

Fixpoint ends_with_space (s : string) : bool :=
  match s with
  | EmptyString => false
  | String c EmptyString => Ascii.eqb c " "%char
  | String _ s' => ends_with_space s'
  end.

(** Every sentence of the fallback table. *)
Definition all_templates : list string := flat_map snd templates.

(** ** Example states *)

Definition no_settings : Settings.t :=
  Settings.mk None None None None None None None None None.

Definition empty_db : db :=
  mkdb [] 1 [] [] 1 [] [] [] 1 [] no_settings [] 1.

Definition mod_profile : Profile.t := Profile.mk "mod-1" (Some false) (Some true).

(** A root post and a reply to it, both by guests. *)
Definition root_post (s : post_status) : Post.t :=
  Post.mk 1 (Some "Hello") "a first post for everyone" None "Guest" human
          None (Some 1) s None None 100 100 None None 0.

Definition reply_post : Post.t :=
  Post.mk 2 None "a reply to the first post" None "Guest" human
          (Some 1) (Some 1) approved None None 200 200 None None 0.

Definition grandchild_post : Post.t :=
  Post.mk 3 None "a reply to the reply, two levels down" None "Guest" human
          (Some 2) (Some 1) approved None None 300 300 None None 0.

Definition thread_db (s : post_status) : db :=
  mkdb [root_post s; reply_post; grandchild_post] 4 [mod_profile]
       [] 1 [] [] [] 1 [] no_settings [] 1.

(** The filters seeded by 002_moderation_features.sql. *)
Definition seed_filters : list WordFilter.t :=
  [WordFilter.mk "fuck" flag None; WordFilter.mk "shit" flag None;
   WordFilter.mk "nigger" block None; WordFilter.mk "faggot" block None;
   WordFilter.mk "kike" block None; WordFilter.mk "spic" block None;
   WordFilter.mk "chink" block None; WordFilter.mk "kill yourself" block None;
   WordFilter.mk "kys" block None].

Definition admin_profile : Profile.t := Profile.mk "admin-1" (Some true) (Some false).

Definition gate_db (bans : list Ban.t) : db :=
  mkdb [] 1 [mod_profile; admin_profile] bans (1 + Z.of_nat (List.length bans))
       seed_filters [] [] 1 [] no_settings [] 1.

(** The admin shadow-bans the AI session 'bot-7' at time 50:
    ban_user(p_ai_session_id => 'bot-7', p_ban_type => 'shadow').  The
    row it inserts has NULL in the other scopes, the reason and the
    expiry. *)
Definition shadow_banned_db : db :=
  fst (ban_user (Some "admin-1") 50 None None (Some "bot-7") shadow None None
                (gate_db [])).

Definition session_shadow_ban : Ban.t :=
  Ban.mk 1 None None (Some "bot-7") shadow None (Some "admin-1") 50 None true.

(** Ban rows with every column filled, expiring at 1000000. *)
Definition filled_ban (id : Z) (k : ban_kind) (banned_at : Z) : Ban.t :=
  Ban.mk id (Some "user-9") (Some "10.0.0.9") (Some "bot-9") k
         (Some "spam") (Some "admin-1") banned_at (Some 1000000) true.

(** An identity registered under the key 'fa_key' ([h] is the hash
    function), and a filled ban on its id as AI session. *)
Definition keyed_db (h : string -> string) : db :=
  mkdb [] 1 [mod_profile]
       [Ban.mk 1 (Some "user-9") (Some "10.0.0.9") (Some "ident-1") full
               (Some "spam") (Some "admin-1") 50 (Some 1000000) true]
       2 seed_filters
       [Identity.mk "ident-1" "fa_key" (h "fa_key") "Nova" None None 0
                    (Some false) 10 None None]
       [] 1 [] no_settings [] 1.

(** Post 1 with one upvote by 'user-1', aggregate 1. *)
Definition voted_db : db :=
  mkdb [Post.mk 1 (Some "Hello") "a first post for everyone" None "Guest" human
                None (Some 1) approved None None 100 100 None None 1]
       2 [] [] 1 [] [] [] 1 [] no_settings
       [Vote.mk 1 "user-1" 1 1 150] 2.

(** Settings minHours = 2, postsThreshold = 3, viewsThreshold = 20,
    probability = 1.0, dailyCap = 10 (per persona: 3 a day, 4 hours of
    cooldown); the metrics rows as the migration initialises them, an
    empty ledger; then three guest posts through human_submit_post at
    1000, 2000 and 3000. *)
Definition trigger_settings : Settings.t :=
  Settings.mk (Some "true") (Some (2 # 1)) (Some 3) (Some 20) (Some (1 # 1))
              (Some 10) (Some 3) (Some (4 # 1)) None.

Definition trigger_base_db : db :=
  mkdb [] 1 [mod_profile] [] 1 seed_filters [] [] 1
       [Metric.mk "page_views" 0 0; Metric.mk "page_views_since_ai" 0 0;
        Metric.mk "posts_since_ai" 0 0; Metric.mk "last_ai_post_time" 0 0]
       trigger_settings [] 1.

Definition three_posts_db : db :=
  fst (human_submit_post 3000 (Some "what do you all think of this?")
         (Some "Third") None "Guest"
         (fst (human_submit_post 2000 (Some "a second thread about tools")
                 (Some "Second") None "Guest"
                 (fst (human_submit_post 1000 (Some "a first thread, welcome")
                         (Some "First") None "Guest" trigger_base_db))))).

(** The settings as the migration seeds them. *)
Definition seeded_settings : Settings.t :=
  Settings.mk (Some "true") (Some (2 # 1)) (Some 3) (Some 20) (Some (3 # 10))
              (Some 10) (Some 3) (Some (4 # 1)) None.

Definition with_settings (d : db) (s : Settings.t) : db :=
  mkdb (forum_posts d) (forum_posts_id_seq d) (profiles d) (forum_bans d)
       (forum_bans_id_seq d) (forum_word_filters d)
       (forum_ai_identities d) (forum_ai_activity d)
       (forum_ai_activity_id_seq d) (forum_metrics d) s
       (forum_votes d) (forum_votes_id_seq d).

(** The three guest posts under the seeded settings. *)
Definition seeded_db : db := with_settings three_posts_db seeded_settings.

(** The double next above 0.3, 0.30000000000000004. *)
Definition draw_above_chance : Q := 5404319552844596 # 18014398509481984.

Definition with_ledger (d : db) (ledger : list Activity.t) : db :=
  mkdb (forum_posts d) (forum_posts_id_seq d) (profiles d) (forum_bans d)
       (forum_bans_id_seq d) (forum_word_filters d)
       (forum_ai_identities d) ledger
       (1 + Z.of_nat (List.length ledger)) (forum_metrics d)
       (forum_ai_settings d) (forum_votes d) (forum_votes_id_seq d).

(** Sam replied at time 500, before the three guest posts, to a post
    that has since been removed; the evaluation below runs three hours
    after that reply. *)
Definition paced_db : db :=
  with_ledger three_posts_db [Activity.mk 1 "Sam" reply None 500].

Definition three_hours_later : Z := 500 + 3 * usec_per_hour.

(** A daily cap of 2 and two replies inside the window. *)
Definition capped_db : db :=
  with_settings
    (with_ledger three_posts_db
       [Activity.mk 1 "Sam" reply (Some 1) 3100;
        Activity.mk 2 "Zen" post (Some 2) 3200])
    (Settings.mk (Some "true") (Some (2 # 1)) (Some 3) (Some 20) (Some (1 # 1))
                 (Some 2) (Some 3) (Some (4 # 1)) None).

(** A reply by a logged-in member, with a title and the optional columns
    filled in by the page, approved by a moderator: a row without a NULL
    column.  The view counter since the last AI post stands at 25. *)
Definition member_reply : Post.t :=
  Post.mk 2 (Some "Re: Hello") "what do the models here make of it?"
          (Some "user-1") "Ann" human (Some 1) (Some 1) approved
          (Some "mod-1") (Some 150) 120 150 (Some "none") (Some "web") 0.

Definition answered_db : db :=
  mkdb [root_post approved; member_reply] 3 [mod_profile] [] 1 seed_filters
       [] [] 1
       [Metric.mk "page_views" 40 0; Metric.mk "page_views_since_ai" 25 0;
        Metric.mk "posts_since_ai" 0 0; Metric.mk "last_ai_post_time" 0 0]
       trigger_settings [] 1.

(** A text service that always answers the same sentence. *)
Definition fixed_service (prompt : string) : option string :=
  Some "  I would look at the data before deciding anything.  ".

(** * Properties *)

(** ** The row triggers of forum_posts *)

Section Observers.

Context {A : Type} (f : Post.t -> A) (now : timestamptz).

(** [f] reads columns that neither trigger writes. *)
Hypothesis f_timestamp : forall r, f (with_updated_at r now) = f r.
Hypothesis f_promote : forall r, f (promote r) = f r.

Lemma after_triggers_observe (fired : list (Post.t * Post.t)) :
  forall tbl,
    map f (fold_left (promote_orphans_on_delete now) fired tbl) = map f tbl.
Proof.
  induction fired as [|[OLD NEW] fired IH]; intros tbl; simpl; [reflexivity|].
  rewrite IH. unfold handle_parent_deletion.
  destruct (post_status_eqb (Post.status NEW) deleted); simpl; [|reflexivity].
  destruct (negb _); [|reflexivity].
  rewrite map_map. apply map_ext. intros r.
  destruct (id_is _ _); [|reflexivity].
  unfold update_forum_post_timestamp. now rewrite f_timestamp, f_promote.
Qed.

Lemma update_forum_posts_observe where_ set_ tbl :
  map f (update_forum_posts now where_ set_ tbl)
  = map (fun r => if where_ r then f (set_ r) else f r) tbl.
Proof.
  unfold update_forum_posts. rewrite after_triggers_observe, map_map.
  apply map_ext. intros r. destruct (where_ r); [|reflexivity].
  apply f_timestamp.
Qed.

End Observers.

Lemma after_triggers_same_status now (fired : list (Post.t * Post.t)) :
  Forall (fun x => Post.status (snd x) = Post.status (fst x)) fired ->
  forall tbl, fold_left (promote_orphans_on_delete now) fired tbl = tbl.
Proof.
  induction 1 as [|[OLD NEW] fired Hx _ IH]; intros tbl; simpl; [reflexivity|].
  simpl in Hx. rewrite IH. unfold handle_parent_deletion. rewrite Hx.
  now destruct (post_status_eqb (Post.status OLD) deleted).
Qed.

Lemma promote_children_idem now p tbl :
  promote_children now p (promote_children now p tbl) = promote_children now p tbl.
Proof.
  unfold promote_children. rewrite map_map. apply map_ext. intros r.
  destruct (id_is (Post.parent_id r) (Some p)) eqn:E; [reflexivity | now rewrite E].
Qed.

(** The AFTER triggers fired for rewritten rows of one id [p], all now
    'deleted': the children are promoted as soon as one of the rows was
    not deleted before. *)
Lemma after_triggers_delete now p (fired : list (Post.t * Post.t)) :
  Forall (fun x => Post.id (fst x) = p /\ Post.status (snd x) = deleted) fired ->
  forall tbl,
    fold_left (promote_orphans_on_delete now) fired tbl
    = if existsb (fun x => negb (post_status_eqb (Post.status (fst x)) deleted)) fired
      then promote_children now p tbl else tbl.
Proof.
  induction 1 as [|[OLD NEW] fired [Hid Hst] _ IH]; intros tbl; simpl; [reflexivity|].
  simpl in Hid, Hst. rewrite IH. unfold handle_parent_deletion.
  rewrite Hst, Hid. simpl.
  destruct (post_status_eqb (Post.status OLD) deleted); simpl; [reflexivity|].
  fold (promote_children now p tbl).
  destruct (existsb _ fired); [apply promote_children_idem | reflexivity].
Qed.

Lemma action_is_other (a b : string) : a <> b -> action_is (Some a) b = false.
Proof. intros H. unfold action_is. simpl. now apply String.eqb_neq in H as ->. Qed.

Lemma id_is_Some (a b : Z) : id_is (Some a) (Some b) = Z.eqb a b.
Proof. unfold id_is. simpl. now destruct (Z.eqb a b). Qed.

Lemma existsb_filter_map {A B : Type} (w : A -> bool) (g : B -> bool)
    (h : A -> B) (l : list A) :
  existsb g (map h (filter w l)) = existsb (fun r => w r && g (h r)) l.
Proof.
  induction l as [|x l IH]; simpl; [reflexivity|].
  destruct (w x); simpl; now rewrite IH.
Qed.

(** ** C3: the status written by moderate_forum_post *)

(** C3 (counterexample).  The post of id 1 is in status deleted; a
    moderator's 'approve' moves it to approved, a change that is not among
    pending->approved, pending->rejected and any->deleted. *)
Lemma moderate_revives_deleted_post :
  map Post.status (forum_posts (thread_db deleted))
  = [deleted; approved; approved]
  /\ map Post.status
       (forum_posts
          (fst (moderate_forum_post (Some "mod-1") 500 (Some 1)
                                    (Some "approve") (thread_db deleted))))
     = [approved; approved; approved].
Proof. split; reflexivity. Qed.

(** C3 (amended).  A call of moderate_forum_post keeps every row's id
    and writes a status only on the row named by p_post_id, and only for
    a privileged caller; the status written is fixed by the action alone
    (approve: approved, reject: rejected, delete: deleted), whatever the
    row's current status, and any other action keeps the current one.  A
    call by a caller who is not privileged answers an error and changes
    nothing: the state after it is the state before it. *)
Theorem moderate_forum_post_status :
  forall uid now p_post_id p_action d,
    map (fun r => (Post.id r, Post.status r))
        (forum_posts (fst (moderate_forum_post uid now p_post_id p_action d)))
    = map (fun r =>
             (Post.id r,
              if privileged uid d && id_is (Some (Post.id r)) p_post_id
              then moderated_status p_action r
              else Post.status r))
          (forum_posts d)
    /\ (forall r, moderated_status (Some "approve") r = approved
                  /\ moderated_status (Some "reject") r = rejected
                  /\ moderated_status (Some "delete") r = deleted)
    /\ (forall r, action_is p_action "approve" = false ->
                  action_is p_action "reject" = false ->
                  action_is p_action "delete" = false ->
                  moderated_status p_action r = Post.status r)
    /\ (privileged uid d = false ->
        fst (moderate_forum_post uid now p_post_id p_action d) = d
        /\ exists msg,
             snd (moderate_forum_post uid now p_post_id p_action d)
             = ModError msg).
Proof.
  intros uid now pid act d. split; [|split; [|split]].
  - unfold moderate_forum_post, privileged.
    destruct uid as [u|]; simpl.
    + destruct (COALESCE (select_is_mod u d) false); simpl.
      * rewrite (update_forum_posts_observe
                   (fun r => (Post.id r, Post.status r))); try reflexivity.
        apply map_ext. intros r. now destruct (id_is _ _).
      * apply map_ext. reflexivity.
    + apply map_ext. reflexivity.
  - intros r. repeat split.
  - intros r H1 H2 H3. unfold moderated_status. now rewrite H1, H2, H3.
  - unfold moderate_forum_post, privileged.
    destruct uid as [u|]; [|intros _; split; [reflexivity | now eexists]].
    intros ->. simpl. split; [reflexivity | now eexists].
Qed.

(** A member who is not a moderator, and a caller without login, on the
    thread whose posts are approved: the call is refused and the state is
    the one before it. *)
Lemma moderate_forum_post_refused_callers :
  moderate_forum_post (Some "user-1") 500 (Some 1) (Some "delete")
                      (thread_db approved)
  = (thread_db approved, ModError "Moderator access required")
  /\ moderate_forum_post None 500 (Some 1) (Some "delete") (thread_db approved)
     = (thread_db approved, ModError "Authentication required").
Proof. split; reflexivity. Qed.

(** ** C10: an unrecognized action *)

(** C10.  For a privileged caller and an action string other than
    'approve', 'reject' and 'delete', moderate_forum_post returns
    success with the action echoed, and the table changes only in the row
    named by p_post_id: its status is kept, moderated_by becomes the
    caller and moderated_at the call time (updated_at follows through the
    BEFORE trigger). *)
Theorem moderate_unrecognized_action :
  forall u now p_post_id a d,
    privileged (Some u) d = true ->
    a <> "approve" -> a <> "reject" -> a <> "delete" ->
    moderate_forum_post (Some u) now p_post_id (Some a) d
    = (set_forum_posts d
         (map (fun r =>
                 if id_is (Some (Post.id r)) p_post_id
                 then with_updated_at
                        (with_moderation r (Post.status r) (Some u) (Some now))
                        now
                 else r)
              (forum_posts d)),
       ModSuccess (Some a)).
Proof.
  intros u now pid a d Hp Ha Hr Hd.
  unfold moderate_forum_post. simpl in Hp. rewrite Hp. simpl.
  do 2 f_equal. unfold update_forum_posts.
  assert (Hs : forall r, moderated_status (Some a) r = Post.status r).
  { intros r. unfold moderated_status.
    now rewrite !action_is_other by assumption. }
  rewrite after_triggers_same_status.
  - apply map_ext. intros r. destruct (id_is _ _); [|reflexivity].
    unfold update_forum_post_timestamp. now rewrite Hs.
  - apply Forall_forall. intros [OLD NEW] Hin.
    apply in_map_iff in Hin as [r [Heq _]]. inversion Heq; subst. simpl.
    apply Hs.
Qed.

Lemma moderate_unrecognized_action_witness :
  privileged (Some "mod-1") (thread_db pending) = true
  /\ map (fun r => (Post.status r, Post.moderated_by r, Post.moderated_at r))
         (forum_posts
            (fst (moderate_forum_post (Some "mod-1") 500 (Some 1)
                                      (Some "archive") (thread_db pending))))
     = [(pending, Some "mod-1", Some 500);
        (approved, None, None); (approved, None, None)]
  /\ snd (moderate_forum_post (Some "mod-1") 500 (Some 1)
                              (Some "archive") (thread_db pending))
     = ModSuccess (Some "archive").
Proof.
  split; [reflexivity|].
  rewrite (moderate_unrecognized_action "mod-1" 500 (Some 1) "archive"
             (thread_db pending)).
  - split; reflexivity.
  - reflexivity.
  - discriminate.
  - discriminate.
  - discriminate.
Defined.

(** ** C4: promotion of the direct children on delete *)

Lemma id_is_true (c : option Z) (p : Z) : id_is c (Some p) = true <-> c = Some p.
Proof.
  destruct c as [z|]; unfold id_is; simpl.
  - destruct (Z.eqb_spec z p); split; intros H; try congruence.
  - split; discriminate.
Qed.

Lemma Forall2_map_same {A B : Type} (R : A -> B -> Prop) (g : A -> B) (l : list A) :
  (forall x, R x (g x)) -> Forall2 R l (map g l).
Proof. intros H. induction l; simpl; constructor; auto. Qed.

(** The table after a privileged 'delete' of a post that was not deleted
    before: the row is marked, then its direct children are promoted. *)
Lemma moderate_delete_table u now p d :
  privileged (Some u) d = true ->
  (exists r, In r (forum_posts d) /\ Post.id r = p /\ Post.status r <> deleted) ->
  forum_posts (fst (moderate_forum_post (Some u) now (Some p) (Some "delete") d))
  = promote_children now p
      (map (fun r => if Z.eqb (Post.id r) p
                     then with_updated_at
                            (with_moderation r deleted (Some u) (Some now)) now
                     else r)
           (forum_posts d)).
Proof.
  intros Hp [r0 [Hin [Hid Hst]]].
  unfold moderate_forum_post. simpl in Hp. rewrite Hp. simpl.
  unfold update_forum_posts.
  rewrite (after_triggers_delete now p).
  - rewrite existsb_filter_map.
    replace (existsb _ (forum_posts d)) with true.
    + f_equal. apply map_ext. intros r. now rewrite id_is_Some.
    + symmetry. apply existsb_exists. exists r0. split; [assumption|].
      simpl. rewrite id_is_Some, Hid, Z.eqb_refl. simpl.
      destruct (Post.status r0); try reflexivity. now contradiction Hst.
  - apply Forall_forall. intros [OLD NEW] H.
    apply in_map_iff in H as [r [Heq Hr]]. inversion Heq; subst; clear Heq.
    apply filter_In in Hr as [_ Hr]. rewrite id_is_Some in Hr.
    apply Z.eqb_eq in Hr. simpl. now split.
Qed.

(** C4.  A privileged 'delete' of a post [p] that is not yet deleted
    leaves the table row for row as follows.  Ids are kept and [p] is now
    deleted.  Every direct child (parent_id = p) has become a root:
    parent_id NULL, thread_id its own id, and a title, its old one or,
    when it had none, '[Thread] ' followed by the first 50 characters of
    its content and '...'.  Every other row except [p] itself is
    untouched, so the children of the children keep their parent and
    thread.  No row names [p] as its parent any more. *)
Theorem delete_promotes_direct_children :
  forall u now p d,
    privileged (Some u) d = true ->
    (exists r, In r (forum_posts d) /\ Post.id r = p /\ Post.status r <> deleted) ->
    Forall2 (fun r r' =>
               Post.id r' = Post.id r
               /\ (Post.id r = p -> Post.status r' = deleted)
               /\ (Post.parent_id r = Some p ->
                   Post.parent_id r' = None
                   /\ Post.thread_id r' = Some (Post.id r)
                   /\ Post.title r' = Some (promoted_title r)
                   /\ Post.content r' = Post.content r)
               /\ (Post.parent_id r <> Some p -> Post.id r <> p -> r' = r))
            (forum_posts d)
            (forum_posts
               (fst (moderate_forum_post (Some u) now (Some p) (Some "delete") d)))
    /\ (forall r',
          In r' (forum_posts
                   (fst (moderate_forum_post (Some u) now (Some p)
                                             (Some "delete") d))) ->
          Post.parent_id r' <> Some p).
Proof.
  intros u now p d Hp Hex.
  rewrite (moderate_delete_table u now p d Hp Hex).
  unfold promote_children. rewrite map_map. split.
  - apply Forall2_map_same. intros r.
    destruct (Z.eqb_spec (Post.id r) p) as [Hid|Hid]; simpl;
      (destruct (id_is (Post.parent_id r) (Some p)) eqn:Hpar;
       [ apply id_is_true in Hpar
       | assert (Post.parent_id r <> Some p)
           by (intros C; apply id_is_true in C; congruence) ]);
      simpl; repeat split; intros; try congruence; try contradiction.
    + unfold promoted_title. now destruct (Post.title r).
    + unfold promoted_title. now destruct (Post.title r).
  - intros r' Hin. apply in_map_iff in Hin as [r [Heq _]]. subst r'.
    match goal with
    | |- context [id_is (Post.parent_id ?x) (Some p)] =>
        destruct (id_is (Post.parent_id x) (Some p)) eqn:Hpar
    end.
    + simpl. discriminate.
    + intros C. apply id_is_true in C. congruence.
Qed.

Lemma delete_promotes_direct_children_witness :
  privileged (Some "mod-1") (thread_db approved) = true
  /\ (forall r',
        In r' (forum_posts
                 (fst (moderate_forum_post (Some "mod-1") 500 (Some 1)
                                           (Some "delete") (thread_db approved)))) ->
        Post.parent_id r' <> Some 1).
Proof.
  split; [reflexivity|].
  apply (delete_promotes_direct_children "mod-1" 500 1 (thread_db approved)).
  - reflexivity.
  - exists (root_post approved). split; [left; reflexivity|].
    split; [reflexivity | discriminate].
Defined.

(** ** C9: which ban row the lookup reports *)

Lemma find_first {A : Type} (f : A -> bool) (before after : list A) (b : A) :
  (forall x, In x before -> f x = false) -> f b = true ->
  find f (before ++ b :: after)%list = Some b.
Proof.
  intros Hb Hf. induction before as [|x before IH]; simpl.
  - now rewrite Hf.
  - rewrite (Hb x (or_introl eq_refl)). apply IH.
    intros y Hy. apply Hb. now right.
Qed.

(** C9 (counterexample).  Two active, unexpired ban rows match the
    session 'bot-9': a full ban created at 50 and a shadow ban created at
    60.  The lookup reports the full one, the older of the two. *)
Lemma check_ban_status_reports_older_row :
  ban_matches 100 None None (Some "bot-9") (filled_ban 1 full 50) = true
  /\ ban_matches 100 None None (Some "bot-9") (filled_ban 2 shadow 60) = true
  /\ Ban.banned_at (filled_ban 1 full 50) < Ban.banned_at (filled_ban 2 shadow 60)
  /\ check_ban_status 100 None None (Some "bot-9")
       (gate_db [filled_ban 1 full 50; filled_ban 2 shadow 60])
     = Banned full (Some "spam") (Some 1000000).
Proof. repeat split. Qed.

(** C9 (amended).  The lookup reports the first row in scan order that is
    active, unexpired and matches a supplied identifier, whatever the
    creation times, with that row's kind, reason and expiry, when none of
    the row's columns is NULL. *)
Theorem check_ban_status_first_match :
  forall now p_user_id p_ip_address p_ai_session_id d before b after,
    forum_bans d = (before ++ b :: after)%list ->
    (forall x, In x before ->
               ban_matches now p_user_id p_ip_address p_ai_session_id x = false) ->
    ban_matches now p_user_id p_ip_address p_ai_session_id b = true ->
    ban_is_not_null (Some b) = true ->
    check_ban_status now p_user_id p_ip_address p_ai_session_id d
    = Banned (Ban.ban_type b) (Ban.reason b) (Ban.expires_at b).
Proof.
  intros now u ip s d before b after Hd Hbefore Hb Hnn.
  unfold check_ban_status, select_ban.
  rewrite Hd, (find_first _ before after b Hbefore Hb), Hnn. reflexivity.
Qed.

Lemma check_ban_status_first_match_witness :
  check_ban_status 100 None None (Some "bot-9")
    (gate_db [session_shadow_ban; filled_ban 2 shadow 60; filled_ban 3 full 70])
  = Banned shadow (Some "spam") (Some 1000000).
Proof.
  apply (check_ban_status_first_match 100 None None (Some "bot-9")
           (gate_db [session_shadow_ban; filled_ban 2 shadow 60; filled_ban 3 full 70])
           [session_shadow_ban] (filled_ban 2 shadow 60) [filled_ban 3 full 70]).
  - reflexivity.
  - intros x [<-|[]]. reflexivity.
  - reflexivity.
  - reflexivity.
Defined.

(** ** C5: a shadow-banned session *)

(** What ai_submit_post does once the lookup reports a ban: nothing is
    written, and a reported shadow ban is answered with the fabricated
    success. *)
Lemma ai_submit_post_reported_ban
    now p_content p_title p_parent_id p_author_name p_ai_model p_ai_session_id d
    k why exp :
  check_ban_status now None None p_ai_session_id d = Banned k why exp ->
  ai_submit_post now p_content p_title p_parent_id p_author_name
                 p_ai_model p_ai_session_id d
  = (d, match k with
        | shadow => SubmitSuccess 0 pending
        | _ => SubmitError "You are not allowed to post."
        end).
Proof. intros H. unfold ai_submit_post. rewrite H. now destruct k. Qed.

(** C5 (the code at the failing input).  The admin has shadow-banned
    the session 'bot-7' through ban_user; the ban is active and
    permanent.  The row matches the lookup's WHERE clause, but it has NULL
    columns, so [v_ban IS NOT NULL] is false and the lookup answers "not
    banned": the session's submission is stored as post 1. *)
Lemma ai_submit_post_stores_shadow_banned_post :
  forum_bans shadow_banned_db = [session_shadow_ban]
  /\ ban_matches 100 None None (Some "bot-7") session_shadow_ban = true
  /\ check_ban_status 100 None None (Some "bot-7") shadow_banned_db = NotBanned
  /\ snd (ai_submit_post 100 (Some "this text is long enough") None None
                         "Bot" None (Some "bot-7") shadow_banned_db)
     = SubmitSuccess 1 pending
  /\ map (fun r => (Post.id r, Post.content r, Post.ai_session_id r))
         (forum_posts
            (fst (ai_submit_post 100 (Some "this text is long enough") None None
                                 "Bot" None (Some "bot-7") shadow_banned_db)))
     = [(1, "this text is long enough", Some "bot-7")].
Proof. repeat split. Qed.

(** ** C2: which submit functions consult the gate *)

(** C2 (the code at the failing input).  With the seeded filters the
    gate blocks the text ('kys' is a block word), yet human_submit_post
    stores it, approved: the function calls neither check_ban_status nor
    check_content_filter. *)
Lemma human_submit_post_stores_blocked_text :
  passed (check_content_filter (Some " please kys right now") (gate_db [])) = false
  /\ snd (human_submit_post 100 (Some "please kys right now") None None
                            "Guest" (gate_db []))
     = SubmitSuccess 1 approved
  /\ map (fun r => (Post.content r, Post.status r))
         (forum_posts
            (fst (human_submit_post 100 (Some "please kys right now") None None
                                    "Guest" (gate_db []))))
     = [("please kys right now", approved)].
Proof. repeat split. Qed.

(** The same for ai_submit_with_key: the identity's id is under a full
    ban as AI session and the text holds a block word; the post is stored
    under that session id. *)
Lemma ai_submit_with_key_stores_banned_blocked_text (h : string -> string) :
  check_ban_status 100 None None (Some "ident-1") (keyed_db h)
  = Banned full (Some "spam") (Some 1000000)
  /\ passed (check_content_filter (Some " please kys right now") (keyed_db h)) = false
  /\ snd (ai_submit_with_key h 100 (Some "fa_key")
                             (Some "please kys right now") None None (keyed_db h))
     = SubmitSuccess 1 pending
  /\ map (fun r => (Post.content r, Post.ai_session_id r))
         (forum_posts
            (fst (ai_submit_with_key h 100 (Some "fa_key")
                                     (Some "please kys right now") None None
                                     (keyed_db h))))
     = [("please kys right now", Some "ident-1")].
Proof.
  assert (E : select_identity h (Some "fa_key") (keyed_db h)
              = Some (Identity.mk "ident-1" "fa_key" (h "fa_key") "Nova"
                                  None None 0 (Some false) 10 None None)).
  { unfold select_identity, keyed_db. simpl. now rewrite String.eqb_refl. }
  unfold ai_submit_with_key. rewrite E. repeat split.
Qed.

(** Neither function reads the gate's tables: the answer and the stored
    rows are the same whatever forum_bans and forum_word_filters hold. *)
Lemma human_submit_post_ignores_gate_tables
    now p_content p_title p_parent_id p_author_name d bans filters :
  snd (human_submit_post now p_content p_title p_parent_id p_author_name
                         (with_gate_tables d bans filters))
  = snd (human_submit_post now p_content p_title p_parent_id p_author_name d)
  /\ forum_posts
       (fst (human_submit_post now p_content p_title p_parent_id p_author_name
                               (with_gate_tables d bans filters)))
     = forum_posts
         (fst (human_submit_post now p_content p_title p_parent_id
                                 p_author_name d)).
Proof.
  unfold human_submit_post.
  destruct p_content as [c|]; [|now split].
  destruct (content_too_short (Some c)); [now split|].
  unfold resolve_and_insert.
  destruct p_parent_id as [pid|]; [|now split].
  change (select_parent_thread pid (with_gate_tables d bans filters))
    with (select_parent_thread pid d).
  destruct (select_parent_thread pid d); now split.
Qed.

Lemma ai_submit_with_key_ignores_gate_tables (h : string -> string)
    now p_api_key p_content p_title p_parent_id d bans filters :
  snd (ai_submit_with_key h now p_api_key p_content p_title p_parent_id
                          (with_gate_tables d bans filters))
  = snd (ai_submit_with_key h now p_api_key p_content p_title p_parent_id d)
  /\ forum_posts
       (fst (ai_submit_with_key h now p_api_key p_content p_title p_parent_id
                                (with_gate_tables d bans filters)))
     = forum_posts
         (fst (ai_submit_with_key h now p_api_key p_content p_title
                                  p_parent_id d)).
Proof.
  unfold ai_submit_with_key.
  change (select_identity h p_api_key (with_gate_tables d bans filters))
    with (select_identity h p_api_key d).
  destruct (select_identity h p_api_key d) as [i|]; [|now split].
  destruct p_content as [c|]; [|now split].
  destruct (content_too_short (Some c)); [now split|].
  unfold resolve_and_insert.
  destruct p_parent_id as [pid|]; [|now split].
  change (select_parent_thread pid (with_gate_tables d bans filters))
    with (select_parent_thread pid d).
  destruct (select_parent_thread pid d); now split.
Qed.

(** ** C6: content shorter than 10 characters *)

Lemma content_too_short_spec (p_content : option string) :
  content_too_short p_content = true
  <-> p_content = None
      \/ exists c, p_content = Some c /\ LENGTH (TRIM c) < 10.
Proof.
  destruct p_content as [c|]; simpl.
  - rewrite Z.ltb_lt. split.
    + intros H. right. now exists c.
    + intros [H|[c' [H1 H2]]]; [discriminate | now inversion H1].
  - split; [now left | reflexivity].
Qed.

(** C6 (counterexample).  The session 'bot-9' is under a shadow ban the
    lookup reports; its submission of the five characters 'short' is
    answered with the success object, not with an error. *)
Lemma ai_submit_post_short_content_shadow_success :
  content_too_short (Some "short") = true
  /\ ai_submit_post 100 (Some "short") None None "Bot" None (Some "bot-9")
                    (gate_db [filled_ban 1 shadow 50])
     = (gate_db [filled_ban 1 shadow 50], SubmitSuccess 0 pending).
Proof. split; reflexivity. Qed.

(** C6 (amended).  When the content is NULL or has fewer than 10
    characters after TRIM, ai_submit_post, human_submit_post and
    ai_submit_with_key all leave the database as it was.  human_submit_post
    and ai_submit_with_key answer with an error; so does ai_submit_post,
    except that a session whose ban lookup reports a shadow ban receives
    the fabricated success. *)
Theorem short_content_is_never_stored :
  forall now p_content p_title p_parent_id p_author_name p_ai_model
         p_ai_session_id p_api_key (h : string -> string) d,
    content_too_short p_content = true ->
    (fst (ai_submit_post now p_content p_title p_parent_id p_author_name
                         p_ai_model p_ai_session_id d) = d
     /\ match check_ban_status now None None p_ai_session_id d with
        | Banned shadow _ _ =>
            snd (ai_submit_post now p_content p_title p_parent_id p_author_name
                                p_ai_model p_ai_session_id d)
            = SubmitSuccess 0 pending
        | _ =>
            exists msg,
              snd (ai_submit_post now p_content p_title p_parent_id p_author_name
                                  p_ai_model p_ai_session_id d)
              = SubmitError msg
        end)
    /\ human_submit_post now p_content p_title p_parent_id p_author_name d
       = (d, SubmitError "Content must be at least 10 characters")
    /\ exists msg,
         ai_submit_with_key h now p_api_key p_content p_title p_parent_id d
         = (d, SubmitError msg).
Proof.
  intros now c t par name model sess key h d Hshort. split; [|split].
  - unfold ai_submit_post.
    destruct (check_ban_status now None None sess d) as [|k why exp].
    + destruct (negb (passed _)); simpl; [split; eauto|].
      destruct c as [s|]; [rewrite Hshort|]; simpl; split; eauto.
    + destruct k; simpl; split; eauto.
  - unfold human_submit_post.
    destruct c as [s|]; [now rewrite Hshort | reflexivity].
  - unfold ai_submit_with_key.
    destruct (select_identity h key d); [|eauto].
    destruct c as [s|]; [rewrite Hshort|]; eauto.
Qed.

Lemma short_content_is_never_stored_witness :
  fst (ai_submit_post 100 (Some "   tiny    ") None None "Bot" None None
                      (gate_db [])) = gate_db []
  /\ human_submit_post 100 (Some "   tiny    ") None None "Bot" (gate_db [])
     = (gate_db [], SubmitError "Content must be at least 10 characters").
Proof.
  destruct (short_content_is_never_stored 100 (Some "   tiny    ") None None
              "Bot" None None None (fun k => k) (gate_db []) eq_refl)
    as [[H1 _] [H2 _]].
  split; assumption.
Defined.

(** create_forum_post, the authenticated path, has no length test: a
    two-character body is stored. *)
Lemma create_forum_post_stores_short_content :
  content_too_short (Some "hi") = true
  /\ map (fun r => (Post.content r, Post.status r))
         (forum_posts
            (fst (create_forum_post (Some "user-1") "Ann" 100 None "hi" None
                                    human None None (gate_db []))))
     = [("hi", approved)].
Proof. split; reflexivity. Qed.

(** ** C8: the vote aggregate *)

Lemma vote_sum_cons (x : Vote.t) (l : list Vote.t) (p : Z) :
  vote_sum (x :: l) p
  = (if Z.eqb (Vote.post_id x) p then Vote.vote_type x else 0) + vote_sum l p.
Proof. unfold vote_sum. simpl. now destruct (Z.eqb (Vote.post_id x) p). Qed.

Lemma vote_sum_insert (l : list Vote.t) (x : Vote.t) (p : Z) :
  vote_sum (l ++ [x]) p = vote_sum l p + total_delta [TgInsert x] p.
Proof.
  induction l as [|y l IH].
  - rewrite app_nil_l, vote_sum_cons. unfold vote_sum. simpl. lia.
  - rewrite <- app_comm_cons, !vote_sum_cons, IH. lia.
Qed.

Lemma vote_sum_delete (g : Vote.t -> bool) (l : list Vote.t) (p : Z) :
  vote_sum (filter (fun r => negb (g r)) l) p
  = vote_sum l p + total_delta (map TgDelete (filter g l)) p.
Proof.
  induction l as [|y l IH]; [reflexivity|].
  simpl. rewrite vote_sum_cons.
  destruct (g y); simpl; [|rewrite vote_sum_cons]; rewrite IH;
    destruct (Z.eqb (Vote.post_id y) p); lia.
Qed.

Lemma vote_sum_update (g : Vote.t -> bool) (rw : Vote.t -> Vote.t)
    (l : list Vote.t) (p : Z) :
  (forall r, Vote.post_id (rw r) = Vote.post_id r) ->
  vote_sum (map (fun r => if g r then rw r else r) l) p
  = vote_sum l p
    + total_delta (map (fun OLD => TgUpdate OLD (rw OLD)) (filter g l)) p.
Proof.
  intros Hrw. induction l as [|y l IH]; [reflexivity|].
  simpl. rewrite !vote_sum_cons.
  destruct (g y); simpl; rewrite IH; [rewrite Hrw|];
    destruct (Z.eqb (Vote.post_id y) p); lia.
Qed.

(** One firing of update_post_vote_score, seen on (id, vote_score). *)
Lemma update_post_vote_score_observe now ev posts :
  map (fun r => (Post.id r, Post.vote_score r))
      (update_post_vote_score now ev posts)
  = map (fun r => (Post.id r,
                   Post.vote_score r
                   + (if Z.eqb (Post.id r) (event_post ev)
                      then event_delta ev else 0)))
        posts.
Proof.
  destruct ev as [NEW|OLD|OLD NEW]; simpl;
    rewrite (update_forum_posts_observe
               (fun r => (Post.id r, Post.vote_score r)));
    try reflexivity;
    apply map_ext; intros r; destruct (Z.eqb _ _); simpl; f_equal; lia.
Qed.

Lemma fire_vote_triggers_observe now evs :
  forall posts,
    map (fun r => (Post.id r, Post.vote_score r))
        (fire_vote_triggers now evs posts)
    = map (fun r => (Post.id r, Post.vote_score r + total_delta evs (Post.id r)))
          posts.
Proof.
  unfold fire_vote_triggers.
  induction evs as [|ev evs IH]; intros posts; simpl.
  - apply map_ext. intros r. f_equal. lia.
  - rewrite IH.
    transitivity
      (map (fun x => (fst x, snd x + total_delta evs (fst x)))
           (map (fun r => (Post.id r, Post.vote_score r))
                (update_post_vote_score now ev posts)));
      [now rewrite map_map|].
    rewrite update_post_vote_score_observe, map_map.
    apply map_ext. intros r. simpl. f_equal.
    rewrite (Z.eqb_sym (event_post ev)). lia.
Qed.

(** What a toggle_vote call does to the two tables: nothing, or a change
    of the vote rows together with the trigger firings that account for
    it. *)
Lemma toggle_vote_effect uid now p_post_id p_vote_type d :
  fst (toggle_vote uid now p_post_id p_vote_type d) = d
  \/ exists evs votes' seq',
       fst (toggle_vote uid now p_post_id p_vote_type d)
       = set_forum_posts (set_forum_votes d votes' seq')
                         (fire_vote_triggers now evs (forum_posts d))
       /\ forall p, vote_sum votes' p
                    = vote_sum (forum_votes d) p + total_delta evs p.
Proof.
  unfold toggle_vote.
  destruct uid as [u|]; [|now left].
  destruct p_post_id as [pid|]; [|now left].
  destruct (negb (existsb _ (forum_posts d))); [now left|].
  destruct (option_map Vote.vote_type (find (vote_of u pid) (forum_votes d)))
    as [e|].
  - destruct (is_true (cmp Z.eqb (Some e) p_vote_type)).
    + right. eexists _, _, _. split; [reflexivity|].
      intros p. apply vote_sum_delete.
    + destruct (valid_vote_type p_vote_type) as [v|]; [|now left].
      right. eexists _, _, _. split; [reflexivity|].
      intros p.
      apply (vote_sum_update (vote_of u pid)
               (fun OLD => Vote.mk (Vote.id OLD) (Vote.user_id OLD)
                                   (Vote.post_id OLD) v now)).
      reflexivity.
  - destruct (valid_vote_type p_vote_type) as [v|].
    + right. eexists [TgInsert _], _, _. split; [reflexivity|].
      intros p. apply vote_sum_insert.
    + right. exists [], (forum_votes d), (forum_votes_id_seq d + 1).
      split; [reflexivity|]. intros p. simpl. lia.
Qed.

Lemma toggle_vote_consistent uid now p_post_id p_vote_type d :
  votes_consistent d ->
  votes_consistent (fst (toggle_vote uid now p_post_id p_vote_type d)).
Proof.
  intros Hc.
  destruct (toggle_vote_effect uid now p_post_id p_vote_type d)
    as [-> | [evs [votes' [seq' [-> Hsum]]]]]; [assumption|].
  intros r' Hin. simpl in *.
  apply (in_map (fun r => (Post.id r, Post.vote_score r))) in Hin.
  rewrite fire_vote_triggers_observe in Hin.
  apply in_map_iff in Hin as [r [Heq Hr]].
  inversion Heq as [[Hid Hscore]].
  rewrite Hsum, <- (Hc r Hr). reflexivity.
Qed.

Lemma vote_of_true u pid x :
  vote_of u pid x = true <-> Vote.user_id x = u /\ Vote.post_id x = pid.
Proof.
  unfold vote_of. rewrite andb_true_iff, String.eqb_eq, Z.eqb_eq. reflexivity.
Qed.

(** Under the UNIQUE constraint the caller has at most one row on the
    post. *)
Lemma unique_vote_row u pid votes :
  votes_unique votes ->
  filter (vote_of u pid) votes
  = match find (vote_of u pid) votes with Some x => [x] | None => [] end.
Proof.
  unfold votes_unique. induction votes as [|y l IH]; intros Hnd; [reflexivity|].
  simpl in *. inversion Hnd as [|k ks Hnotin Hnd']; subst.
  destruct (vote_of u pid y) eqn:Hy.
  - f_equal. rewrite (IH Hnd').
    destruct (find (vote_of u pid) l) as [z|] eqn:Hz; [|reflexivity].
    exfalso. apply Hnotin. apply find_some in Hz as [Hin Hvz].
    apply vote_of_true in Hy as [Hu Hp]. apply vote_of_true in Hvz as [Hu' Hp'].
    apply in_map_iff. exists z. split; [|assumption]. congruence.
  - apply (IH Hnd').
Qed.

Lemma valid_vote_type_sign v :
  v = 1 \/ v = -1 -> valid_vote_type (Some v) = Some v.
Proof. intros [->| ->]; reflexivity. Qed.

(** One toggle_vote by an authenticated caller on an existing post, under
    the table constraints: the rows left and the aggregate of the post. *)
Lemma toggle_vote_step u now pid v d :
  votes_unique (forum_votes d) ->
  votes_checked (forum_votes d) ->
  v = 1 \/ v = -1 ->
  existsb (fun r => Z.eqb (Post.id r) pid) (forum_posts d) = true ->
  forum_votes (fst (toggle_vote (Some u) now (Some pid) (Some v) d))
  = toggled_votes u now pid v d
  /\ map (fun r => (Post.id r, Post.vote_score r))
         (forum_posts (fst (toggle_vote (Some u) now (Some pid) (Some v) d)))
     = map (fun r =>
              (Post.id r,
               if Z.eqb (Post.id r) pid
               then Post.vote_score r
                    + toggle_delta (find (vote_of u pid) (forum_votes d)) v
               else Post.vote_score r))
           (forum_posts d).
Proof.
  intros Hu Hck Hv Hex.
  unfold toggle_vote, toggled_votes. rewrite Hex. simpl negb. cbv iota.
  pose proof (unique_vote_row u pid (forum_votes d) Hu) as Hrow.
  rewrite (valid_vote_type_sign v Hv).
  destruct (find (vote_of u pid) (forum_votes d)) as [x|] eqn:Hfind;
    cbn [fst forum_posts forum_votes set_forum_posts set_forum_votes option_map].
  - apply find_some in Hfind as [Hin Hx].
    apply vote_of_true in Hx as [_ Hxp].
    assert (Hxv : Vote.vote_type x = 1 \/ Vote.vote_type x = -1).
    { unfold votes_checked in Hck. rewrite Forall_forall in Hck. now apply Hck. }
    replace (is_true (cmp Z.eqb (Some (Vote.vote_type x)) (Some v)))
      with (Z.eqb (Vote.vote_type x) v)
      by (simpl; now destruct (Z.eqb (Vote.vote_type x) v)).
    unfold toggle_delta.
    destruct (Z.eqb_spec (Vote.vote_type x) v) as [He|He];
      destruct Hv as [Hv|Hv]; subst v; simpl;
      (split; [reflexivity|]); rewrite Hrow;
      rewrite (fire_vote_triggers_observe now); apply map_ext; intros r;
      f_equal; simpl; rewrite Hxp, (Z.eqb_sym pid);
      destruct (Z.eqb (Post.id r) pid); lia.
  - split; [reflexivity|].
    rewrite update_post_vote_score_observe. apply map_ext. intros r.
    f_equal. simpl. destruct (Z.eqb (Post.id r) pid); lia.
Qed.

Lemma NoDup_snoc {A : Type} (l : list A) (x : A) :
  NoDup l -> ~ In x l -> NoDup (l ++ [x]).
Proof.
  induction l as [|y l IH]; intros Hnd Hx; simpl.
  - constructor; [intros [] | constructor].
  - inversion Hnd; subst. constructor.
    + rewrite in_app_iff. intros [H|[H|[]]]; [contradiction|].
      subst. apply Hx. now left.
    + apply IH; [assumption|]. intros H. apply Hx. now right.
Qed.

Lemma NoDup_map_filter {A B : Type} (k : A -> B) (f : A -> bool) (l : list A) :
  NoDup (map k l) -> NoDup (map k (filter f l)).
Proof.
  induction l as [|y l IH]; intros Hnd; simpl; [constructor|].
  simpl in Hnd. inversion Hnd; subst.
  destruct (f y); simpl; [constructor|]; auto.
  intros H. apply in_map_iff in H as [z [Hz Hin]].
  apply filter_In in Hin as [Hin _].
  match goal with Hn : ~ In _ _ |- _ => apply Hn end.
  apply in_map_iff. now exists z.
Qed.

Lemma valid_vote_type_checked p_vote_type v :
  valid_vote_type p_vote_type = Some v -> v = 1 \/ v = -1.
Proof.
  destruct p_vote_type as [z|]; simpl; [|discriminate].
  destruct (Z.eqb_spec z 1); simpl.
  - intros H. inversion H. left. congruence.
  - destruct (Z.eqb_spec z (-1)); [|discriminate].
    intros H. inversion H. right. congruence.
Qed.

(** toggle_vote keeps the UNIQUE and CHECK constraints of forum_votes. *)
Lemma toggle_vote_keeps_constraints uid now p_post_id p_vote_type d :
  votes_unique (forum_votes d) /\ votes_checked (forum_votes d) ->
  votes_unique (forum_votes (fst (toggle_vote uid now p_post_id p_vote_type d)))
  /\ votes_checked (forum_votes (fst (toggle_vote uid now p_post_id p_vote_type d))).
Proof.
  intros [Hu Hck]. unfold toggle_vote.
  destruct uid as [u|]; [|now split].
  destruct p_post_id as [pid|]; [|now split].
  destruct (negb (existsb _ (forum_posts d))); [now split|].
  destruct (find (vote_of u pid) (forum_votes d)) as [x|] eqn:Hfind; cbn [option_map].
  - destruct (is_true (cmp Z.eqb (Some (Vote.vote_type x)) p_vote_type));
      cbn [fst forum_votes set_forum_posts set_forum_votes].
    + split.
      * now apply NoDup_map_filter.
      * apply Forall_forall. intros y Hy. apply filter_In in Hy as [Hy _].
        unfold votes_checked in Hck. rewrite Forall_forall in Hck. now apply Hck.
    + destruct (valid_vote_type p_vote_type) as [v|] eqn:Hv;
      cbn [fst forum_votes set_forum_posts set_forum_votes]; [|now split].
      apply valid_vote_type_checked in Hv. split.
      * unfold votes_unique. rewrite map_map.
        erewrite map_ext; [exact Hu|].
        intros y. now destruct (vote_of u pid y).
      * apply Forall_forall. intros y Hy.
        apply in_map_iff in Hy as [z [Hz Hin]].
        unfold votes_checked in Hck. rewrite Forall_forall in Hck.
        destruct (vote_of u pid z); subst y; [exact Hv | now apply Hck].
  - destruct (valid_vote_type p_vote_type) as [v|] eqn:Hv;
      cbn [fst forum_votes set_forum_posts set_forum_votes]; [|now split].
    apply valid_vote_type_checked in Hv. split.
    + unfold votes_unique. rewrite map_app. simpl.
      apply NoDup_snoc; [exact Hu|].
      intros H. apply in_map_iff in H as [z [Hz Hin]].
      pose proof (find_none _ _ Hfind z Hin) as Hno.
      assert (vote_of u pid z = true) by (apply vote_of_true; split; congruence).
      congruence.
    + apply Forall_app. split; [exact Hck|]. constructor; [exact Hv|constructor].
Qed.

(** C8.  Starting from a state in which every post's vote_score equals
    the signed sum of its vote rows, that equality holds after every
    sequence of toggleVote calls, whoever the callers and whatever the
    arguments; the UNIQUE and CHECK constraints of the vote rows hold
    along the sequence as well.  Under these constraints one call by an
    authenticated caller with sign v on an existing post leaves the vote
    rows with one row appended (no previous vote), the caller's row
    removed (same sign) or that row rewritten in place (opposite sign),
    and adds to the post's aggregate v, -v or 2*v respectively, touching
    no other post's aggregate. *)
Theorem vote_aggregate_invariant :
  forall d,
    votes_consistent d ->
    votes_unique (forum_votes d) ->
    votes_checked (forum_votes d) ->
    (forall calls,
        votes_consistent (run_toggle_votes calls d)
        /\ votes_unique (forum_votes (run_toggle_votes calls d))
        /\ votes_checked (forum_votes (run_toggle_votes calls d)))
    /\ (forall u now pid v,
          v = 1 \/ v = -1 ->
          existsb (fun r => Z.eqb (Post.id r) pid) (forum_posts d) = true ->
          forum_votes (fst (toggle_vote (Some u) now (Some pid) (Some v) d))
          = toggled_votes u now pid v d
          /\ map (fun r => (Post.id r, Post.vote_score r))
                 (forum_posts
                    (fst (toggle_vote (Some u) now (Some pid) (Some v) d)))
             = map (fun r =>
                      (Post.id r,
                       if Z.eqb (Post.id r) pid
                       then Post.vote_score r
                            + toggle_delta
                                (find (vote_of u pid) (forum_votes d)) v
                       else Post.vote_score r))
                   (forum_posts d)).
Proof.
  intros d Hc Hu Hck. split.
  - intros calls. revert d Hc Hu Hck. unfold run_toggle_votes.
    induction calls as [|c calls IH]; intros d Hc Hu Hck; simpl.
    + now repeat split.
    + destruct (toggle_vote_keeps_constraints (call_uid c) (call_now c)
                  (call_post c) (call_vote c) d (conj Hu Hck)) as [Hu' Hck'].
      apply IH; [apply toggle_vote_consistent|..]; assumption.
  - intros u now pid v Hv Hex. now apply toggle_vote_step.
Qed.

(** The aggregate alone needs no constraint on the vote rows. *)
Lemma run_toggle_votes_consistent calls :
  forall d, votes_consistent d -> votes_consistent (run_toggle_votes calls d).
Proof.
  unfold run_toggle_votes.
  induction calls as [|c calls IH]; intros d Hc; simpl; [assumption|].
  apply IH. now apply toggle_vote_consistent.
Qed.

Lemma voted_db_consistent : votes_consistent voted_db.
Proof. intros r [<-|[]]. reflexivity. Qed.

Lemma vote_aggregate_invariant_witness :
  votes_consistent
    (run_toggle_votes
       [mk_call (Some "user-1") 200 (Some 1) (Some (-1));
        mk_call (Some "user-2") 210 (Some 1) (Some 1);
        mk_call (Some "user-1") 220 (Some 1) (Some (-1));
        mk_call None 230 (Some 1) (Some 1)]
       voted_db)
  /\ map (fun r => (Post.id r, Post.vote_score r))
         (forum_posts
            (fst (toggle_vote (Some "user-1") 200 (Some 1) (Some (-1)) voted_db)))
     = map (fun r =>
              (Post.id r,
               if Z.eqb (Post.id r) 1
               then Post.vote_score r
                    + toggle_delta
                        (find (vote_of "user-1" 1) (forum_votes voted_db)) (-1)
               else Post.vote_score r))
           (forum_posts voted_db).
Proof.
  assert (Hu : votes_unique (forum_votes voted_db)).
  { constructor; [intros [] | constructor]. }
  assert (Hck : votes_checked (forum_votes voted_db)).
  { constructor; [now left | constructor]. }
  destruct (vote_aggregate_invariant voted_db voted_db_consistent Hu Hck)
    as [Hseq Hstep].
  split.
  - apply Hseq.
  - apply (Hstep "user-1" 200 1 (-1)); [now right | reflexivity].
Defined.

(** ** C1: when check_ai_trigger triggers *)

Lemma find_metric_map (name : string) (g : Metric.t -> Metric.t)
    (l : list Metric.t) :
  (forall m, Metric.metric_name (g m) = Metric.metric_name m) ->
  find (fun m => String.eqb (Metric.metric_name m) name) (map g l)
  = option_map g (find (fun m => String.eqb (Metric.metric_name m) name) l).
Proof.
  intros Hg. induction l as [|m l IH]; simpl; [reflexivity|].
  rewrite Hg. now destruct (String.eqb (Metric.metric_name m) name).
Qed.

Lemma select_metric_update now name name' f d :
  select_metric name (update_metric now name' f d)
  = if String.eqb name name'
    then option_map f (select_metric name d)
    else select_metric name d.
Proof.
  unfold select_metric, update_metric. simpl.
  rewrite find_metric_map.
  - destruct (find _ (forum_metrics d)) as [m|] eqn:Hf; simpl.
    + apply find_some in Hf as [_ Hm]. apply String.eqb_eq in Hm.
      rewrite Hm. now destruct (String.eqb name name').
    + now destruct (String.eqb name name').
  - intros m. now destruct (String.eqb (Metric.metric_name m) name').
Qed.

(** The metrics check_ai_trigger computes after its two increments. *)
Lemma views_after_increment now d :
  select_metric "page_views_since_ai"
    (update_metric now "page_views_since_ai" (Z.add 1)
       (update_metric now "page_views" (Z.add 1) d))
  = option_map (Z.add 1) (select_metric "page_views_since_ai" d).
Proof. now rewrite !select_metric_update. Qed.

Lemma enabled_true (s : Settings.t) :
  COALESCE (option_map (fun v => String.eqb v "true")
                       (Settings.trigger_enabled s)) false = true
  <-> Settings.trigger_enabled s = Some "true".
Proof.
  destruct (Settings.trigger_enabled s) as [v|]; simpl.
  - rewrite String.eqb_eq. split; congruence.
  - split; discriminate.
Qed.

Lemma should_trigger_true (s : Settings.t) (m : trigger_metrics) (v_random : Q) :
  should_trigger s m v_random = true ->
  (COALESCE (Settings.min_time_between_ai_hours s) (inject_Z 2)
   <= hours_since_ai m)%Q
  /\ (COALESCE (Settings.posts_threshold s) 3 <= posts_since_ai m
      \/ exists v, views_since_ai m = Some v
                   /\ COALESCE (Settings.page_views_threshold s) 20 <= v)
  /\ (float8_to_numeric v_random
      <= COALESCE (Settings.random_chance s) (3 # 10))%Q.
Proof.
  unfold should_trigger.
  destruct (Qle_bool _ (hours_since_ai m)) eqn:Hh; [|discriminate].
  destruct (is_true _) eqn:Hg; [|discriminate].
  intros Hr. apply Qle_bool_iff in Hh, Hr. repeat split; try assumption.
  destruct (Z.geb (posts_since_ai m) _) eqn:Hp.
  - left. now apply Z.geb_le.
  - right. destruct (views_since_ai m) as [v|]; simpl in Hg; [|discriminate].
    exists v. split; [reflexivity|].
    destruct (Z.geb v _) eqn:Hv; [now apply Z.geb_le | discriminate].
Qed.

Lemma ledger_post_is_ai_post (a : Activity.t) : ledger_post a = is_ai_post a.
Proof. unfold ledger_post, is_ai_post. now destruct (Activity.action_type a). Qed.

(** The count of the daily cap is the number of post/reply entries of
    the daily window. *)
Lemma count_daily_ai_entries now d :
  count_daily_ai now d = Z.of_nat (List.length (daily_entries now d)).
Proof.
  unfold count_daily_ai, count, daily_entries. do 2 f_equal.
  apply filter_ext. intros a. rewrite Z.gtb_ltb.
  unfold is_ai_post, ledger_post. now destruct (Activity.action_type a).
Qed.

(** MAX(created_at) over the post/reply entries: absent exactly when
    there is no such entry, else the time of one of them and at least
    the time of each. *)
Lemma last_ai_time_fold (l : list Activity.t) :
  forall acc,
    match fold_left (fun acc a =>
                       if is_ai_post a
                       then match acc with
                            | None => Some (Activity.created_at a)
                            | Some m => Some (Z.max m (Activity.created_at a))
                            end
                       else acc) l acc with
    | None => acc = None /\ forall a, In a l -> is_ai_post a = false
    | Some m =>
        (forall a, In a l -> is_ai_post a = true -> Activity.created_at a <= m)
        /\ (forall m0, acc = Some m0 -> m0 <= m)
        /\ (acc = Some m
            \/ exists a, In a l /\ is_ai_post a = true
                         /\ Activity.created_at a = m)
    end.
Proof.
  induction l as [|x l IH]; intros acc; simpl.
  - destruct acc as [m|].
    + split; [intros a []|]. split; [|now left].
      intros m0 E. inversion E. lia.
    + split; [reflexivity | intros a []].
  - specialize (IH (if is_ai_post x
                    then match acc with
                         | None => Some (Activity.created_at x)
                         | Some m => Some (Z.max m (Activity.created_at x))
                         end
                    else acc)).
    destruct (fold_left _ l _) as [m|].
    + destruct IH as [Hall [Hacc Hatt]].
      destruct (is_ai_post x) eqn:Hx.
      * split; [|split].
        -- intros a [<-|Ha] Hai; [|now apply Hall].
           destruct acc as [m0|];
             [specialize (Hacc _ eq_refl); lia | specialize (Hacc _ eq_refl); lia].
        -- intros m0 ->. specialize (Hacc _ eq_refl). lia.
        -- destruct Hatt as [E|[a [Ha [Hai Em]]]].
           ++ destruct acc as [m0|].
              ** inversion E as [E'].
                 destruct (Z.max_spec m0 (Activity.created_at x)) as [[_ Hm]|[_ Hm]].
                 --- right. exists x. split; [now left|]. split; [exact Hx|].
                     congruence.
                 --- left. f_equal. congruence.
              ** inversion E. right. exists x. now repeat split; [left|..].
           ++ right. exists a. split; [now right|]. now split.
      * split; [|split].
        -- intros a [<-|Ha] Hai; [congruence | now apply Hall].
        -- exact Hacc.
        -- destruct Hatt as [E|[a [Ha [Hai Em]]]]; [now left|].
           right. exists a. split; [now right|]. now split.
    + destruct IH as [E Hall]. destruct (is_ai_post x) eqn:Hx.
      * destruct acc; discriminate.
      * split; [exact E|]. intros a [<-|Ha]; [exact Hx | now apply Hall].
Qed.

Lemma select_last_ai_time_spec (d : db) :
  match select_last_ai_time d with
  | None => forall a, In a (forum_ai_activity d) -> ledger_post a = false
  | Some m =>
      (forall a, In a (forum_ai_activity d) -> ledger_post a = true ->
                 Activity.created_at a <= m)
      /\ exists a, In a (forum_ai_activity d) /\ ledger_post a = true
                   /\ Activity.created_at a = m
  end.
Proof.
  unfold select_last_ai_time.
  pose proof (last_ai_time_fold (forum_ai_activity d) None) as H.
  destruct (fold_left _ (forum_ai_activity d) None) as [m|].
  - destruct H as [Hall [_ Hatt]]. split.
    + intros a Ha Hp. change (ledger_post a) with (is_ai_post a) in Hp.
      now apply Hall.
    + destruct Hatt as [E|[a [Ha [Hai Em]]]]; [discriminate|].
      exists a. change (ledger_post a) with (is_ai_post a). now repeat split.
  - destruct H as [_ Hall]. intros a Ha.
    change (ledger_post a) with (is_ai_post a). now apply Hall.
Qed.

(** *** The NUMERIC quotient grows with the dividend *)

Lemma hours_at_scale_mono (r a b : Z) :
  a <= b -> (hours_at_scale r a <= hours_at_scale r b)%Q.
Proof.
  intros H. unfold hours_at_scale, Qle. cbn [Qnum Qden].
  apply Z.mul_le_mono_nonneg_r; [lia|].
  apply Z.div_le_mono; [lia|].
  pose proof (Z.pow_nonneg 10 r). nia.
Qed.

Lemma hours_at_scale_nonneg (r a : Z) :
  0 <= a -> (0 <= hours_at_scale r a)%Q.
Proof.
  intros H. unfold hours_at_scale, Qle. cbn [Qnum Qden].
  rewrite Z.mul_0_l, Z.mul_1_r.
  apply Z.div_pos; [|lia].
  pose proof (Z.pow_nonneg 10 r). nia.
Qed.

Ltac scale_of :=
  unfold div_scale;
  repeat match goal with
         | |- context [Z.eqb ?a ?b] => destruct (Z.eqb_spec a b); try lia
         | |- context [Z.ltb ?a ?b] => destruct (Z.ltb_spec a b); try lia
         end;
  try reflexivity.

Lemma hours_lower_step (B B' r : Z) :
  (forall k, B <= k < B' -> div_scale k = r) ->
  B < B' ->
  (hours_nonneg B <= hours_nonneg B')%Q ->
  (forall k, B' <= k -> (hours_nonneg B' <= hours_nonneg k)%Q) ->
  forall k, B <= k -> (hours_nonneg B <= hours_nonneg k)%Q.
Proof.
  intros Hr Hlt Hstep Hup k Hk.
  destruct (Z.lt_ge_cases k B') as [Hin|Hout].
  - unfold hours_nonneg. rewrite (Hr B), (Hr k) by lia.
    now apply hours_at_scale_mono.
  - eapply Qle_trans; [exact Hstep | now apply Hup].
Qed.

Lemma hours_upper_step (B B' r : Z) :
  (forall k, B <= k < B' -> div_scale k = r) ->
  (hours_at_scale r (B' - 1) <= hours_nonneg B')%Q ->
  (forall k, 0 <= k < B -> (hours_nonneg k <= hours_nonneg B)%Q) ->
  (forall k, B <= k -> (hours_nonneg B <= hours_nonneg k)%Q) ->
  B < B' ->
  forall k, 0 <= k < B' -> (hours_nonneg k <= hours_nonneg B')%Q.
Proof.
  intros Hr Htop Hbelow Hlow Hlt k Hk.
  destruct (Z.lt_ge_cases k B) as [Hout|Hin].
  - eapply Qle_trans; [apply Hbelow; lia | apply Hlow; lia].
  - unfold hours_nonneg at 1. rewrite (Hr k) by lia.
    eapply Qle_trans; [|exact Htop]. apply hours_at_scale_mono. lia.
Qed.

Lemma hours_lower_7 k :
  3601000000000000000000 <= k ->
  (hours_nonneg 3601000000000000000000 <= hours_nonneg k)%Q.
Proof.
  intros Hk. unfold hours_nonneg.
  replace (div_scale k) with 6 by (symmetry; scale_of).
  replace (div_scale 3601000000000000000000) with 6 by reflexivity.
  now apply hours_at_scale_mono.
Qed.

Lemma hours_lower_6 k :
  360100000000000000 <= k ->
  (hours_nonneg 360100000000000000 <= hours_nonneg k)%Q.
Proof.
  apply (hours_lower_step _ 3601000000000000000000 8);
    [intros; scale_of | lia | vm_compute; discriminate | apply hours_lower_7].
Qed.

Lemma hours_lower_5 k :
  36010000000000 <= k -> (hours_nonneg 36010000000000 <= hours_nonneg k)%Q.
Proof.
  apply (hours_lower_step _ 360100000000000000 12);
    [intros; scale_of | lia | vm_compute; discriminate | apply hours_lower_6].
Qed.

Lemma hours_lower_4 k :
  3601000000 <= k -> (hours_nonneg 3601000000 <= hours_nonneg k)%Q.
Proof.
  apply (hours_lower_step _ 36010000000000 16);
    [intros; scale_of | lia | vm_compute; discriminate | apply hours_lower_5].
Qed.

Lemma hours_lower_3 k :
  360100 <= k -> (hours_nonneg 360100 <= hours_nonneg k)%Q.
Proof.
  apply (hours_lower_step _ 3601000000 20);
    [intros; scale_of | lia | vm_compute; discriminate | apply hours_lower_4].
Qed.

Lemma hours_lower_2 k : 37 <= k -> (hours_nonneg 37 <= hours_nonneg k)%Q.
Proof.
  apply (hours_lower_step _ 360100 24);
    [intros; scale_of | lia | vm_compute; discriminate | apply hours_lower_3].
Qed.

Lemma hours_lower_1 k : 1 <= k -> (hours_nonneg 1 <= hours_nonneg k)%Q.
Proof.
  apply (hours_lower_step _ 37 28);
    [intros; scale_of | lia | vm_compute; discriminate | apply hours_lower_2].
Qed.

Lemma hours_lower_0 k : 0 <= k -> (hours_nonneg 0 <= hours_nonneg k)%Q.
Proof.
  apply (hours_lower_step _ 1 20);
    [intros; scale_of | lia | vm_compute; discriminate | apply hours_lower_1].
Qed.

Lemma hours_upper_1 k : 0 <= k < 1 -> (hours_nonneg k <= hours_nonneg 1)%Q.
Proof.
  intros Hk. replace k with 0 by lia. vm_compute. discriminate.
Qed.

Lemma hours_upper_2 k : 0 <= k < 37 -> (hours_nonneg k <= hours_nonneg 37)%Q.
Proof.
  apply (hours_upper_step 1 37 28);
    [intros; scale_of | vm_compute; discriminate | apply hours_upper_1
    | apply hours_lower_1 | lia].
Qed.

Lemma hours_upper_3 k :
  0 <= k < 360100 -> (hours_nonneg k <= hours_nonneg 360100)%Q.
Proof.
  apply (hours_upper_step 37 360100 24);
    [intros; scale_of | vm_compute; discriminate | apply hours_upper_2
    | apply hours_lower_2 | lia].
Qed.

Lemma hours_upper_4 k :
  0 <= k < 3601000000 -> (hours_nonneg k <= hours_nonneg 3601000000)%Q.
Proof.
  apply (hours_upper_step 360100 3601000000 20);
    [intros; scale_of | vm_compute; discriminate | apply hours_upper_3
    | apply hours_lower_3 | lia].
Qed.

Lemma hours_upper_5 k :
  0 <= k < 36010000000000 ->
  (hours_nonneg k <= hours_nonneg 36010000000000)%Q.
Proof.
  apply (hours_upper_step 3601000000 36010000000000 16);
    [intros; scale_of | vm_compute; discriminate | apply hours_upper_4
    | apply hours_lower_4 | lia].
Qed.

Lemma hours_upper_6 k :
  0 <= k < 360100000000000000 ->
  (hours_nonneg k <= hours_nonneg 360100000000000000)%Q.
Proof.
  apply (hours_upper_step 36010000000000 360100000000000000 12);
    [intros; scale_of | vm_compute; discriminate | apply hours_upper_5
    | apply hours_lower_5 | lia].
Qed.

Lemma hours_upper_7 k :
  0 <= k < 3601000000000000000000 ->
  (hours_nonneg k <= hours_nonneg 3601000000000000000000)%Q.
Proof.
  apply (hours_upper_step 360100000000000000 3601000000000000000000 8);
    [intros; scale_of | vm_compute; discriminate | apply hours_upper_6
    | apply hours_lower_6 | lia].
Qed.

Lemma hours_mono_nonneg a b :
  0 <= a <= b -> (hours_nonneg a <= hours_nonneg b)%Q.
Proof.
  intros [Ha Hab].
  assert (Hcut : forall B,
             (forall k, 0 <= k < B -> (hours_nonneg k <= hours_nonneg B)%Q) ->
             (forall k, B <= k -> (hours_nonneg B <= hours_nonneg k)%Q) ->
             a < B <= b -> (hours_nonneg a <= hours_nonneg b)%Q).
  { intros B Hu Hl [H1 H2].
    eapply Qle_trans; [apply Hu; lia | now apply Hl]. }
  assert (Hsame : forall r, div_scale a = r -> div_scale b = r ->
                            (hours_nonneg a <= hours_nonneg b)%Q).
  { intros r Ea Eb. unfold hours_nonneg. rewrite Ea, Eb.
    now apply hours_at_scale_mono. }
  destruct (Z.lt_ge_cases a 1) as [A1|A1].
  { destruct (Z.lt_ge_cases b 1) as [B1|B1].
    - replace b with a by lia. apply Qle_refl.
    - apply (Hcut 1); [apply hours_upper_1 | apply hours_lower_1 | lia]. }
  destruct (Z.lt_ge_cases a 37) as [A2|A2].
  { destruct (Z.lt_ge_cases b 37) as [B2|B2].
    - apply (Hsame 28); scale_of.
    - apply (Hcut 37); [apply hours_upper_2 | apply hours_lower_2 | lia]. }
  destruct (Z.lt_ge_cases a 360100) as [A3|A3].
  { destruct (Z.lt_ge_cases b 360100) as [B3|B3].
    - apply (Hsame 24); scale_of.
    - apply (Hcut 360100); [apply hours_upper_3 | apply hours_lower_3 | lia]. }
  destruct (Z.lt_ge_cases a 3601000000) as [A4|A4].
  { destruct (Z.lt_ge_cases b 3601000000) as [B4|B4].
    - apply (Hsame 20); scale_of.
    - apply (Hcut 3601000000);
        [apply hours_upper_4 | apply hours_lower_4 | lia]. }
  destruct (Z.lt_ge_cases a 36010000000000) as [A5|A5].
  { destruct (Z.lt_ge_cases b 36010000000000) as [B5|B5].
    - apply (Hsame 16); scale_of.
    - apply (Hcut 36010000000000);
        [apply hours_upper_5 | apply hours_lower_5 | lia]. }
  destruct (Z.lt_ge_cases a 360100000000000000) as [A6|A6].
  { destruct (Z.lt_ge_cases b 360100000000000000) as [B6|B6].
    - apply (Hsame 12); scale_of.
    - apply (Hcut 360100000000000000);
        [apply hours_upper_6 | apply hours_lower_6 | lia]. }
  destruct (Z.lt_ge_cases a 3601000000000000000000) as [A7|A7].
  { destruct (Z.lt_ge_cases b 3601000000000000000000) as [B7|B7].
    - apply (Hsame 8); scale_of.
    - apply (Hcut 3601000000000000000000);
        [apply hours_upper_7 | apply hours_lower_7 | lia]. }
  apply (Hsame 6); scale_of.
Qed.

(** The hours the database computes never go down when more time has
    passed. *)
Lemma numeric_hours_mono (a b : Z) :
  a <= b -> (numeric_hours a <= numeric_hours b)%Q.
Proof.
  intros Hab. unfold numeric_hours.
  destruct (Z.ltb_spec a 0) as [Ha|Ha]; destruct (Z.ltb_spec b 0) as [Hb|Hb].
  - apply Qopp_le_compat. apply hours_mono_nonneg. lia.
  - apply Qle_trans with 0%Q.
    + change 0%Q with (- 0)%Q.
      apply Qopp_le_compat. unfold hours_nonneg.
      apply hours_at_scale_nonneg. lia.
    + unfold hours_nonneg. now apply hours_at_scale_nonneg.
  - lia.
  - apply hours_mono_nonneg. lia.
Qed.

(** The quotient on sample values: one hour and twenty minutes carry 20
    decimals, two hours and a hundred minutes 16, one microsecond 28; a
    hundred minutes are held as 1.6666666666666667, which passes a
    minimum of that figure although five thirds do not. *)
Lemma numeric_hours_samples :
  numeric_hours 3600000000
  = 100000000000000000000 # 100000000000000000000
  /\ numeric_hours 1200000000
     = 33333333333333333333 # 100000000000000000000
  /\ numeric_hours 7200000000 = 20000000000000000 # 10000000000000000
  /\ numeric_hours 6000000000 = 16666666666666667 # 10000000000000000
  /\ numeric_hours 1
     = 2777777777777777778 # 10000000000000000000000000000
  /\ numeric_hours (- 1200000000)
     = (- (33333333333333333333 # 100000000000000000000))%Q
  /\ numeric_hours 0 = 0 # 100000000000000000000
  /\ (16666666666666667 # 10000000000000000
      <= compute_hours_since_ai 6000000500%Z (Some 500%Z))%Q
  /\ ~ (16666666666666667 # 10000000000000000 <= 6000000000 # 3600000000)%Q.
Proof. repeat split; vm_compute; congruence. Qed.

(** The hours figure of the evaluator against the hours since each
    post/reply entry. *)
Lemma hours_gate_of_metrics now d (min_hours : Q) :
  (min_hours <= compute_hours_since_ai now (select_last_ai_time d))%Q ->
  hours_gate now d min_hours.
Proof.
  intros Hle. pose proof (select_last_ai_time_spec d) as Hs.
  destruct (select_last_ai_time d) as [m|]; simpl in Hle.
  - destruct Hs as [Hall [a0 [Ha0 [Hp0 _]]]]. split.
    + intros a Ha Hp. specialize (Hall a Ha Hp).
      eapply Qle_trans; [exact Hle|].
      unfold hours_between. apply numeric_hours_mono. lia.
    + intros Hnone. rewrite (Hnone a0 Ha0) in Hp0. discriminate.
  - split.
    + intros a Ha Hp. rewrite (Hs a Ha) in Hp. discriminate.
    + intros _. exact Hle.
Qed.

(** The evaluator's count of posts against the posts created after
    every post/reply entry. *)
Lemma count_posts_since_ai_spec d :
  count_posts_since_ai (select_last_ai_time d) d = posts_since_last_activity d.
Proof.
  unfold count_posts_since_ai, count, posts_since_last_activity. do 2 f_equal.
  apply filter_ext. intros r.
  assert (Hnew : Z.gtb (Post.created_at r) (COALESCE (select_last_ai_time d) 0)
                 = after_last_activity d r).
  { pose proof (select_last_ai_time_spec d) as Hs.
    unfold after_last_activity. apply eq_iff_eq_true.
    rewrite andb_true_iff, forallb_forall, orb_true_iff, existsb_exists.
    destruct (select_last_ai_time d) as [m|]; simpl.
    - destruct Hs as [Hall [a0 [Ha0 [Hp0 Em]]]].
      rewrite Z.gtb_ltb, Z.ltb_lt. split.
      + intros Hlt. split; [|left; now exists a0].
        intros a Ha. destruct (ledger_post a) eqn:Hp; [|reflexivity].
        simpl. apply Z.ltb_lt. specialize (Hall a Ha Hp). lia.
      + intros [Hfor _]. specialize (Hfor a0 Ha0). rewrite Hp0 in Hfor.
        simpl in Hfor. apply Z.ltb_lt in Hfor. lia.
    - rewrite Z.gtb_ltb. split.
      + intros Hlt. split; [|now right].
        intros a Ha. now rewrite (Hs a Ha).
      + intros [_ [[a [Ha Hp]]|Hlt]]; [|exact Hlt].
        rewrite (Hs a Ha) in Hp. discriminate. }
  rewrite Hnew.
  destruct (Post.status r), (Post.author_type r);
    simpl; try reflexivity; now rewrite ?andb_true_r, ?andb_false_r.
Qed.

Lemma views_gate_of_metrics d (threshold v : Z) :
  option_map (Z.add 1) (select_metric "page_views_since_ai" d) = Some v ->
  threshold <= v -> views_gate d threshold.
Proof.
  unfold select_metric.
  destruct (find _ (forum_metrics d)) as [row|] eqn:Hf; [|discriminate].
  cbn [option_map]. intros E Hle.
  assert (E' : 1 + Metric.metric_value row = v) by (now inversion E).
  apply find_some in Hf as [Hin Hname]. apply String.eqb_eq in Hname.
  exists row. repeat split; try assumption. lia.
Qed.

(** The cast on sample values: fifteen significant digits are kept, the
    sixteenth rounds, and a value with fewer digits is stored as it is. *)
Lemma float8_to_numeric_samples :
  (float8_to_numeric (1 # 2) == 1 # 2)%Q
  /\ (float8_to_numeric (1 # 3) == 333333333333333 # 1000000000000000)%Q
  /\ (float8_to_numeric (2 # 3) == 666666666666667 # 1000000000000000)%Q
  /\ (float8_to_numeric (1234567890123456 # 1) == 1234567890123460 # 1)%Q
  /\ (float8_to_numeric (29999999999999996 # 100000000000000000) == 3 # 10)%Q
  /\ (float8_to_numeric (29999999999999944 # 100000000000000000)
      == 299999999999999 # 1000000000000000)%Q
  /\ (float8_to_numeric (- (1 # 3)) == - (333333333333333 # 1000000000000000))%Q
  /\ (float8_to_numeric 0 == 0)%Q.
Proof. repeat split; vm_compute; reflexivity. Qed.

(** C1 (counterexample).  With the seeded chance 0.3 and the draw
    0.30000000000000004, which lies in [0,1) and above the chance, the
    evaluation triggers: `v_random := random()` stores the draw in a
    NUMERIC variable, that is, with 15 significant digits, as 0.3. *)
Lemma check_ai_trigger_rounds_the_draw :
  snd (check_ai_trigger 4000 draw_above_chance (1 # 2) seeded_db)
  = Triggered "Sam" None (evaluated_metrics 4000 seeded_db)
  /\ ~ (draw_above_chance
        <= COALESCE (Settings.random_chance (forum_ai_settings seeded_db))
                    (3 # 10))%Q
  /\ (0 <= draw_above_chance)%Q /\ (draw_above_chance < 1)%Q
  /\ (float8_to_numeric draw_above_chance == 3 # 10)%Q.
Proof.
  split; [vm_compute; reflexivity|].
  split; [|split; [|split]]; vm_compute; congruence.
Qed.

(** C1 (amended).  For every call of check_ai_trigger: when the master
    flag is on, the stored settings pass their casts and the number of
    'post'/'reply' ledger entries of the last 24 hours has reached the
    daily cap, the result is no-trigger 'daily_limit', whatever the other
    settings, metrics and draws.  A trigger is returned only when the
    flag is on; that number is strictly below the cap; every
    'post'/'reply' entry of the ledger lies at least the minimum of hours
    back, the hours being the NUMERIC quotient the database holds (the
    figure being 999 for a ledger without one); the approved
    human posts created after the last such entry number at least the
    post threshold, or the stored counter page_views_since_ai, this view
    included, is at least the view threshold; and the gate draw, once
    stored in the NUMERIC variable (15 significant digits), is <= the
    configured chance.  The metrics returned are those of the state the
    call starts from, with the view being evaluated counted, and they
    pass the same tests. *)
Theorem check_ai_trigger_gate :
  forall now v_random v_random2 d d' res,
    check_ai_trigger now v_random v_random2 d = (d', res) ->
    (Settings.trigger_enabled (forum_ai_settings d) = Some "true" ->
     Settings.cast_error (forum_ai_settings d) = None ->
     COALESCE (Settings.max_ai_posts_per_day (forum_ai_settings d)) 10
     <= Z.of_nat (List.length (daily_entries now d)) ->
     res = NoTrigger "daily_limit" None)
    /\ (forall persona target m,
          res = Triggered persona target m ->
          Settings.trigger_enabled (forum_ai_settings d) = Some "true"
          /\ Z.of_nat (List.length (daily_entries now d))
             < COALESCE (Settings.max_ai_posts_per_day (forum_ai_settings d)) 10
          /\ hours_gate now d
               (COALESCE (Settings.min_time_between_ai_hours (forum_ai_settings d))
                         (inject_Z 2))
          /\ (COALESCE (Settings.posts_threshold (forum_ai_settings d)) 3
              <= posts_since_last_activity d
              \/ views_gate d
                   (COALESCE (Settings.page_views_threshold (forum_ai_settings d))
                             20))
          /\ (float8_to_numeric v_random
              <= COALESCE (Settings.random_chance (forum_ai_settings d)) (3 # 10))%Q
          /\ m = evaluated_metrics now d
          /\ (COALESCE (Settings.min_time_between_ai_hours (forum_ai_settings d))
                       (inject_Z 2)
              <= hours_since_ai m)%Q
          /\ (COALESCE (Settings.posts_threshold (forum_ai_settings d)) 3
              <= posts_since_ai m
              \/ exists v, views_since_ai m = Some v
                           /\ COALESCE (Settings.page_views_threshold
                                          (forum_ai_settings d)) 20 <= v)).
Proof.
  intros now r1 r2 d d' res H.
  unfold check_ai_trigger in H.
  rewrite views_after_increment in H.
  cbn [forum_ai_settings update_metric set_forum_metrics] in H.
  change (select_last_ai_time (update_metric now "page_views_since_ai" (Z.add 1)
                                 (update_metric now "page_views" (Z.add 1) d)))
    with (select_last_ai_time d) in H.
  change (count_posts_since_ai (select_last_ai_time d)
            (update_metric now "page_views_since_ai" (Z.add 1)
               (update_metric now "page_views" (Z.add 1) d)))
    with (count_posts_since_ai (select_last_ai_time d) d) in H.
  change (count_daily_ai now
            (update_metric now "page_views_since_ai" (Z.add 1)
               (update_metric now "page_views" (Z.add 1) d)))
    with (count_daily_ai now d) in H.
  fold (evaluated_metrics now d) in H.
  rewrite count_daily_ai_entries in H.
  destruct (COALESCE (option_map _ _) false) eqn:Hen; simpl in H.
  - apply enabled_true in Hen.
    destruct (Settings.cast_error (forum_ai_settings d)) as [msg|] eqn:Hcast.
    { inversion H; subst. split; [intros _ C; discriminate C | discriminate]. }
    destruct (Z.geb (Z.of_nat (List.length (daily_entries now d))) _) eqn:Hcap.
    + inversion H; subst. split; [reflexivity | discriminate].
    + assert (Hlt : Z.of_nat (List.length (daily_entries now d))
                    < COALESCE (Settings.max_ai_posts_per_day (forum_ai_settings d)) 10).
      { destruct (Z.ltb_spec (Z.of_nat (List.length (daily_entries now d)))
                   (COALESCE (Settings.max_ai_posts_per_day (forum_ai_settings d)) 10))
          as [L|L]; [exact L|].
        apply Z.geb_le in L. congruence. }
      split; [intros _ _ Hge; lia|].
      destruct (should_trigger _ _ r1) eqn:Hst; simpl in H.
      * apply should_trigger_true in Hst as [Hh [Hp Hr]].
        destruct (available_personas _ _ _) as [|a avail];
          [inversion H; subst; discriminate|].
        destruct (choose_persona _ r2);
          inversion H; subst; [|discriminate].
        intros persona target m Heq. inversion Heq; subst.
        split; [exact Hen|]. split; [exact Hlt|].
        split; [now apply hours_gate_of_metrics|].
        split.
        { destruct Hp as [Hp|[v [Hv Hle]]].
          - left. simpl in Hp. now rewrite count_posts_since_ai_spec in Hp.
          - right. exact (views_gate_of_metrics d _ v Hv Hle). }
        now repeat split.
      * inversion H; subst. discriminate.
  - inversion H; subst. split; [|discriminate].
    intros Hon. apply enabled_true in Hon. congruence.
Qed.

Lemma check_ai_trigger_gate_witness :
  snd (check_ai_trigger 4000 (1 # 2) (1 # 2) capped_db)
  = NoTrigger "daily_limit" None
  /\ Z.of_nat (List.length (daily_entries three_hours_later paced_db)) = 1
  /\ hours_gate three_hours_later paced_db (2 # 1)
  /\ (float8_to_numeric (1 # 2) <= 1 # 1)%Q.
Proof.
  destruct (check_ai_trigger_gate 4000 (1 # 2) (1 # 2) capped_db
              (fst (check_ai_trigger 4000 (1 # 2) (1 # 2) capped_db))
              (snd (check_ai_trigger 4000 (1 # 2) (1 # 2) capped_db))
              eq_refl) as [Hcap _].
  split; [apply Hcap; [reflexivity | reflexivity | vm_compute; discriminate]|].
  destruct (check_ai_trigger_gate three_hours_later (1 # 2) (1 # 2) paced_db
              (fst (check_ai_trigger three_hours_later (1 # 2) (1 # 2) paced_db))
              (Triggered "Luna" None (evaluated_metrics three_hours_later paced_db))
              eq_refl) as [_ H].
  destruct (H "Luna" None (evaluated_metrics three_hours_later paced_db) eq_refl)
    as [_ [_ [Hh [_ [Hr _]]]]].
  split; [reflexivity|]. split; [exact Hh | exact Hr].
Defined.

(** ** C7: the target post *)

Section TargetQuery.

Variables (now : timestamptz) (posts : list Post.t).

Lemma select_target_fold (l : list Post.t) :
  forall seen best,
    best_of now posts seen best ->
    best_of now posts (seen ++ l) (fold_left (target_step now posts) l best).
Proof.
  induction l as [|fp l IH]; intros seen best Hb; simpl.
  - now rewrite app_nil_r.
  - replace (seen ++ fp :: l)%list with ((seen ++ [fp]) ++ l)%list
      by now rewrite <- app_assoc.
    apply IH. unfold target_step, best_of in *.
    destruct (target_candidate now posts fp) eqn:Hc.
    + destruct best as [b|].
      * destruct Hb as [Hin [Hcb Hmax]].
        destruct (Z.gtb_spec (Post.created_at fp) (Post.created_at b)) as [G|G].
        -- split; [apply in_or_app; right; now left|]. split; [assumption|].
           intros c Hcin Hcc. apply in_app_or in Hcin as [Hcin|[<-|[]]];
             [specialize (Hmax c Hcin Hcc); lia | lia].
        -- split; [apply in_or_app; now left|]. split; [assumption|].
           intros c Hcin Hcc. apply in_app_or in Hcin as [Hcin|[<-|[]]];
             [now apply Hmax | lia].
      * split; [apply in_or_app; right; now left|]. split; [assumption|].
        intros c Hcin Hcc. apply in_app_or in Hcin as [Hcin|[<-|[]]]; [|lia].
        rewrite (Hb c Hcin) in Hcc. discriminate.
    + destruct best as [b|].
      * destruct Hb as [Hin [Hcb Hmax]].
        split; [apply in_or_app; now left|]. split; [assumption|].
        intros c Hcin Hcc. apply in_app_or in Hcin as [Hcin|[<-|[]]];
          [now apply Hmax | congruence].
      * intros c Hcin. apply in_app_or in Hcin as [Hcin|[<-|[]]];
          [now apply Hb | assumption].
Qed.

(** The row the target query fetches: a post that is approved,
    human-authored, created within the last 7 days and without a later
    AI post in its thread, of greatest created_at among such posts;
    no row exactly when there is no such post. *)
Lemma select_target_most_recent :
  best_of now posts posts (select_target now posts).
Proof.
  apply (select_target_fold posts [] None). intros c [].
Qed.

End TargetQuery.

(** The 'target_post' of a triggered result is the fetched row passed
    through the IS NOT NULL test; in particular it is null when no post
    qualifies. *)
Lemma triggered_target now v_random v_random2 d d' persona target m :
  check_ai_trigger now v_random v_random2 d = (d', Triggered persona target m) ->
  target = target_json (select_target now (forum_posts d)).
Proof.
  unfold check_ai_trigger.
  destruct (negb _); [discriminate|].
  destruct (Settings.cast_error _); [discriminate|].
  destruct (Z.geb _ _); [discriminate|].
  destruct (negb _); [discriminate|].
  destruct (available_personas _ _ _); [discriminate|].
  destruct (choose_persona _ _); [|discriminate].
  intros H. now inversion H.
Qed.

(** C7 (the code at the failing input).  Three guests have posted
    through human_submit_post; the settings are minHours = 2,
    postsThreshold = 3, viewsThreshold = 20, probability = 1.0, dailyCap
    = 10 and the ledger is empty.  The target query fetches post 3, the
    most recent qualifying post, but the row has NULL columns (user_id,
    parent_id, the moderation and AI columns), so [v_target_post IS NOT
    NULL] is false and the evaluation returns triggered with a null
    target. *)
Lemma check_ai_trigger_drops_qualifying_target :
  option_map Post.id (select_target 4000 (forum_posts three_posts_db)) = Some 3
  /\ post_is_not_null (select_target 4000 (forum_posts three_posts_db)) = false
  /\ snd (check_ai_trigger 4000 (1 # 2) (1 # 2) three_posts_db)
     = Triggered "Sam" None (evaluated_metrics 4000 three_posts_db).
Proof. repeat split. Qed.

(** * Further properties *)

(** ** The trigger evaluator: effects, persona draw, ledger *)

Lemma option_map_map {A B C : Type} (f : A -> B) (g : B -> C) (x : option A) :
  option_map g (option_map f x) = option_map (fun a => g (f a)) x.
Proof. now destruct x. Qed.

Lemma option_map_id_ext {A : Type} (f : A -> A) (x : option A) :
  (forall a, f a = a) -> option_map f x = x.
Proof. intros H. destruct x; simpl; [now rewrite H | reflexivity]. Qed.

Lemma select_metric_insert_activity name now persona a pid d :
  select_metric name (insert_activity now persona a pid d) = select_metric name d.
Proof. reflexivity. Qed.

(** X1.  What an evaluation writes.  Unless the call aborts, the view
    counter goes up by one.  When the evaluation triggers, the two
    since-counters read 0 afterwards and the ledger has one new row, a
    'trigger_check' of the chosen persona stamped with the call time; when
    it does not, views-since goes up by one, posts-since keeps its value
    and the ledger is as before.  Posts, votes, bans, identities and
    settings are never written. *)
Theorem check_ai_trigger_effects :
  forall now v_random v_random2 d d' res,
    check_ai_trigger now v_random v_random2 d = (d', res) ->
    match res with
    | TriggerRaised _ => d' = d
    | _ =>
        select_metric "page_views" d'
        = option_map (Z.add 1) (select_metric "page_views" d)
        /\ select_metric "page_views_since_ai" d'
           = option_map (fun v => if fired res then 0 else 1 + v)
                        (select_metric "page_views_since_ai" d)
        /\ select_metric "posts_since_ai" d'
           = option_map (fun v => if fired res then 0 else v)
                        (select_metric "posts_since_ai" d)
        /\ forum_ai_activity d'
           = (forum_ai_activity d ++ ledger_entry_of now d res)%list
        /\ forum_posts d' = forum_posts d
        /\ forum_votes d' = forum_votes d
        /\ forum_bans d' = forum_bans d
        /\ forum_ai_identities d' = forum_ai_identities d
        /\ forum_ai_settings d' = forum_ai_settings d
    end.
Proof.
  intros now r1 r2 d d' res H. unfold check_ai_trigger in H.
  assert (Hno : forall reason metrics,
             (update_metric now "page_views_since_ai" (Z.add 1)
                (update_metric now "page_views" (Z.add 1) d),
              NoTrigger reason metrics) = (d', res) ->
             match res with
             | TriggerRaised _ => d' = d
             | _ =>
                 select_metric "page_views" d'
                 = option_map (Z.add 1) (select_metric "page_views" d)
                 /\ select_metric "page_views_since_ai" d'
                    = option_map (fun v => if fired res then 0 else 1 + v)
                                 (select_metric "page_views_since_ai" d)
                 /\ select_metric "posts_since_ai" d'
                    = option_map (fun v => if fired res then 0 else v)
                                 (select_metric "posts_since_ai" d)
                 /\ forum_ai_activity d'
                    = (forum_ai_activity d ++ ledger_entry_of now d res)%list
                 /\ forum_posts d' = forum_posts d
                 /\ forum_votes d' = forum_votes d
                 /\ forum_bans d' = forum_bans d
                 /\ forum_ai_identities d' = forum_ai_identities d
                 /\ forum_ai_settings d' = forum_ai_settings d
             end).
  { intros reason metrics E. inversion E; subst. simpl fired. cbv iota.
    rewrite !select_metric_update. simpl.
    rewrite app_nil_r, (option_map_id_ext (fun v => v)) by reflexivity.
    now repeat split. }
  destruct (negb _); [now apply (Hno _ _ H)|].
  destruct (Settings.cast_error _); [inversion H; subst; reflexivity|].
  destruct (Z.geb _ _); [now apply (Hno _ _ H)|].
  destruct (negb _); [now apply (Hno _ _ H)|].
  destruct (available_personas _ _ _) as [|p avail]; [now apply (Hno _ _ H)|].
  destruct (choose_persona _ _) as [persona|]; inversion H; subst; [|reflexivity].
  simpl fired. cbv iota.
  rewrite !select_metric_update. simpl.
  rewrite !select_metric_insert_activity, !select_metric_update. simpl.
  rewrite !option_map_map. now repeat split.
Qed.

Lemma check_ai_trigger_effects_witness :
  select_metric "page_views_since_ai"
    (fst (check_ai_trigger 4000 (1 # 2) (1 # 2) three_posts_db)) = Some 0
  /\ List.length
       (forum_ai_activity (fst (check_ai_trigger 4000 (1 # 2) (1 # 2) three_posts_db)))
     = 1%nat.
Proof.
  pose proof (check_ai_trigger_effects 4000 (1 # 2) (1 # 2) three_posts_db
                (fst (check_ai_trigger 4000 (1 # 2) (1 # 2) three_posts_db))
                (Triggered "Sam" None (evaluated_metrics 4000 three_posts_db))
                eq_refl) as [_ [Hv [_ [Hl _]]]].
  split.
  - rewrite Hv. reflexivity.
  - rewrite Hl. reflexivity.
Defined.

(** Math.floor(r * n) and floor(random() * n): with r in [0,1) the
    result is an index of an n-element array. *)
Lemma floor_index (r : Q) (n : Z) :
  0 < n -> (0 <= r)%Q -> (r < 1)%Q -> 0 <= Qfloor (r * inject_Z n) < n.
Proof.
  intros Hn H0 H1.
  assert (Hn' : (0 < inject_Z n)%Q).
  { change (inject_Z 0 < inject_Z n)%Q. rewrite <- Zlt_Qlt. exact Hn. }
  split.
  - change 0 with (Qfloor 0). apply Qfloor_resp_le.
    apply Qmult_le_0_compat; [exact H0 | now apply Qlt_le_weak].
  - rewrite Zlt_Qlt.
    apply Qle_lt_trans with (r * inject_Z n)%Q; [apply Qfloor_le|].
    rewrite <- (Qmult_1_l (inject_Z n)) at 2.
    now apply Qmult_lt_compat_r.
Qed.

Lemma choose_persona_in (avail : list string) (r : Q) (p : string) :
  choose_persona avail r = Some p -> In p avail.
Proof.
  unfold choose_persona. destruct (Z.leb 1 _); [|discriminate].
  apply nth_error_In.
Qed.

Lemma choose_persona_total (avail : list string) (r : Q) :
  avail <> [] -> (0 <= r)%Q -> (r < 1)%Q ->
  exists p, choose_persona avail r = Some p.
Proof.
  intros Hne H0 H1. unfold choose_persona.
  assert (Hlen : 0 < Z.of_nat (List.length avail)).
  { destruct avail; [contradiction | simpl; lia]. }
  pose proof (floor_index r _ Hlen H0 H1) as [Hlo Hhi].
  destruct (Z.leb_spec 1 (1 + Qfloor (r * inject_Z (Z.of_nat (List.length avail)))));
    [|lia].
  destruct (nth_error avail _) as [p|] eqn:E; [now exists p|].
  apply nth_error_None in E. lia.
Qed.




(** A setting that does not pass its cast.  Once the master flag is on,
    the evaluation raises with the message of the cast, and the database
    is as before the call: the two increments are rolled back.  With the
    flag off the casts are never reached. *)
Lemma check_ai_trigger_cast_error now v_random v_random2 d msg :
  Settings.trigger_enabled (forum_ai_settings d) = Some "true" ->
  Settings.cast_error (forum_ai_settings d) = Some msg ->
  check_ai_trigger now v_random v_random2 d = (d, TriggerRaised msg).
Proof.
  intros Hon Hcast. unfold check_ai_trigger.
  cbn [forum_ai_settings update_metric set_forum_metrics].
  now rewrite Hon, Hcast.
Qed.

Lemma check_ai_trigger_disabled now v_random v_random2 d :
  Settings.trigger_enabled (forum_ai_settings d) <> Some "true" ->
  snd (check_ai_trigger now v_random v_random2 d) = NoTrigger "disabled" None.
Proof.
  intros Hoff. unfold check_ai_trigger.
  cbn [forum_ai_settings update_metric set_forum_metrics].
  destruct (Settings.trigger_enabled (forum_ai_settings d)) as [v|];
    [|reflexivity].
  cbn [option_map COALESCE].
  destruct (String.eqb_spec v "true") as [->|_];
    [now contradiction Hoff | reflexivity].
Qed.

(** The ledger after an evaluation, whatever its outcome. *)
Lemma check_ai_trigger_ledger now v_random v_random2 d d' res :
  check_ai_trigger now v_random v_random2 d = (d', res) ->
  forum_ai_activity d' = (forum_ai_activity d ++ ledger_entry_of now d res)%list.
Proof.
  unfold check_ai_trigger.
  destruct (negb _); [intros H; inversion H; subst; simpl; now rewrite app_nil_r|].
  destruct (Settings.cast_error _); [intros H; inversion H; subst; simpl; now rewrite app_nil_r|].
  destruct (Z.geb _ _); [intros H; inversion H; subst; simpl; now rewrite app_nil_r|].
  destruct (negb _); [intros H; inversion H; subst; simpl; now rewrite app_nil_r|].
  destruct (available_personas _ _ _);
    [intros H; inversion H; subst; simpl; now rewrite app_nil_r|].
  destruct (choose_persona _ _); intros H; inversion H; subst; simpl;
    [reflexivity | now rewrite app_nil_r].
Qed.

Lemma ledger_entry_not_a_post now d res :
  Forall (fun a => is_ai_post a = false) (ledger_entry_of now d res).
Proof. destruct res; simpl; repeat constructor. Qed.

Lemma filter_no_post (f : Activity.t -> bool) (tail : list Activity.t) :
  Forall (fun a => is_ai_post a = false) tail ->
  (forall a, f a = true -> is_ai_post a = true) ->
  filter f tail = [].
Proof.
  intros Ht Hf. induction Ht as [|a l Ha _ IH]; simpl; [reflexivity|].
  destruct (f a) eqn:E; [|exact IH].
  apply Hf in E. congruence.
Qed.

Section LedgerTail.

Variables (d d' : db) (tail : list Activity.t).
Hypothesis ledger_grows : forum_ai_activity d' = (forum_ai_activity d ++ tail)%list.
Hypothesis tail_no_post : Forall (fun a => is_ai_post a = false) tail.

Lemma filter_tail (f : Activity.t -> bool) :
  (forall a, f a = true -> is_ai_post a = true) ->
  filter f (forum_ai_activity d') = filter f (forum_ai_activity d).
Proof.
  intros Hf. rewrite ledger_grows, filter_app.
  now rewrite (filter_no_post f tail tail_no_post Hf), app_nil_r.
Qed.

Lemma select_last_ai_time_tail : select_last_ai_time d' = select_last_ai_time d.
Proof.
  unfold select_last_ai_time. rewrite ledger_grows, fold_left_app.
  generalize (fold_left (fun acc a =>
                           if is_ai_post a
                           then match acc with
                                | None => Some (Activity.created_at a)
                                | Some m => Some (Z.max m (Activity.created_at a))
                                end
                           else acc) (forum_ai_activity d) None).
  clear ledger_grows. revert tail_no_post.
  induction 1 as [|a l Ha _ IH]; intros acc; simpl; [reflexivity|].
  rewrite Ha. apply IH.
Qed.

Lemma count_daily_ai_tail now : count_daily_ai now d' = count_daily_ai now d.
Proof.
  unfold count_daily_ai, count. rewrite filter_tail; [reflexivity|].
  intros a H. now apply andb_true_iff in H as [H _].
Qed.

Lemma persona_available_tail now s persona :
  persona_available now s d' persona = persona_available now s d persona.
Proof.
  unfold persona_available, count. cbv zeta. f_equal.
  - f_equal. rewrite ledger_grows, existsb_app.
    match goal with
    | |- (_ || existsb ?g tail)%bool = _ =>
        replace (existsb g tail) with false; [now rewrite orb_false_r|]
    end.
    symmetry. apply Bool.not_true_iff_false. intros Hex.
    apply existsb_exists in Hex as [a [Hin Ha]].
    rewrite Forall_forall in tail_no_post.
    apply andb_true_iff in Ha as [Ha _].
    apply andb_true_iff in Ha as [_ Ha].
    rewrite (tail_no_post a Hin) in Ha. discriminate.
  - rewrite filter_tail; [reflexivity|].
    intros a H. apply andb_true_iff in H as [H _].
    now apply andb_true_iff in H as [_ H].
Qed.

End LedgerTail.

(** X3.  An evaluation leaves everything later scheduling reads from the
    ledger as it was: the time of the last AI activity, the count of the
    last 24 hours at any time, and every persona's availability at any
    time and under any settings.  The 'trigger_check' row it may append
    takes part in none of them. *)
Theorem check_ai_trigger_leaves_schedule :
  forall now v_random v_random2 d d' res,
    check_ai_trigger now v_random v_random2 d = (d', res) ->
    forall now' s persona,
      select_last_ai_time d' = select_last_ai_time d
      /\ count_daily_ai now' d' = count_daily_ai now' d
      /\ persona_available now' s d' persona = persona_available now' s d persona.
Proof.
  intros now r1 r2 d d' res H now' s persona.
  pose proof (check_ai_trigger_ledger _ _ _ _ _ _ H) as Hl.
  pose proof (ledger_entry_not_a_post now d res) as Ht.
  split; [|split].
  - exact (select_last_ai_time_tail d d' _ Hl Ht).
  - exact (count_daily_ai_tail d d' _ Hl Ht now').
  - exact (persona_available_tail d d' _ Hl Ht now' s persona).
Qed.

Lemma check_ai_trigger_leaves_schedule_witness :
  count_daily_ai 5000 (fst (check_ai_trigger 4000 (1 # 2) (1 # 2) three_posts_db))
  = count_daily_ai 5000 three_posts_db.
Proof.
  apply (check_ai_trigger_leaves_schedule 4000 (1 # 2) (1 # 2) three_posts_db
           (fst (check_ai_trigger 4000 (1 # 2) (1 # 2) three_posts_db))
           (snd (check_ai_trigger 4000 (1 # 2) (1 # 2) three_posts_db))
           eq_refl 5000 trigger_settings "Sam").
Defined.







(** ** The content gate: what the filter matches *)

Lemma like_plain_cons (c : ascii) (p s : list ascii) :
  plain_char c = true ->
  like_match (c :: p) s
  = match s with
    | [] => false
    | x :: s' => Ascii.eqb c x && like_match p s'
    end.
Proof.
  destruct c as [b0 b1 b2 b3 b4 b5 b6 b7].
  destruct b0, b1, b2, b3, b4, b5, b6, b7; intros H;
    try discriminate H; reflexivity.
Qed.

Lemma like_percent_eq (p s : list ascii) :
  like_match ("%"%char :: p) s
  = like_match p s
    || match s with
       | [] => false
       | _ :: s' => like_match ("%"%char :: p) s'
       end.
Proof. destruct s; reflexivity. Qed.

Lemma like_percent (p s : list ascii) :
  like_match ("%"%char :: p) s = true
  <-> exists a b, s = (a ++ b)%list /\ like_match p b = true.
Proof.
  induction s as [|x s IH]; rewrite like_percent_eq.
  - rewrite orb_false_r. split.
    + intros H. now exists [], [].
    + intros [a [b [E H]]]. symmetry in E. apply app_eq_nil in E as [-> ->].
      exact H.
  - rewrite orb_true_iff, IH. split.
    + intros [H | [a [b [E H]]]].
      * now exists [], (x :: s).
      * exists (x :: a), b. split; [now rewrite E | exact H].
    + intros [a [b [E H]]]. destruct a as [|y a].
      * left. simpl in E. now rewrite E.
      * right. inversion E; subst. now exists a, b.
Qed.

Lemma like_plain_word (w rest : list ascii) :
  forallb plain_char w = true ->
  forall s, like_match (w ++ rest) s = true
            <-> exists s', s = (w ++ s')%list /\ like_match rest s' = true.
Proof.
  induction w as [|c w IH]; intros Hw s.
  - simpl. split; [intros H; now exists s | intros [s' [-> H]]; exact H].
  - simpl in Hw. apply andb_true_iff in Hw as [Hc Hw].
    rewrite <- app_comm_cons, (like_plain_cons c _ s Hc).
    destruct s as [|x s].
    + split; [discriminate | intros [s' [E _]]; discriminate].
    + rewrite andb_true_iff, (IH Hw s). split.
      * intros [Hx [s' [-> H]]]. apply Ascii.eqb_eq in Hx. subst x.
        now exists s'.
      * intros [s' [E H]]. inversion E; subst. split; [apply Ascii.eqb_refl|].
        now exists s'.
Qed.

Lemma like_percent_alone (s : list ascii) : like_match ["%"%char] s = true.
Proof. apply like_percent. now exists s, []; rewrite app_nil_r. Qed.

Lemma list_ascii_of_string_app (a b : string) :
  list_ascii_of_string (a ++ b)
  = (list_ascii_of_string a ++ list_ascii_of_string b)%list.
Proof. induction a as [|c a IH]; simpl; [reflexivity | now rewrite IH]. Qed.

(** For a word without %, _ and backslash, [s LIKE '%' || w || '%'] is
    "w occurs in s". *)
Lemma like_contains (w s : string) :
  plain_word w = true ->
  LIKE s ("%" ++ w ++ "%") = true <-> occurs_in w s.
Proof.
  intros Hw. unfold LIKE, occurs_in.
  rewrite !list_ascii_of_string_app. simpl list_ascii_of_string at 1 3.
  change ((["%"%char] ++ list_ascii_of_string w ++ ["%"%char])%list)
    with ("%"%char :: (list_ascii_of_string w ++ ["%"%char]))%list.
  rewrite like_percent. split.
  - intros [a [b [E H]]].
    apply (like_plain_word _ _ Hw) in H as [b' [-> _]].
    exists (string_of_list_ascii a), (string_of_list_ascii b').
    rewrite <- (string_of_list_ascii_of_string s), E.
    rewrite <- (string_of_list_ascii_of_string w) at 2.
    clear. induction a as [|c a IH]; simpl.
    + induction (list_ascii_of_string w) as [|c l IHl]; simpl;
        [reflexivity | now rewrite IHl].
    + now rewrite IH.
  - intros [a [b ->]].
    exists (list_ascii_of_string a), (list_ascii_of_string w ++ list_ascii_of_string b)%list.
    split; [now rewrite !list_ascii_of_string_app|].
    apply (like_plain_word _ _ Hw). exists (list_ascii_of_string b).
    split; [reflexivity | apply like_percent_alone].
Qed.

Lemma lower_char_plain (c : ascii) :
  plain_char c = true -> plain_char (lower_char c) = true.
Proof.
  destruct c as [b0 b1 b2 b3 b4 b5 b6 b7].
  destruct b0, b1, b2, b3, b4, b5, b6, b7; intros H;
    try discriminate H; reflexivity.
Qed.

Lemma LOWER_plain (w : string) : plain_word w = true -> plain_word (LOWER w) = true.
Proof.
  unfold plain_word. induction w as [|c w IH]; simpl; [reflexivity|].
  rewrite !andb_true_iff. intros [Hc Hw]. split; [now apply lower_char_plain | auto].
Qed.

Lemma word_matches_plain (c : string) (f : WordFilter.t) :
  plain_word (WordFilter.word f) = true ->
  word_matches (Some (LOWER c)) f = true
  <-> occurs_in (LOWER (WordFilter.word f)) (LOWER c).
Proof.
  intros Hw. unfold word_matches. simpl.
  rewrite <- (like_contains _ _ (LOWER_plain _ Hw)).
  now destruct (LIKE _ _).
Qed.

Lemma is_block_true (f : WordFilter.t) :
  is_block f = true <-> WordFilter.filter_type f = block.
Proof. unfold is_block. destruct (WordFilter.filter_type f); split; congruence. Qed.

Lemma is_flag_true (f : WordFilter.t) :
  is_flag f = true <-> WordFilter.filter_type f = flag.
Proof. unfold is_flag. destruct (WordFilter.filter_type f); split; congruence. Qed.

Lemma nonempty_exists {A : Type} (l : list A) :
  l <> [] <-> exists x, In x l.
Proof.
  destruct l as [|x l]; split.
  - congruence.
  - intros [x []].
  - intros _. exists x. now left.
  - discriminate.
Qed.

(** The filter words of kind [k] that match a text. *)
Lemma matching_words (k : WordFilter.t -> bool) (c : string) (d : db) :
  (forall f, In f (forum_word_filters d) -> plain_word (WordFilter.word f) = true) ->
  filter k (filter (word_matches (Some (LOWER c))) (forum_word_filters d)) <> []
  <-> exists f, In f (forum_word_filters d) /\ k f = true
                /\ occurs_in (LOWER (WordFilter.word f)) (LOWER c).
Proof.
  intros Hplain. rewrite nonempty_exists. split.
  - intros [f Hf]. apply filter_In in Hf as [Hf Hk].
    apply filter_In in Hf as [Hin Hm].
    exists f. repeat split; try assumption.
    now apply word_matches_plain; [apply Hplain|].
  - intros [f [Hin [Hk Ho]]]. exists f.
    apply filter_In. split; [|exact Hk].
    apply filter_In. split; [exact Hin|].
    now apply word_matches_plain; [apply Hplain|].
Qed.

(** X6.  The verdict of the content filter on ASCII text.  For a text
    and filter words made of ASCII characters only (where LOWER folds
    just the letters A-Z, in every database locale but the Turkic ones),
    and when no filter word contains %, _ or a backslash: the text fails
    the filter exactly when some 'block' word occurs in it, the case of
    the letters A-Z ignored; 'flag' and 'replace' words never change the
    verdict, and should_flag is raised exactly when some 'flag' word
    occurs.  Nothing is stated for text or words with characters beyond
    ASCII, whose folding is the locale's. *)
Theorem check_content_filter_verdict :
  forall c d,
    ascii_text c = true ->
    (forall f, In f (forum_word_filters d) ->
               ascii_text (WordFilter.word f) = true
               /\ plain_word (WordFilter.word f) = true) ->
    (passed (check_content_filter (Some c) d) = false
     <-> exists f, In f (forum_word_filters d)
                   /\ WordFilter.filter_type f = block
                   /\ occurs_in (LOWER (WordFilter.word f)) (LOWER c))
    /\ (should_flag (check_content_filter (Some c) d) = true
        <-> exists f, In f (forum_word_filters d)
                      /\ WordFilter.filter_type f = flag
                      /\ occurs_in (LOWER (WordFilter.word f)) (LOWER c)).
Proof.
  intros c d _ Hwords.
  assert (Hplain : forall f, In f (forum_word_filters d) ->
                             plain_word (WordFilter.word f) = true)
    by (intros f Hin; exact (proj2 (Hwords f Hin))).
  unfold check_content_filter. simpl. split.
  - transitivity (filter is_block
                    (filter (word_matches (Some (LOWER c))) (forum_word_filters d))
                  <> []).
    + destruct (filter is_block _); simpl; split; congruence.
    + rewrite (matching_words is_block c d Hplain).
      split; intros [f [H1 [H2 H3]]]; exists f; repeat split; try assumption;
        now apply is_block_true.
  - transitivity (filter is_flag
                    (filter (word_matches (Some (LOWER c))) (forum_word_filters d))
                  <> []).
    + destruct (filter is_flag _); simpl; split; congruence.
    + rewrite (matching_words is_flag c d Hplain).
      split; intros [f [H1 [H2 H3]]]; exists f; repeat split; try assumption;
        now apply is_flag_true.
Qed.

Lemma check_content_filter_verdict_witness :
  ascii_text "Please KYS now" = true
  /\ (passed (check_content_filter (Some "Please KYS now") (gate_db [])) = false
      <-> exists f, In f (forum_word_filters (gate_db []))
                    /\ WordFilter.filter_type f = block
                    /\ occurs_in (LOWER (WordFilter.word f))
                                 (LOWER "Please KYS now")).
Proof.
  split; [reflexivity|].
  apply (check_content_filter_verdict "Please KYS now" (gate_db []));
    [reflexivity|].
  intros f Hin. simpl in Hin.
  repeat (destruct Hin as [<-|Hin]; [split; reflexivity|]). contradiction.
Defined.

(** ** Bans: what the lookup reports *)

(** X7.  Every ban the lookup reports comes from a stored row that is
    active, matches a supplied identifier, names a user, an address and
    an AI session, and carries a reason and an expiry later than the call
    time.  A permanent ban (expires_at NULL) is therefore never
    reported, nor one without a reason or with an unused scope. *)
Theorem check_ban_status_reported :
  forall now p_user_id p_ip_address p_ai_session_id d k why exp,
    check_ban_status now p_user_id p_ip_address p_ai_session_id d
    = Banned k why exp ->
    exists b,
      In b (forum_bans d)
      /\ ban_matches now p_user_id p_ip_address p_ai_session_id b = true
      /\ Ban.is_active b = true
      /\ Ban.ban_type b = k /\ Ban.reason b = why /\ Ban.expires_at b = exp
      /\ Ban.user_id b <> None /\ Ban.ip_address b <> None
      /\ Ban.ai_session_id b <> None
      /\ (exists text, why = Some text)
      /\ (exists t, exp = Some t /\ now < t).
Proof.
  intros now u ip s d k why exp. unfold check_ban_status, select_ban.
  destruct (find _ (forum_bans d)) as [b|] eqn:Hf; simpl; [|discriminate].
  apply find_some in Hf as [Hin Hm].
  destruct (Ban.user_id b) as [bu|] eqn:Eu; simpl; [|discriminate].
  destruct (Ban.ip_address b) as [bi|] eqn:Ei; simpl; [|discriminate].
  destruct (Ban.ai_session_id b) as [bs|] eqn:Es; simpl; [|discriminate].
  destruct (Ban.reason b) as [br|] eqn:Er; simpl; [|discriminate].
  destruct (Ban.banned_by b) as [bb|] eqn:Eb; simpl; [|discriminate].
  destruct (Ban.expires_at b) as [bt|] eqn:Et; simpl; [|discriminate].
  intros H. inversion H; subst. exists b.
  assert (Hact : Ban.is_active b = true /\ now < bt).
  { unfold ban_matches in Hm. rewrite Et in Hm. simpl in Hm.
    destruct (Ban.is_active b); [|discriminate]. split; [reflexivity|].
    destruct (Z.gtb_spec bt now) as [G|G]; [lia|].
    simpl in Hm. discriminate. }
  destruct Hact as [Hact Hlt].
  rewrite Eu, Ei, Es, Er, Et.
  repeat split; try assumption; try discriminate; eauto.
Qed.

Lemma check_ban_status_reported_witness :
  exists b,
    In b (forum_bans (gate_db [filled_ban 1 shadow 50]))
    /\ Ban.ban_type b = shadow
    /\ Ban.expires_at b = Some 1000000.
Proof.
  destruct (check_ban_status_reported 100 None None (Some "bot-9")
              (gate_db [filled_ban 1 shadow 50]) shadow (Some "spam")
              (Some 1000000) eq_refl)
    as [b [Hin [_ [_ [Hk [_ [He _]]]]]]].
  exists b. now repeat split.
Defined.

Lemma find_app_none {A : Type} (f : A -> bool) (l : list A) (x : A) :
  (forall y, In y l -> f y = false) ->
  find f (l ++ [x]) = if f x then Some x else None.
Proof.
  intros H. induction l as [|y l IH]; simpl; [reflexivity|].
  rewrite (H y (or_introl eq_refl)). apply IH. intros z Hz. apply H. now right.
Qed.

(** X8.  ban_user and the lookup.  When an admin bans with a user, an
    address, an AI session, a reason and a number of days, and no stored
    ban matched that session before, the lookup for the session reports
    the new ban, with its kind, reason and expiry, at every time before
    the expiry, and reports nothing from the expiry on.  While it is
    reported, ai_submit_post for the session stores nothing. *)
Theorem ban_user_then_lookup :
  forall admin t0 u ip s k why days d d' now,
    ban_user (Some admin) t0 (Some u) (Some ip) (Some s) k (Some why)
             (Some days) d = (d', BanSuccess k) ->
    (forall b, In b (forum_bans d) ->
               ban_matches now None None (Some s) b = false) ->
    (now < t0 + days * 24 * usec_per_hour ->
     check_ban_status now None None (Some s) d'
     = Banned k (Some why) (Some (t0 + days * 24 * usec_per_hour))
     /\ forall p_content p_title p_parent_id p_author_name p_ai_model,
          fst (ai_submit_post now p_content p_title p_parent_id p_author_name
                              p_ai_model (Some s) d') = d')
    /\ (t0 + days * 24 * usec_per_hour <= now ->
        check_ban_status now None None (Some s) d' = NotBanned).
Proof.
  intros admin t0 u ip s k why days d d' now Hban Hnone.
  unfold ban_user in Hban.
  destruct (negb _); [discriminate|]. inversion Hban; subst d'; clear Hban.
  assert (Hfind :
            select_ban now None None (Some s)
              (set_forum_bans d
                 (forum_bans d
                  ++ [Ban.mk (forum_bans_id_seq d) (Some u) (Some ip) (Some s) k
                             (Some why) (Some admin) t0
                             (Some (t0 + days * 24 * usec_per_hour)) true])
                 (forum_bans_id_seq d + 1))
            = if Z.gtb (t0 + days * 24 * usec_per_hour) now
              then Some (Ban.mk (forum_bans_id_seq d) (Some u) (Some ip) (Some s) k
                                (Some why) (Some admin) t0
                                (Some (t0 + days * 24 * usec_per_hour)) true)
              else None).
  { unfold select_ban. simpl. rewrite (find_app_none _ _ _ Hnone).
    unfold ban_matches. simpl. rewrite String.eqb_refl.
    now destruct (Z.gtb _ now). }
  split.
  - intros Hlt.
    assert (Hst : check_ban_status now None None (Some s)
                    (set_forum_bans d
                       (forum_bans d
                        ++ [Ban.mk (forum_bans_id_seq d) (Some u) (Some ip) (Some s) k
                                   (Some why) (Some admin) t0
                                   (Some (t0 + days * 24 * usec_per_hour)) true])
                       (forum_bans_id_seq d + 1))
                  = Banned k (Some why) (Some (t0 + days * 24 * usec_per_hour))).
    { unfold check_ban_status. rewrite Hfind.
      destruct (Z.gtb_spec (t0 + days * 24 * usec_per_hour) now); [reflexivity|lia]. }
    split; [exact Hst|].
    intros c ttl par name model.
    now rewrite (ai_submit_post_reported_ban _ _ _ _ _ _ _ _ _ _ _ Hst).
  - intros Hge. unfold check_ban_status. rewrite Hfind.
    destruct (Z.gtb_spec (t0 + days * 24 * usec_per_hour) now); [lia|reflexivity].
Qed.

Lemma ban_user_then_lookup_witness :
  check_ban_status 100 None None (Some "bot-3")
    (fst (ban_user (Some "admin-1") 50 (Some "user-3") (Some "10.0.0.3")
                   (Some "bot-3") shadow (Some "spam") (Some 1) (gate_db [])))
  = Banned shadow (Some "spam") (Some (50 + 1 * 24 * usec_per_hour)).
Proof.
  apply (ban_user_then_lookup "admin-1" 50 "user-3" "10.0.0.3" "bot-3" shadow
           "spam" 1 (gate_db []) _ 100).
  - reflexivity.
  - intros b [].
  - reflexivity.
Defined.

(** ** ai_submit_post: when a row is stored *)

(** X9.  ai_submit_post writes to the database only when the ban lookup
    for the session reports nothing, the title and content pass the word
    filter, the content has at least 10 characters after TRIM, and the
    parent, if one is named, is an approved post.  The call then answers
    with the id drawn from the sequence and the status 'pending'. *)
Theorem ai_submit_post_stores_only_if :
  forall now p_content p_title p_parent_id p_author_name p_ai_model
         p_ai_session_id d,
    fst (ai_submit_post now p_content p_title p_parent_id p_author_name
                        p_ai_model p_ai_session_id d) <> d ->
    check_ban_status now None None p_ai_session_id d = NotBanned
    /\ (exists c,
          p_content = Some c
          /\ passed (check_content_filter
                       (Some (COALESCE p_title "" ++ " " ++ c)) d) = true
          /\ 10 <= LENGTH (TRIM c))
    /\ (forall pid, p_parent_id = Some pid ->
                    exists parent,
                      In parent (forum_posts d) /\ Post.id parent = pid
                      /\ Post.status parent = approved)
    /\ snd (ai_submit_post now p_content p_title p_parent_id p_author_name
                           p_ai_model p_ai_session_id d)
       = SubmitSuccess (forum_posts_id_seq d) pending.
Proof.
  intros now c ttl par name model sess d. unfold ai_submit_post.
  destruct (check_ban_status now None None sess d) as [|k why exp].
  - destruct c as [c|]; cbn [option_map].
    + destruct (passed (check_content_filter
                          (Some (COALESCE ttl "" ++ " " ++ c)) d)) eqn:Hp;
        cbn [negb]; [|intros C; now contradiction C].
      unfold content_too_short.
      destruct (Z.ltb_spec (LENGTH (TRIM c)) 10) as [Hl|Hl];
        [intros C; now contradiction C|].
      unfold resolve_and_insert.
      destruct par as [pid|].
      * unfold select_parent_thread.
        destruct (find _ (forum_posts d)) as [parent|] eqn:Hf; cbn [option_map];
          [|intros C; now contradiction C].
        intros _. split; [reflexivity|]. split; [now exists c|].
        split; [|reflexivity].
        intros pid' E. inversion E; subst pid'.
        apply find_some in Hf as [Hin Hc].
        apply andb_true_iff in Hc as [Hid Hs]. apply Z.eqb_eq in Hid.
        exists parent. repeat split; try assumption.
        now destruct (Post.status parent).
      * intros _. split; [reflexivity|]. split; [now exists c|].
        split; [discriminate | reflexivity].
    + destruct (negb _); intros C; now contradiction C.
  - destruct k; intros C; now contradiction C.
Qed.

Lemma ai_submit_post_stores_only_if_witness :
  snd (ai_submit_post 100 (Some "this text is long enough") None None
                      "Bot" None (Some "bot-1") (gate_db []))
  = SubmitSuccess 1 pending.
Proof.
  apply (ai_submit_post_stores_only_if 100 (Some "this text is long enough")
           None None "Bot" None (Some "bot-1") (gate_db [])).
  discriminate.
Defined.

(** ** Submission: the row that is stored *)

Lemma after_triggers_quiet now (fired : list (Post.t * Post.t)) :
  Forall (fun x => Post.status (snd x) <> deleted
                   \/ Post.status (fst x) = deleted) fired ->
  forall tbl, fold_left (promote_orphans_on_delete now) fired tbl = tbl.
Proof.
  induction 1 as [|[OLD NEW] fired Hx _ IH]; intros tbl; simpl; [reflexivity|].
  simpl in Hx. rewrite IH. unfold handle_parent_deletion.
  destruct Hx as [Hx|Hx].
  - destruct (Post.status NEW); try reflexivity. congruence.
  - rewrite Hx. simpl. rewrite andb_false_r.
    now destruct (post_status_eqb (Post.status NEW) deleted).
Qed.

(** An UPDATE whose SET list keeps the status fires no promotion. *)
Lemma update_forum_posts_same_status now where_ set_ tbl :
  (forall r, Post.status (set_ r) = Post.status r) ->
  update_forum_posts now where_ set_ tbl
  = map (fun r => if where_ r then update_forum_post_timestamp now (set_ r) else r)
        tbl.
Proof.
  intros Hs. unfold update_forum_posts. apply after_triggers_same_status.
  apply Forall_forall. intros [OLD NEW] Hin.
  apply in_map_iff in Hin as [r [E _]]. inversion E; subst. simpl. apply Hs.
Qed.

Lemma map_id_on {A : Type} (f : A -> A) (l : list A) :
  (forall x, In x l -> f x = x) -> map f l = l.
Proof.
  intros H. induction l as [|x l IH]; simpl; [reflexivity|].
  rewrite (H x (or_introl eq_refl)), IH; [reflexivity|].
  intros y Hy. apply H. now right.
Qed.

(** The shared tail of the submit functions, on a table whose ids lie
    below the sequence. *)
Lemma resolve_and_insert_appends now not_found p_title content author kind
    p_parent_id s model session d d' n s' :
  ids_fresh d ->
  resolve_and_insert now not_found p_title content author kind p_parent_id
                     s model session d = (d', SubmitSuccess n s') ->
  n = forum_posts_id_seq d /\ s' = s
  /\ thread_for d n p_parent_id <> None
  /\ d' = set_forum_posts_id_seq
            (set_forum_posts d
               (forum_posts d
                ++ [new_post now n p_title content author kind p_parent_id
                             (thread_for d n p_parent_id) s model session]))
            (n + 1).
Proof.
  intros Hfresh. unfold resolve_and_insert, insert_forum_post.
  destruct p_parent_id as [pid|].
  - destruct (select_parent_thread pid d) as [t|] eqn:Ht; [|discriminate].
    intros H. inversion H; subst. unfold thread_for. rewrite Ht.
    repeat split; discriminate.
  - intros H. inversion H; subst; clear H.
    repeat split; [discriminate|].
    unfold set_thread_for_top_level, set_forum_posts, set_forum_posts_id_seq.
    simpl. f_equal.
    rewrite update_forum_posts_same_status by (intros ?; reflexivity).
    rewrite map_app. simpl. rewrite Z.eqb_refl. f_equal.
    apply map_id_on. intros r Hin.
    destruct (Z.eqb_spec (Post.id r) (forum_posts_id_seq d)) as [E|E];
      [|reflexivity].
    specialize (Hfresh r Hin). lia.
Qed.

(** X10.  What a successful submission stores.  On a table whose ids lie
    below the sequence, each of human_submit_post, ai_submit_post (when
    the ban lookup reports nothing) and ai_submit_with_key, on success,
    returns the next value of the sequence as id and appends exactly one
    row under that id, leaving every stored row as it was: the row has both
    timestamps at the call time, no moderation and aggregate 0; its thread
    is its own id for a top-level post and the approved parent's thread
    for a reply.  human_submit_post stores it as 'human'/'approved',
    ai_submit_post as 'ai'/'pending', ai_submit_with_key as 'ai' under the
    identity's name, model and id, with TRIM applied to the content. *)
Theorem submit_appends_one_row :
  forall (h : string -> string) now p_content p_title p_parent_id p_author_name
         p_ai_model p_ai_session_id p_api_key d d' n s,
    ids_fresh d ->
    (human_submit_post now p_content p_title p_parent_id p_author_name d
     = (d', SubmitSuccess n s) ->
     exists c, p_content = Some c /\ n = forum_posts_id_seq d /\ s = approved
               /\ forum_posts d'
                  = (forum_posts d
                     ++ [new_post now n p_title c p_author_name human p_parent_id
                                  (thread_for d n p_parent_id) approved
                                  None None])%list)
    /\ (check_ban_status now None None p_ai_session_id d = NotBanned ->
        ai_submit_post now p_content p_title p_parent_id p_author_name
                       p_ai_model p_ai_session_id d
        = (d', SubmitSuccess n s) ->
        exists c, p_content = Some c /\ n = forum_posts_id_seq d /\ s = pending
                  /\ forum_posts d'
                     = (forum_posts d
                        ++ [new_post now n p_title c p_author_name ai p_parent_id
                                     (thread_for d n p_parent_id) pending
                                     p_ai_model p_ai_session_id])%list)
    /\ (ai_submit_with_key h now p_api_key p_content p_title p_parent_id d
        = (d', SubmitSuccess n s) ->
        exists c i, p_content = Some c
                    /\ select_identity h p_api_key d = Some i
                    /\ n = forum_posts_id_seq d
                    /\ s = (if is_true (Identity.is_trusted i)
                            then approved else pending)
                    /\ forum_posts d'
                       = (forum_posts d
                          ++ [new_post now n p_title (TRIM c)
                                       (Identity.display_name i) ai p_parent_id
                                       (thread_for d n p_parent_id) s
                                       (Identity.ai_model i)
                                       (Some (Identity.id i))])%list).
Proof.
  intros h now c ttl par name model sess key d d' n s Hfresh.
  split; [|split].
  - unfold human_submit_post.
    destruct c as [c|]; [|discriminate].
    destruct (content_too_short (Some c)); [discriminate|].
    intros H.
    apply (resolve_and_insert_appends _ _ _ _ _ _ _ _ _ _ _ _ _ _ Hfresh) in H
      as [-> [-> [_ ->]]].
    exists c. now repeat split.
  - intros Hnb. unfold ai_submit_post. rewrite Hnb.
    destruct (negb _); [discriminate|].
    destruct c as [c|]; [|discriminate].
    destruct (content_too_short (Some c)); [discriminate|].
    intros H.
    apply (resolve_and_insert_appends _ _ _ _ _ _ _ _ _ _ _ _ _ _ Hfresh) in H
      as [-> [-> [_ ->]]].
    exists c. now repeat split.
  - unfold ai_submit_with_key.
    destruct (select_identity h key d) as [i|]; [|discriminate].
    destruct c as [c|]; [|discriminate].
    destruct (content_too_short (Some c)); [discriminate|].
    destruct (resolve_and_insert _ _ _ _ _ _ _ _ _ _ d) as [d1 [m|n1 s1]] eqn:E;
      [discriminate|].
    intros H. inversion H; subst; clear H.
    apply (resolve_and_insert_appends _ _ _ _ _ _ _ _ _ _ _ _ _ _ Hfresh) in E
      as [-> [-> [_ ->]]].
    exists c, i. now repeat split.
Qed.

Lemma submit_appends_one_row_witness :
  exists c,
    Some "a reply to the first post, again" = Some c
    /\ forum_posts
         (fst (human_submit_post 900 (Some "a reply to the first post, again")
                                 None (Some 1) "Guest" (thread_db approved)))
       = (forum_posts (thread_db approved)
          ++ [new_post 900 4 None c "Guest" human (Some 1) (Some 1) approved
                       None None])%list.
Proof.
  assert (Hfresh : ids_fresh (thread_db approved)).
  { intros r Hin. simpl in Hin.
    repeat (destruct Hin as [<-|Hin]; [simpl; lia|]). contradiction. }
  destruct (submit_appends_one_row (fun k => k) 900
              (Some "a reply to the first post, again") None (Some 1) "Guest"
              None None None (thread_db approved)
              (fst (human_submit_post 900 (Some "a reply to the first post, again")
                                      None (Some 1) "Guest" (thread_db approved)))
              4 approved Hfresh) as [H _].
  destruct (H eq_refl) as [c [Hc [_ [_ Hp]]]].
  exists c. split; [exact Hc | exact Hp].
Defined.

(** ** The structure of forum_posts under every call *)

Lemma skeleton_in (l l' : list Post.t) (r' : Post.t) :
  map skeleton l' = map skeleton l -> In r' l' ->
  exists r, In r l /\ skeleton r = skeleton r'.
Proof.
  intros E Hin. apply (in_map skeleton) in Hin. rewrite E in Hin.
  apply in_map_iff in Hin as [r [Hr Hin]]. now exists r.
Qed.

Lemma skeleton_ids (l l' : list Post.t) :
  map skeleton l' = map skeleton l -> map Post.id l' = map Post.id l.
Proof.
  intros E.
  assert (H : forall k, map Post.id k = map (fun x => fst (fst (fst x))) (map skeleton k)).
  { intros k. rewrite map_map. reflexivity. }
  now rewrite (H l'), (H l), E.
Qed.

Lemma skeleton_eq (r r' : Post.t) :
  skeleton r = skeleton r' ->
  Post.id r = Post.id r' /\ Post.parent_id r = Post.parent_id r'
  /\ Post.thread_id r = Post.thread_id r' /\ Post.status r = Post.status r'.
Proof. unfold skeleton. intros H. inversion H. now repeat split. Qed.

Lemma wf_same_skeleton d d' :
  same_skeleton d d' -> posts_well_formed d -> posts_well_formed d'.
Proof.
  intros [E Es] [Hnd [Hf [Ht Hr]]]. unfold posts_well_formed, ids_fresh.
  rewrite (skeleton_ids _ _ E), Es. split; [exact Hnd|].
  split; [|split].
  - intros r' Hin. destruct (skeleton_in _ _ _ E Hin) as [r [Hr0 Hs]].
    apply skeleton_eq in Hs as [Hi _]. rewrite <- Hi. now apply Hf.
  - intros r' Hin. destruct (skeleton_in _ _ _ E Hin) as [r [Hr0 Hs]].
    apply skeleton_eq in Hs as [_ [_ [Hth _]]]. rewrite <- Hth. now apply Ht.
  - intros r' Hin Hp. destruct (skeleton_in _ _ _ E Hin) as [r [Hr0 Hs]].
    apply skeleton_eq in Hs as [Hi [Hpa [Hth _]]].
    rewrite <- Hth, <- Hi. apply Hr; [exact Hr0 | congruence].
Qed.

Lemma ndp_same_skeleton d d' :
  same_skeleton d d' -> no_deleted_parent d -> no_deleted_parent d'.
Proof.
  intros [E _] H r' q' Hr' Hq' Hp.
  destruct (skeleton_in _ _ _ E Hr') as [r [Hr Hsr]].
  destruct (skeleton_in _ _ _ E Hq') as [q [Hq Hsq]].
  apply skeleton_eq in Hsr as [_ [Hpa _]].
  apply skeleton_eq in Hsq as [Hi [_ [_ Hst]]].
  rewrite <- Hst. apply (H r q Hr Hq). congruence.
Qed.

Lemma wf_appended d d' r :
  appended d d' r -> posts_well_formed d -> posts_well_formed d'.
Proof.
  intros [Ep [Es [Hid [Hth [Hroot _]]]]] [Hnd [Hf [Ht Hr]]].
  unfold posts_well_formed, ids_fresh. rewrite Ep, Es, map_app. simpl.
  split; [|split; [|split]].
  - apply NoDup_snoc; [exact Hnd|].
    intros Hin. apply in_map_iff in Hin as [x [Hx Hin]].
    specialize (Hf x Hin). lia.
  - intros x Hin. apply in_app_or in Hin as [Hin|[<-|[]]];
      [specialize (Hf x Hin); lia | lia].
  - intros x Hin. apply in_app_or in Hin as [Hin|[<-|[]]]; [now apply Ht | exact Hth].
  - intros x Hin. apply in_app_or in Hin as [Hin|[<-|[]]]; [now apply Hr | exact Hroot].
Qed.

Lemma unique_id (l : list Post.t) (a b : Post.t) :
  NoDup (map Post.id l) -> In a l -> In b l -> Post.id a = Post.id b -> a = b.
Proof.
  induction l as [|x l IH]; intros Hnd Ha Hb E; [contradiction|].
  simpl in Hnd. inversion Hnd as [|k ks Hnot Hnd']; subst.
  destruct Ha as [->|Ha], Hb as [->|Hb].
  - reflexivity.
  - exfalso. apply Hnot. rewrite E. now apply in_map.
  - exfalso. apply Hnot. rewrite <- E. now apply in_map.
  - now apply IH.
Qed.

Lemma ndp_appended d d' r :
  appended d d' r -> parent_approved d r ->
  posts_well_formed d -> no_deleted_parent d -> no_deleted_parent d'.
Proof.
  intros [Ep [Es [Hid [Hth [Hroot Hst]]]]] Hpar [Hnd [Hf _]] H x q Hx Hq Hp.
  rewrite Ep in Hx, Hq.
  apply in_app_or in Hq as [Hq|[<-|[]]]; [|exact Hst].
  apply in_app_or in Hx as [Hx|[<-|[]]]; [now apply (H x q)|].
  destruct (Hpar _ Hp) as [q0 [Hq0 [Hid0 Hs0]]].
  rewrite (unique_id _ q q0 Hnd Hq Hq0) by congruence.
  congruence.
Qed.

Lemma same_skeleton_refl d : same_skeleton d d.
Proof. now split. Qed.

Lemma select_parent_thread_approved pid d t :
  select_parent_thread pid d = Some t ->
  exists q, In q (forum_posts d) /\ Post.id q = pid /\ Post.status q = approved.
Proof.
  unfold select_parent_thread.
  destruct (find _ (forum_posts d)) as [q|] eqn:Hf; [|discriminate].
  intros _. apply find_some in Hf as [Hin Hc].
  apply andb_true_iff in Hc as [Hid Hs]. apply Z.eqb_eq in Hid.
  exists q. repeat split; try assumption. now destruct (Post.status q).
Qed.

Lemma resolve_and_insert_shape now not_found p_title content author kind
    p_parent_id s model session d d' res :
  ids_fresh d -> s <> deleted ->
  resolve_and_insert now not_found p_title content author kind p_parent_id
                     s model session d = (d', res) ->
  same_skeleton d d'
  \/ exists r, appended d d' r /\ parent_approved d r.
Proof.
  intros Hfresh Hs H. destruct res as [msg|n s'].
  - left. unfold resolve_and_insert in H.
    destruct p_parent_id as [pid|]; [|discriminate].
    destruct (select_parent_thread pid d); [discriminate|].
    inversion H. apply same_skeleton_refl.
  - right.
    apply (resolve_and_insert_appends _ _ _ _ _ _ _ _ _ _ _ _ _ _ Hfresh) in H
      as [-> [-> [Ht ->]]].
    eexists. split.
    + unfold appended. simpl. repeat split; try assumption.
      unfold new_post. simpl. intros ->. reflexivity.
    + intros pid Hp. simpl in Hp. subst p_parent_id. simpl in Ht.
      destruct (select_parent_thread pid d) as [t|] eqn:E; [|congruence].
      exact (select_parent_thread_approved _ _ _ E).
Qed.

Lemma human_submit_post_shape now p_content p_title p_parent_id p_author_name d :
  ids_fresh d ->
  same_skeleton d (fst (human_submit_post now p_content p_title p_parent_id
                                          p_author_name d))
  \/ exists r,
       appended d (fst (human_submit_post now p_content p_title p_parent_id
                                          p_author_name d)) r
       /\ parent_approved d r.
Proof.
  intros Hf. unfold human_submit_post.
  destruct p_content as [c|]; [|left; apply same_skeleton_refl].
  destruct (content_too_short (Some c)); [left; apply same_skeleton_refl|].
  destruct (resolve_and_insert _ _ _ _ _ _ _ _ _ _ d) as [d' res] eqn:E.
  apply (resolve_and_insert_shape _ _ _ _ _ _ _ _ _ _ _ _ _ Hf) in E;
    [exact E | discriminate].
Qed.

Lemma ai_submit_post_shape now p_content p_title p_parent_id p_author_name
    p_ai_model p_ai_session_id d :
  ids_fresh d ->
  same_skeleton d (fst (ai_submit_post now p_content p_title p_parent_id
                                       p_author_name p_ai_model p_ai_session_id d))
  \/ exists r,
       appended d (fst (ai_submit_post now p_content p_title p_parent_id
                                       p_author_name p_ai_model
                                       p_ai_session_id d)) r
       /\ parent_approved d r.
Proof.
  intros Hf. unfold ai_submit_post.
  destruct (check_ban_status _ _ _ _ d) as [|k why exp];
    [|destruct k; left; apply same_skeleton_refl].
  destruct (negb _); [left; apply same_skeleton_refl|].
  destruct p_content as [c|]; [|left; apply same_skeleton_refl].
  destruct (content_too_short (Some c)); [left; apply same_skeleton_refl|].
  destruct (resolve_and_insert _ _ _ _ _ _ _ _ _ _ d) as [d' res] eqn:E.
  apply (resolve_and_insert_shape _ _ _ _ _ _ _ _ _ _ _ _ _ Hf) in E;
    [exact E | discriminate].
Qed.

Lemma ai_submit_with_key_shape (h : string -> string) now p_api_key p_content
    p_title p_parent_id d :
  ids_fresh d ->
  same_skeleton d (fst (ai_submit_with_key h now p_api_key p_content p_title
                                           p_parent_id d))
  \/ exists r,
       appended d (fst (ai_submit_with_key h now p_api_key p_content p_title
                                           p_parent_id d)) r
       /\ parent_approved d r.
Proof.
  intros Hf. unfold ai_submit_with_key.
  destruct (select_identity h p_api_key d) as [i|]; [|left; apply same_skeleton_refl].
  destruct p_content as [c|]; [|left; apply same_skeleton_refl].
  destruct (content_too_short (Some c)); [left; apply same_skeleton_refl|].
  destruct (resolve_and_insert _ _ _ _ _ _ _ _ _ _ d) as [d' res] eqn:E.
  apply (resolve_and_insert_shape _ _ _ _ _ _ _ _ _ _ _ _ _ Hf) in E.
  - destruct res as [m|n s]; [exact E|].
    destruct E as [E|[r [Ha Hp]]]; [left; exact E|].
    right. exists r. split; [exact Ha | exact Hp].
  - now destruct (is_true (Identity.is_trusted i)).
Qed.

Lemma create_forum_post_shape uid v_display_name now p_title p_content
    p_parent_id p_author_type p_ai_model p_ai_session_id d :
  ids_fresh d ->
  same_skeleton d (fst (create_forum_post uid v_display_name now p_title
                          p_content p_parent_id p_author_type p_ai_model
                          p_ai_session_id d))
  \/ exists r,
       appended d (fst (create_forum_post uid v_display_name now p_title
                          p_content p_parent_id p_author_type p_ai_model
                          p_ai_session_id d)) r.
Proof.
  intros Hfresh. unfold create_forum_post.
  destruct uid as [u|]; [|left; apply same_skeleton_refl].
  assert (Hs : (if author_kind_eqb p_author_type ai then pending else approved)
               <> deleted)
    by (destruct (author_kind_eqb p_author_type ai); discriminate).
  destruct p_parent_id as [pid|].
  - destruct (find _ (forum_posts d)) as [q|]; [|left; apply same_skeleton_refl].
    right. eexists. unfold appended, insert_forum_post. simpl.
    repeat split; try discriminate; exact Hs.
  - right. eexists. unfold appended, insert_forum_post, set_thread_for_top_level.
    simpl. rewrite update_forum_posts_same_status by (intros ?; reflexivity).
    rewrite map_app. simpl. rewrite Z.eqb_refl.
    rewrite (map_id_on _ (forum_posts d)).
    + repeat split; try discriminate; exact Hs.
    + intros r Hin.
      destruct (Z.eqb_spec (Post.id r) (forum_posts_id_seq d)) as [E|E];
        [|reflexivity].
      specialize (Hfresh r Hin). lia.
Qed.

Lemma fire_vote_triggers_skeleton now evs :
  forall posts,
    map skeleton (fire_vote_triggers now evs posts) = map skeleton posts.
Proof.
  unfold fire_vote_triggers.
  induction evs as [|ev evs IH]; intros posts; simpl; [reflexivity|].
  rewrite IH.
  destruct ev as [NEW|OLD|OLD NEW]; simpl;
    rewrite update_forum_posts_same_status by (intros ?; reflexivity);
    rewrite map_map; apply map_ext; intros r; now destruct (Z.eqb _ _).
Qed.

Lemma toggle_vote_shape uid now p_post_id p_vote_type d :
  same_skeleton d (fst (toggle_vote uid now p_post_id p_vote_type d)).
Proof.
  destruct (toggle_vote_effect uid now p_post_id p_vote_type d)
    as [-> | [evs [votes' [seq' [-> _]]]]]; [apply same_skeleton_refl|].
  split; [apply fire_vote_triggers_skeleton | reflexivity].
Qed.

Lemma check_ai_trigger_shape now v_random v_random2 d :
  same_skeleton d (fst (check_ai_trigger now v_random v_random2 d)).
Proof.
  unfold check_ai_trigger.
  destruct (negb _); [now split|].
  destruct (Settings.cast_error _); [now split|].
  destruct (Z.geb _ _); [now split|].
  destruct (negb _); [now split|].
  destruct (available_personas _ _ _); [now split|].
  destruct (choose_persona _ _); now split.
Qed.

Lemma ban_user_shape uid now u ip s k why days d :
  same_skeleton d (fst (ban_user uid now u ip s k why days d)).
Proof.
  unfold ban_user. destruct uid; [|now split]. destruct (negb _); now split.
Qed.

Lemma register_forum_ai_shape (h : string -> string) now new_id random_hex
    p_display_name p_ai_model p_bio d :
  same_skeleton d (fst (register_forum_ai h now new_id random_hex p_display_name
                                          p_ai_model p_bio d)).
Proof.
  unfold register_forum_ai.
  destruct p_display_name as [name|]; [|now split].
  destruct (Z.ltb _ 2); [now split|].
  destruct (name_taken name d); [now split|].
  destruct (varchar 8 _); [|now split].
  destruct (varchar 64 _); [|now split].
  destruct (varchar 50 _); [|now split].
  destruct (match p_ai_model with Some m => _ | None => _ end); [|now split].
  destruct (existsb _ _); [now split|].
  destruct (existsb _ _); now split.
Qed.

Lemma action_is_true (p_action : option string) (a : string) :
  action_is p_action a = true <-> p_action = Some a.
Proof.
  unfold action_is. destruct p_action as [x|]; simpl.
  - destruct (String.eqb_spec x a); split; congruence.
  - split; discriminate.
Qed.

Lemma existsb_same {A : Type} (f g : A -> bool) (l : list A) :
  (forall x, f x = g x) -> existsb f l = existsb g l.
Proof. intros H. induction l as [|x l IH]; simpl; [reflexivity | now rewrite H, IH]. Qed.

(** forum_posts after a moderation call, for every action. *)
Lemma moderate_posts uid now p_post_id p_action d :
  forum_posts_id_seq (fst (moderate_forum_post uid now p_post_id p_action d))
  = forum_posts_id_seq d
  /\ forum_posts (fst (moderate_forum_post uid now p_post_id p_action d))
     = match uid, p_post_id with
       | Some u, Some p =>
           if privileged uid d
           then
             let stamped :=
               map (fun r => if Z.eqb (Post.id r) p
                             then stamp u now p_action r else r)
                   (forum_posts d) in
             if action_is p_action "delete"
                && existsb (fun r => Z.eqb (Post.id r) p
                                     && negb (post_status_eqb (Post.status r) deleted))
                           (forum_posts d)
             then promote_children now p stamped
             else stamped
           else forum_posts d
       | _, _ => forum_posts d
       end.
Proof.
  unfold moderate_forum_post, privileged.
  destruct uid as [u|]; [|now split].
  destruct (COALESCE (select_is_mod u d) false); simpl;
    [|split; [reflexivity | now destruct p_post_id]].
  split; [reflexivity|].
  destruct p_post_id as [p|].
  - unfold update_forum_posts.
    assert (Hmap : map (fun r => if id_is (Some (Post.id r)) (Some p)
                                 then update_forum_post_timestamp now
                                        (with_moderation r (moderated_status p_action r)
                                                         (Some u) (Some now))
                                 else r) (forum_posts d)
                   = map (fun r => if Z.eqb (Post.id r) p
                                   then stamp u now p_action r else r)
                         (forum_posts d)).
    { apply map_ext. intros r. now rewrite id_is_Some. }
    rewrite Hmap.
    destruct (action_is p_action "delete") eqn:Hdel.
    + apply action_is_true in Hdel. subst p_action.
      rewrite (after_triggers_delete now p).
      * rewrite existsb_filter_map. simpl.
        erewrite existsb_same; [reflexivity|].
        intros r. simpl. now rewrite id_is_Some.
      * apply Forall_forall. intros [OLD NEW] H.
        apply in_map_iff in H as [r [Heq Hr]]. inversion Heq; subst; clear Heq.
        apply filter_In in Hr as [_ Hr]. rewrite id_is_Some in Hr.
        apply Z.eqb_eq in Hr. simpl. now split.
    + simpl. apply after_triggers_quiet.
      apply Forall_forall. intros [OLD NEW] H.
      apply in_map_iff in H as [r [Heq _]]. inversion Heq; subst; clear Heq.
      simpl. unfold moderated_status. rewrite Hdel.
      destruct (action_is p_action "approve"); [left; discriminate|].
      destruct (action_is p_action "reject"); [left; discriminate|].
      destruct (Post.status OLD); (left; discriminate) || (right; reflexivity).
  - unfold update_forum_posts. simpl. rewrite map_id.
    replace (filter _ (forum_posts d)) with (@nil Post.t); [reflexivity|].
    symmetry. induction (forum_posts d) as [|x l IH]; simpl; [reflexivity|].
    exact IH.
Qed.

(** Row by row, moderation keeps the id and either keeps parent and
    thread or makes the row a root of its own thread. *)
Lemma moderate_rows uid now p_post_id p_action d :
  exists g : Post.t -> Post.t,
    forum_posts (fst (moderate_forum_post uid now p_post_id p_action d))
    = map g (forum_posts d)
    /\ forall r, Post.id (g r) = Post.id r
                 /\ ((Post.parent_id (g r) = Post.parent_id r
                      /\ Post.thread_id (g r) = Post.thread_id r)
                     \/ (Post.parent_id (g r) = None
                         /\ Post.thread_id (g r) = Some (Post.id r))).
Proof.
  destruct (moderate_posts uid now p_post_id p_action d) as [_ ->].
  assert (Hid : exists g : Post.t -> Post.t,
             forum_posts d = map g (forum_posts d)
             /\ forall r, Post.id (g r) = Post.id r
                          /\ ((Post.parent_id (g r) = Post.parent_id r
                               /\ Post.thread_id (g r) = Post.thread_id r)
                              \/ (Post.parent_id (g r) = None
                                  /\ Post.thread_id (g r) = Some (Post.id r)))).
  { exists (fun r => r). split; [now rewrite map_id|]. intros r. split; auto. }
  destruct uid as [u|]; [|exact Hid].
  destruct p_post_id as [p|]; [|exact Hid].
  destruct (privileged (Some u) d); [|exact Hid]. cbv zeta.
  destruct (_ && _).
  - unfold promote_children. rewrite map_map.
    exists (fun r =>
              if id_is (Post.parent_id (if Z.eqb (Post.id r) p
                                        then stamp u now p_action r else r))
                       (Some p)
              then update_forum_post_timestamp now
                     (promote (if Z.eqb (Post.id r) p
                               then stamp u now p_action r else r))
              else if Z.eqb (Post.id r) p then stamp u now p_action r else r).
    split; [reflexivity|]. intros r.
    destruct (Z.eqb (Post.id r) p); simpl;
      destruct (id_is (Post.parent_id r) (Some p)); simpl; auto.
  - exists (fun r => if Z.eqb (Post.id r) p then stamp u now p_action r else r).
    split; [reflexivity|]. intros r.
    destruct (Z.eqb (Post.id r) p); simpl; auto.
Qed.

Lemma wf_moderate uid now p_post_id p_action d :
  posts_well_formed d ->
  posts_well_formed (fst (moderate_forum_post uid now p_post_id p_action d)).
Proof.
  intros [Hnd [Hf [Ht Hr]]].
  destruct (moderate_rows uid now p_post_id p_action d) as [g [Eg Hg]].
  destruct (moderate_posts uid now p_post_id p_action d) as [Es _].
  unfold posts_well_formed, ids_fresh. rewrite Eg, Es.
  assert (Hids : map Post.id (map g (forum_posts d)) = map Post.id (forum_posts d)).
  { rewrite map_map. apply map_ext. intros r. apply Hg. }
  rewrite Hids. split; [exact Hnd|]. split; [|split].
  - intros r' Hin. apply in_map_iff in Hin as [r [<- Hin]].
    destruct (Hg r) as [-> _]. now apply Hf.
  - intros r' Hin. apply in_map_iff in Hin as [r [<- Hin]].
    destruct (Hg r) as [_ [[_ ->]|[_ ->]]]; [now apply Ht | discriminate].
  - intros r' Hin Hp. apply in_map_iff in Hin as [r [<- Hin]].
    destruct (Hg r) as [Hi [[Hpa Hth]|[_ Hth]]]; rewrite Hth, Hi; [|reflexivity].
    apply Hr; [exact Hin | congruence].
Qed.

Lemma stamp_columns u now p_action r :
  Post.id (stamp u now p_action r) = Post.id r
  /\ Post.parent_id (stamp u now p_action r) = Post.parent_id r
  /\ Post.status (stamp u now p_action r) = moderated_status p_action r.
Proof. now repeat split. Qed.

Lemma moderated_status_deleted p_action r :
  moderated_status p_action r = deleted ->
  Post.status r = deleted \/ action_is p_action "delete" = true.
Proof.
  unfold moderated_status.
  destruct (action_is p_action "approve"); [discriminate|].
  destruct (action_is p_action "reject"); [discriminate|].
  destruct (action_is p_action "delete"); auto.
Qed.

Lemma ndp_moderate uid now p_post_id p_action d :
  no_deleted_parent d ->
  no_deleted_parent (fst (moderate_forum_post uid now p_post_id p_action d)).
Proof.
  intros H. unfold no_deleted_parent.
  destruct (moderate_posts uid now p_post_id p_action d) as [_ ->].
  destruct uid as [u|]; [|exact H].
  destruct p_post_id as [p|]; [|exact H].
  destruct (privileged (Some u) d); [|exact H]. cbv zeta.
  set (stamped := map (fun r => if Z.eqb (Post.id r) p
                                then stamp u now p_action r else r)
                      (forum_posts d)).
  assert (Hst : forall x q,
             In x stamped -> In q stamped ->
             Post.parent_id x = Some (Post.id q) -> Post.status q = deleted ->
             Post.id q = p /\ action_is p_action "delete" = true
             /\ exists q0, In q0 (forum_posts d) /\ Post.id q0 = p
                           /\ Post.status q0 <> deleted).
  { intros x q Hx Hq Hp Hd.
    apply in_map_iff in Hx as [x0 [Ex Hx0]].
    apply in_map_iff in Hq as [q0 [Eq Hq0]].
    assert (Hpx : Post.parent_id x = Post.parent_id x0)
      by (subst x; now destruct (Z.eqb (Post.id x0) p)).
    assert (Hiq : Post.id q = Post.id q0)
      by (subst q; now destruct (Z.eqb (Post.id q0) p)).
    assert (Hq0nd : Post.status q0 <> deleted)
      by (apply (H x0 q0 Hx0 Hq0); congruence).
    destruct (Z.eqb_spec (Post.id q0) p) as [E|E]; subst q; [|contradiction].
    simpl in Hd. apply moderated_status_deleted in Hd as [Hd|Hd]; [contradiction|].
    split; [congruence|]. split; [exact Hd|]. now exists q0. }
  destruct (action_is p_action "delete" && _) eqn:Hcond.
  - intros x q Hx Hq Hp Hd.
    unfold promote_children in Hx, Hq.
    apply in_map_iff in Hx as [x1 [Ex Hx1]].
    apply in_map_iff in Hq as [q1 [Eq Hq1]].
    destruct (id_is (Post.parent_id x1) (Some p)) eqn:Hpx1;
      [subst x; discriminate|]. subst x.
    assert (Hq : Post.id q = Post.id q1 /\ Post.status q = Post.status q1)
      by (subst q; now destruct (id_is (Post.parent_id q1) (Some p))).
    destruct Hq as [Hiq Hsq].
    destruct (Hst x1 q1 Hx1 Hq1) as [Hid _]; [congruence | congruence |].
    assert (Hc : id_is (Post.parent_id x1) (Some p) = true)
      by (apply id_is_true; congruence).
    congruence.
  - intros x q Hx Hq Hp Hd.
    destruct (Hst x q Hx Hq Hp Hd) as [Hid [Hdel [q0 [Hq0 [Hi0 Hs0]]]]].
    rewrite Hdel in Hcond. simpl in Hcond.
    apply Bool.not_true_iff_false in Hcond. apply Hcond.
    apply existsb_exists. exists q0. split; [exact Hq0|].
    rewrite Hi0, Z.eqb_refl. simpl. now destruct (Post.status q0).
Qed.

Lemma run_call_well_formed (h : string -> string) (c : forum_call) (d : db) :
  posts_well_formed d -> posts_well_formed (run_call h c d).
Proof.
  intros Hwf. pose proof Hwf as [_ [Hf _]].
  destruct c; simpl.
  - destruct (human_submit_post_shape now p_content p_title p_parent_id
                p_author_name d Hf) as [S|[r [A _]]];
      [exact (wf_same_skeleton _ _ S Hwf) | exact (wf_appended _ _ _ A Hwf)].
  - destruct (ai_submit_post_shape now p_content p_title p_parent_id
                p_author_name p_ai_model p_ai_session_id d Hf) as [S|[r [A _]]];
      [exact (wf_same_skeleton _ _ S Hwf) | exact (wf_appended _ _ _ A Hwf)].
  - destruct (ai_submit_with_key_shape h now p_api_key p_content p_title
                p_parent_id d Hf) as [S|[r [A _]]];
      [exact (wf_same_skeleton _ _ S Hwf) | exact (wf_appended _ _ _ A Hwf)].
  - destruct (create_forum_post_shape uid v_display_name now p_title p_content
                p_parent_id p_author_type p_ai_model p_ai_session_id d Hf)
      as [S|[r A]];
      [exact (wf_same_skeleton _ _ S Hwf) | exact (wf_appended _ _ _ A Hwf)].
  - now apply wf_moderate.
  - exact (wf_same_skeleton _ _ (toggle_vote_shape _ _ _ _ _) Hwf).
  - exact (wf_same_skeleton _ _ (check_ai_trigger_shape _ _ _ _) Hwf).
  - destruct (references_post p_post_id d); [|exact Hwf].
    apply (wf_same_skeleton d); [now split | exact Hwf].
  - exact (wf_same_skeleton _ _ (ban_user_shape _ _ _ _ _ _ _ _ _) Hwf).
  - exact (wf_same_skeleton _ _ (register_forum_ai_shape _ _ _ _ _ _ _ _) Hwf).
Qed.

Lemma run_call_no_deleted_parent (h : string -> string) (c : forum_call) (d : db) :
  is_create_post c = false ->
  posts_well_formed d -> no_deleted_parent d ->
  no_deleted_parent (run_call h c d).
Proof.
  intros Hc Hwf Hn. pose proof Hwf as [_ [Hf _]].
  destruct c; simpl; try discriminate Hc.
  - destruct (human_submit_post_shape now p_content p_title p_parent_id
                p_author_name d Hf) as [S|[r [A P]]];
      [exact (ndp_same_skeleton _ _ S Hn) | exact (ndp_appended _ _ _ A P Hwf Hn)].
  - destruct (ai_submit_post_shape now p_content p_title p_parent_id
                p_author_name p_ai_model p_ai_session_id d Hf) as [S|[r [A P]]];
      [exact (ndp_same_skeleton _ _ S Hn) | exact (ndp_appended _ _ _ A P Hwf Hn)].
  - destruct (ai_submit_with_key_shape h now p_api_key p_content p_title
                p_parent_id d Hf) as [S|[r [A P]]];
      [exact (ndp_same_skeleton _ _ S Hn) | exact (ndp_appended _ _ _ A P Hwf Hn)].
  - now apply ndp_moderate.
  - exact (ndp_same_skeleton _ _ (toggle_vote_shape _ _ _ _ _) Hn).
  - exact (ndp_same_skeleton _ _ (check_ai_trigger_shape _ _ _ _) Hn).
  - destruct (references_post p_post_id d); [|exact Hn].
    apply (ndp_same_skeleton d); [now split | exact Hn].
  - exact (ndp_same_skeleton _ _ (ban_user_shape _ _ _ _ _ _ _ _ _) Hn).
  - exact (ndp_same_skeleton _ _ (register_forum_ai_shape _ _ _ _ _ _ _ _) Hn).
Qed.

(** X11.  The structure of the post table under every sequence of
    calls (the four submit functions, moderation, votes, trigger
    evaluation, ledger recording, bans, registration): the ids stay
    distinct and below the sequence, every row has a thread, and every row
    without a parent is the root of its own thread. *)
Theorem posts_stay_well_formed :
  forall (h : string -> string) calls d,
    posts_well_formed d -> posts_well_formed (run_calls h calls d).
Proof.
  intros h calls. unfold run_calls.
  induction calls as [|c calls IH]; intros d Hwf; simpl; [exact Hwf|].
  apply IH. now apply run_call_well_formed.
Qed.

(** X12.  No child of a deleted post.  Starting from a well-formed table
    in which no row names a deleted post as its parent, this stays true
    under every sequence of calls of these database functions:
    human_submit_post, ai_submit_post, ai_submit_with_key,
    moderate_forum_post (with the triggers it fires), toggle_vote,
    check_ai_trigger, record_ai_post, ban_user and register_forum_ai.
    These submit functions accept a reply under an approved parent only,
    and the delete that follows promotes it.  Two writers are outside the
    statement, because each of them can store a reply under a deleted
    post: create_forum_post, and the responder's forceRespond, which
    writes to the table directly (the two lemmas after the witnesses show
    both). *)
Theorem no_reply_under_deleted_post :
  forall (h : string -> string) calls d,
    (forall c, In c calls -> is_create_post c = false) ->
    posts_well_formed d -> no_deleted_parent d ->
    no_deleted_parent (run_calls h calls d).
Proof.
  intros h calls. unfold run_calls.
  induction calls as [|c calls IH]; intros d Hc Hwf Hn; simpl; [exact Hn|].
  apply IH.
  - intros c' Hin. apply Hc. now right.
  - now apply run_call_well_formed.
  - apply run_call_no_deleted_parent; [apply Hc; now left | assumption..].
Qed.

Lemma thread_db_well_formed s : posts_well_formed (thread_db s).
Proof.
  repeat split.
  - simpl. repeat constructor; simpl; intuition lia.
  - intros r Hin. simpl in Hin.
    repeat (destruct Hin as [<-|Hin]; [simpl; lia|]). contradiction.
  - intros r Hin. simpl in Hin.
    repeat (destruct Hin as [<-|Hin]; [discriminate|]). contradiction.
  - intros r Hin. simpl in Hin.
    repeat (destruct Hin as [<-|Hin]; [simpl; intros; congruence|]). contradiction.
Qed.

Lemma thread_db_no_deleted_parent : no_deleted_parent (thread_db approved).
Proof.
  intros r q Hr Hq _. simpl in Hq.
  repeat (destruct Hq as [<-|Hq]; [discriminate|]). contradiction.
Qed.

Lemma posts_stay_well_formed_witness :
  posts_well_formed
    (run_calls (fun k => k)
       [CallHumanSubmit 900 (Some "one more reply to the root") None (Some 1) "Guest";
        CallModerate (Some "mod-1") 950 (Some 1) (Some "delete");
        CallCreatePost (Some "user-1") "Ann" 960 None "late" (Some 1) human None None;
        CallToggleVote (Some "user-1") 970 (Some 2) (Some 1)]
       (thread_db approved)).
Proof.
  apply posts_stay_well_formed. apply thread_db_well_formed.
Defined.

Lemma no_reply_under_deleted_post_witness :
  no_deleted_parent
    (run_calls (fun k => k)
       [CallHumanSubmit 900 (Some "one more reply to the root") None (Some 1) "Guest";
        CallModerate (Some "mod-1") 950 (Some 1) (Some "delete");
        CallAiSubmit 960 (Some "a reply that comes too late") None (Some 1)
                     "Bot" None None;
        CallModerate (Some "mod-1") 970 (Some 1) (Some "delete")]
       (thread_db approved)).
Proof.
  apply no_reply_under_deleted_post.
  - intros c Hin. simpl in Hin.
    repeat (destruct Hin as [<-|Hin]; [reflexivity|]). contradiction.
  - apply thread_db_well_formed.
  - apply thread_db_no_deleted_parent.
Defined.

(** create_forum_post looks the parent up without a test on its status:
    on the thread whose root is deleted it stores a reply under that
    root, and a second delete of the root leaves the reply where it is. *)
Lemma create_forum_post_replies_under_deleted_post :
  map (fun r => (Post.id r, Post.parent_id r, Post.status r))
      (forum_posts
         (run_calls (fun k => k)
            [CallModerate (Some "mod-1") 950 (Some 1) (Some "delete");
             CallCreatePost (Some "user-1") "Ann" 960 None "late" (Some 1)
                            human None None;
             CallModerate (Some "mod-1") 970 (Some 1) (Some "delete")]
            (thread_db approved)))
  = [(1, None, deleted); (2, None, approved); (3, Some 2, approved);
     (4, Some 1, approved)].
Proof. reflexivity. Qed.

(** forceRespond takes the post named in the payload as its target
    whatever its status: once the root of the thread is deleted, it
    stores an approved reply under that root. *)
Lemma forceRespond_replies_under_deleted_post :
  map (fun r => (Post.id r, Post.parent_id r, Post.status r))
      (forum_posts
         (fst (forceRespond (fun _ => None) 5000 5001 5002 (1 # 2) (1 # 2)
                 (1 # 2) "1700" (Some "Luna") (Some 1) None
                 (fst (moderate_forum_post (Some "mod-1") 950 (Some 1)
                                           (Some "delete")
                                           (thread_db approved))))))
  = [(1, None, deleted); (2, None, approved); (3, Some 2, approved);
     (4, Some 1, approved)].
Proof. reflexivity. Qed.

(** ** The read paths: what is shown, and when *)

Lemma insert_by_in {A : Type} (key : A -> Z) (r x : A) (l : list A) :
  In x (insert_by key r l) <-> x = r \/ In x l.
Proof.
  induction l as [|y l IH]; simpl.
  - intuition.
  - destruct (Z.leb (key r) (key y)); simpl; [intuition|].
    rewrite IH. intuition.
Qed.

Lemma order_by_in {A : Type} (key : A -> Z) (x : A) (l : list A) :
  In x (order_by key l) <-> In x l.
Proof.
  unfold order_by. induction l as [|y l IH]; simpl; [reflexivity|].
  rewrite insert_by_in, IH. intuition.
Qed.

Lemma insert_by_ascending {A : Type} (key : A -> Z) (r : A) (l : list A) :
  ascending key l -> ascending key (insert_by key r l).
Proof.
  induction l as [|y l IH]; simpl; intros H.
  - split; [intros ? []|exact I].
  - destruct H as [Hy Hl]. destruct (Z.leb_spec (key r) (key y)); simpl.
    + split; [|now split].
      intros z [<-|Hz]; [assumption|]. specialize (Hy z Hz). lia.
    + split; [|now apply IH].
      intros z Hz. apply insert_by_in in Hz as [->|Hz]; [lia | now apply Hy].
Qed.

Lemma order_by_ascending {A : Type} (key : A -> Z) (l : list A) :
  ascending key (order_by key l).
Proof.
  unfold order_by. induction l as [|y l IH]; simpl; [exact I|].
  now apply insert_by_ascending.
Qed.

Lemma limit_offset_none {A : Type} (l : list A) :
  limit_offset None None l = Some l.
Proof. reflexivity. Qed.

Lemma In_firstn {A : Type} (n : nat) (l : list A) (x : A) :
  In x (firstn n l) -> In x l.
Proof.
  revert l. induction n as [|n IH]; intros [|y l]; simpl; try tauto.
  intros [H|H]; [now left | right; now apply IH].
Qed.

Lemma In_skipn {A : Type} (n : nat) (l : list A) (x : A) :
  In x (skipn n l) -> In x l.
Proof.
  revert l. induction n as [|n IH]; intros [|y l]; simpl; try tauto.
  intros H. right. now apply IH.
Qed.

Lemma limit_offset_in {A : Type} (pl po : option Z) (l page : list A) (x : A) :
  limit_offset pl po l = Some page -> In x page -> In x l.
Proof.
  unfold limit_offset. destruct (_ || _); [discriminate|].
  intros H. inversion H; subst; clear H.
  destruct pl as [n|]; intros Hin.
  - apply In_firstn in Hin. now apply In_skipn in Hin.
  - now apply In_skipn in Hin.
Qed.

Lemma is_approved_true (r : Post.t) :
  is_approved r = true <-> Post.status r = approved.
Proof. unfold is_approved. destruct (Post.status r); simpl; split; congruence. Qed.

(** Whatever a view shows is an approved row of the table. *)
Lemma view_ids_approved p_thread_id p_limit p_offset d n :
  In n (view_ids (get_forum_posts p_thread_id p_limit p_offset d)) ->
  exists r, In r (forum_posts d) /\ Post.id r = n /\ Post.status r = approved.
Proof.
  unfold get_forum_posts. destruct p_thread_id as [t|]; simpl.
  - intros H. apply in_map_iff in H as [x [Hx Hin]].
    apply order_by_in, in_map_iff in Hin as [r [Hr Hin]].
    apply filter_In in Hin as [Hin Hf]. unfold in_thread_view in Hf.
    apply andb_true_iff in Hf as [_ Hf]. apply is_approved_true in Hf.
    exists r. subst. now repeat split.
  - destruct (limit_offset _ _ _) as [page|] eqn:Hp; simpl; [|intros []].
    intros H. apply in_flat_map in H as [x [Hx Hin]].
    apply order_by_in, in_map_iff in Hx as [fp [Hfp Hpage]].
    apply (limit_offset_in _ _ _ _ _ Hp), order_by_in, filter_In in Hpage
      as [Hfpin Hroot].
    subst x. simpl in Hin. destruct Hin as [<-|Hin].
    + unfold is_listed_root in Hroot. apply andb_true_iff in Hroot as [_ Hf].
      apply is_approved_true in Hf. exists fp. now repeat split.
    + apply in_map_iff in Hin as [y [Hy Hin]].
      apply order_by_in, in_map_iff in Hin as [r [Hr Hin]].
      apply filter_In in Hin as [Hin Hf]. unfold is_reply_under in Hf.
      apply andb_true_iff in Hf as [_ Hf]. apply is_approved_true in Hf.
      exists r. subst. now repeat split.
Qed.

(** An approved row is in the view of its thread, whatever limit and
    offset are passed. *)
Lemma thread_view_shows r t p_limit p_offset d :
  In r (forum_posts d) -> Post.status r = approved ->
  Post.thread_id r = Some t ->
  exists rows,
    get_forum_posts (Some t) p_limit p_offset d = ThreadView rows
    /\ In (thread_row_of r) rows.
Proof.
  intros Hin Hs Ht. eexists. split; [reflexivity|].
  apply order_by_in, in_map, filter_In. split; [assumption|].
  unfold in_thread_view. rewrite Ht, id_is_Some, Z.eqb_refl, orb_true_r.
  now apply is_approved_true.
Qed.

(** An approved row without parent is a root of the unlimited list. *)
Lemma list_view_shows r d :
  In r (forum_posts d) -> Post.status r = approved -> Post.parent_id r = None ->
  exists rows,
    get_forum_posts None None None d = ListView rows
    /\ In (root_row_of (forum_posts d) r) rows.
Proof.
  intros Hin Hs Hp. unfold get_forum_posts. rewrite limit_offset_none.
  eexists. split; [reflexivity|].
  apply order_by_in, in_map, order_by_in, filter_In. split; [assumption|].
  unfold is_listed_root. rewrite Hp. now apply is_approved_true.
Qed.

Lemma pending_ids_pending uid d n :
  In n (pending_ids (get_pending_posts uid d)) ->
  exists r, In r (forum_posts d) /\ Post.id r = n /\ Post.status r = pending.
Proof.
  unfold get_pending_posts. destruct uid as [u|]; [|intros []].
  destruct (negb _); [intros []|]. simpl.
  intros H. apply in_map_iff in H as [x [Hx Hin]].
  apply in_map_iff in Hin as [r [Hr Hin]].
  apply order_by_in, filter_In in Hin as [Hin Hf].
  exists r. subst. repeat split; [assumption|].
  unfold is_pending in Hf. destruct (Post.status r); simpl in Hf; congruence.
Qed.

Lemma pending_queue_shows u r d :
  privileged (Some u) d = true ->
  In r (forum_posts d) -> Post.status r = pending ->
  exists rows,
    get_pending_posts (Some u) d = PendingRows rows
    /\ In (pending_row_of r) rows.
Proof.
  intros Hp Hin Hs. unfold get_pending_posts. simpl in Hp. rewrite Hp. simpl.
  eexists. split; [reflexivity|].
  apply in_map, order_by_in, filter_In. split; [assumption|].
  unfold is_pending. now rewrite Hs.
Qed.

(** What the list view shows is an approved root, or an approved row with
    a parent whose thread_id names an approved root. *)
Lemma list_view_ids p_limit p_offset d n :
  In n (view_ids (get_forum_posts None p_limit p_offset d)) ->
  (exists r, In r (forum_posts d) /\ Post.id r = n
             /\ Post.parent_id r = None /\ Post.status r = approved)
  \/ (exists r fp, In r (forum_posts d) /\ In fp (forum_posts d)
                   /\ Post.id r = n /\ Post.thread_id r = Some (Post.id fp)
                   /\ Post.parent_id r <> None /\ Post.status r = approved
                   /\ Post.parent_id fp = None /\ Post.status fp = approved).
Proof.
  unfold get_forum_posts.
  destruct (limit_offset _ _ _) as [page|] eqn:Hp; simpl; [|intros []].
  intros H. apply in_flat_map in H as [x [Hx Hin]].
  apply order_by_in, in_map_iff in Hx as [fp [Hfp Hpage]].
  apply (limit_offset_in _ _ _ _ _ Hp), order_by_in, filter_In in Hpage
    as [Hfpin Hroot].
  unfold is_listed_root in Hroot. apply andb_true_iff in Hroot as [Hnull Hf].
  apply is_approved_true in Hf.
  assert (Hpar : Post.parent_id fp = None)
    by (destruct (Post.parent_id fp); [discriminate | reflexivity]).
  subst x. simpl in Hin. destruct Hin as [<-|Hin].
  - left. exists fp. now repeat split.
  - right. apply in_map_iff in Hin as [y [Hy Hin]].
    apply order_by_in, in_map_iff in Hin as [r [Hr Hin]].
    apply filter_In in Hin as [Hin Hr']. unfold is_reply_under in Hr'.
    apply andb_true_iff in Hr' as [Hr' Hra].
    apply andb_true_iff in Hr' as [Hth Hnn].
    apply is_approved_true in Hra. apply id_is_true in Hth.
    exists r, fp. subst. repeat split; try assumption.
    intros E. rewrite E in Hnn. discriminate.
Qed.

(** Moderation seen on (id, status). *)
Lemma moderate_id_status uid now p_post_id p_action d :
  map (fun r => (Post.id r, Post.status r))
      (forum_posts (fst (moderate_forum_post uid now p_post_id p_action d)))
  = map (fun r =>
           (Post.id r,
            if privileged uid d && id_is (Some (Post.id r)) p_post_id
            then moderated_status p_action r
            else Post.status r))
        (forum_posts d).
Proof.
  unfold moderate_forum_post, privileged.
  destruct uid as [u|]; simpl.
  - destruct (COALESCE (select_is_mod u d) false); simpl.
    + rewrite (update_forum_posts_observe
                 (fun r => (Post.id r, Post.status r))); try reflexivity.
      apply map_ext. intros r. now destruct (id_is _ _).
    + apply map_ext. reflexivity.
  - apply map_ext. reflexivity.
Qed.

(** After a privileged approve, reject or delete, every row under the
    named id has the status of the action. *)
Lemma moderated_row_status u now p a s d r' :
  privileged (Some u) d = true ->
  (forall r, moderated_status (Some a) r = s) ->
  In r' (forum_posts (fst (moderate_forum_post (Some u) now (Some p) (Some a) d))) ->
  Post.id r' = p -> Post.status r' = s.
Proof.
  intros Hp Hs Hin Hid.
  apply (in_map (fun r => (Post.id r, Post.status r))) in Hin.
  rewrite moderate_id_status, Hp in Hin.
  apply in_map_iff in Hin as [r [E _]]. injection E as E1 E2.
  rewrite <- E2, id_is_Some, E1, Hid, Z.eqb_refl. simpl. apply Hs.
Qed.

(** X13.  A post accepted by human_submit_post is public at once: the
    view of its thread lists it with the columns that were passed,
    whatever limit and offset are given there, and a top-level one is a
    root of the unlimited list view. *)
Theorem human_post_is_shown_at_once :
  forall now c p_title p_parent_id p_author_name d d' n s,
    ids_fresh d ->
    human_submit_post now (Some c) p_title p_parent_id p_author_name d
    = (d', SubmitSuccess n s) ->
    exists t,
      thread_for d n p_parent_id = Some t
      /\ (forall p_limit p_offset, exists rows,
             get_forum_posts (Some t) p_limit p_offset d' = ThreadView rows
             /\ In (ThreadRow.mk n p_title c p_author_name human p_parent_id
                                 (Some t) now None) rows)
      /\ (p_parent_id = None ->
          exists rows row,
            get_forum_posts None None None d' = ListView rows
            /\ In row rows /\ RootRow.id row = n /\ RootRow.title row = p_title
            /\ RootRow.content row = c
            /\ RootRow.author_name row = p_author_name
            /\ RootRow.created_at row = now).
Proof.
  intros now c ttl par name d d' n s Hfresh. unfold human_submit_post.
  destruct (content_too_short (Some c)); [discriminate|].
  intros H.
  apply (resolve_and_insert_appends _ _ _ _ _ _ _ _ _ _ _ _ _ _ Hfresh) in H
    as [-> [-> [Ht ->]]].
  destruct (thread_for d (forum_posts_id_seq d) par) as [t|] eqn:Et;
    [|now contradiction Ht].
  exists t. split; [reflexivity|].
  set (row := new_post now (forum_posts_id_seq d) ttl c name human par (Some t)
                       approved None None).
  assert (Hin : In row (forum_posts d ++ [row])%list)
    by (apply in_or_app; right; now left).
  split.
  - intros l o.
    apply (thread_view_shows row t l o
             (set_forum_posts_id_seq
                (set_forum_posts d (forum_posts d ++ [row])%list)
                (forum_posts_id_seq d + 1))); [exact Hin | reflexivity..].
  - intros ->.
    destruct (list_view_shows row
                (set_forum_posts_id_seq
                   (set_forum_posts d (forum_posts d ++ [row])%list)
                   (forum_posts_id_seq d + 1)) Hin eq_refl eq_refl)
      as [rows [Hv Hr]].
    exists rows, (root_row_of (forum_posts d ++ [row])%list row).
    split; [exact Hv|]. split; [exact Hr|]. now repeat split.
Qed.

Lemma thread_db_fresh s : ids_fresh (thread_db s).
Proof.
  intros r Hin. simpl in Hin.
  repeat (destruct Hin as [<-|Hin]; [simpl; lia|]). contradiction.
Qed.

Lemma human_post_is_shown_at_once_witness :
  exists t,
    thread_for (thread_db approved) 4 (Some 2) = Some t
    /\ forall p_limit p_offset, exists rows,
         get_forum_posts (Some t) p_limit p_offset
           (fst (human_submit_post 900 (Some "a second answer, longer") None
                                   (Some 2) "Guest" (thread_db approved)))
         = ThreadView rows
         /\ In (ThreadRow.mk 4 None "a second answer, longer" "Guest" human
                             (Some 2) (Some t) 900 None) rows.
Proof.
  destruct (human_post_is_shown_at_once 900 "a second answer, longer" None
              (Some 2) "Guest" (thread_db approved)
              (fst (human_submit_post 900 (Some "a second answer, longer") None
                                      (Some 2) "Guest" (thread_db approved)))
              4 approved (thread_db_fresh approved) eq_refl)
    as [t [Ht [Hv _]]].
  exists t. split; [exact Ht | exact Hv].
Defined.

(** X14.  A post accepted by ai_submit_post waits for moderation: no
    view of get_forum_posts shows its id, as a thread row, a root or a
    nested reply, while every moderator finds it in get_pending_posts
    with the columns that were passed. *)
Theorem ai_post_waits_for_moderation :
  forall now c p_title p_parent_id p_author_name p_ai_model p_ai_session_id
         d d' n s,
    ids_fresh d ->
    check_ban_status now None None p_ai_session_id d = NotBanned ->
    ai_submit_post now (Some c) p_title p_parent_id p_author_name
                   p_ai_model p_ai_session_id d
    = (d', SubmitSuccess n s) ->
    (forall p_thread_id p_limit p_offset,
        ~ In n (view_ids (get_forum_posts p_thread_id p_limit p_offset d')))
    /\ (forall u, privileged (Some u) d' = true ->
          exists rows,
            get_pending_posts (Some u) d' = PendingRows rows
            /\ In (PendingRow.mk n p_title c p_author_name ai now
                                 p_ai_model p_ai_session_id) rows).
Proof.
  intros now c ttl par name model sess d d' n s Hfresh Hnb.
  unfold ai_submit_post. rewrite Hnb.
  destruct (negb _); [discriminate|].
  destruct (content_too_short (Some c)); [discriminate|].
  intros H.
  apply (resolve_and_insert_appends _ _ _ _ _ _ _ _ _ _ _ _ _ _ Hfresh) in H
    as [-> [-> [_ ->]]].
  set (row := new_post now (forum_posts_id_seq d) ttl c name ai par
                       (thread_for d (forum_posts_id_seq d) par)
                       pending model sess).
  split.
  - intros t l o Hin.
    apply view_ids_approved in Hin as [r [Hr [Hid Hst]]].
    simpl in Hr. apply in_app_or in Hr as [Hr|[<-|[]]].
    + specialize (Hfresh r Hr). lia.
    + discriminate Hst.
  - intros u Hu.
    apply (pending_queue_shows u row _ Hu); [|reflexivity].
    simpl. apply in_or_app. right. now left.
Qed.

Lemma ai_post_waits_for_moderation_witness :
  ~ In 4 (view_ids
            (get_forum_posts (Some 1) None None
               (fst (ai_submit_post 900 (Some "an answer from a model") None
                                    (Some 1) "Bot" None (Some "bot-7")
                                    (thread_db approved)))))
  /\ exists rows,
       get_pending_posts (Some "mod-1")
         (fst (ai_submit_post 900 (Some "an answer from a model") None
                              (Some 1) "Bot" None (Some "bot-7")
                              (thread_db approved)))
       = PendingRows rows
       /\ In (PendingRow.mk 4 None "an answer from a model" "Bot" ai 900
                            None (Some "bot-7")) rows.
Proof.
  destruct (ai_post_waits_for_moderation 900 "an answer from a model" None
              (Some 1) "Bot" None (Some "bot-7") (thread_db approved)
              (fst (ai_submit_post 900 (Some "an answer from a model") None
                                   (Some 1) "Bot" None (Some "bot-7")
                                   (thread_db approved)))
              4 pending (thread_db_fresh approved) eq_refl eq_refl)
    as [Hhid Hq].
  split; [apply Hhid | apply (Hq "mod-1"); reflexivity].
Defined.

(** X15.  Approval publishes.  After a privileged 'approve' of a stored
    post, the view of the post's thread lists it with its columns as they
    were, whatever its status was before, and it is in nobody's pending
    queue. *)
Theorem approve_publishes :
  forall u now p d r t,
    privileged (Some u) d = true ->
    In r (forum_posts d) -> Post.id r = p -> Post.thread_id r = Some t ->
    (forall p_limit p_offset, exists rows,
        get_forum_posts (Some t) p_limit p_offset
          (fst (moderate_forum_post (Some u) now (Some p) (Some "approve") d))
        = ThreadView rows
        /\ In (thread_row_of r) rows)
    /\ (forall uid,
          ~ In p (pending_ids
                    (get_pending_posts uid
                       (fst (moderate_forum_post (Some u) now (Some p)
                                                 (Some "approve") d))))).
Proof.
  intros u now p d r t Hp Hin Hid Ht. split.
  - intros l o.
    apply (thread_view_shows (stamp u now (Some "approve") r) t l o);
      [|reflexivity|exact Ht].
    destruct (moderate_posts (Some u) now (Some p) (Some "approve") d)
      as [_ ->].
    rewrite Hp. change (action_is (Some "approve") "delete") with false.
    cbn [andb]. cbv zeta. apply in_map_iff. exists r.
    split; [|exact Hin]. now rewrite Hid, Z.eqb_refl.
  - intros uid H. apply pending_ids_pending in H as [r' [Hr' [Hid' Hst]]].
    rewrite (moderated_row_status u now p "approve" approved d r' Hp) in Hst;
      [discriminate | reflexivity | assumption..].
Qed.

Lemma approve_publishes_witness :
  exists rows,
    get_forum_posts (Some 1) None None
      (fst (moderate_forum_post (Some "mod-1") 950 (Some 1) (Some "approve")
                                (thread_db pending)))
    = ThreadView rows
    /\ In (thread_row_of (root_post pending)) rows.
Proof.
  destruct (approve_publishes "mod-1" 950 1 (thread_db pending)
              (root_post pending) 1 eq_refl (or_introl eq_refl) eq_refl eq_refl)
    as [H _].
  apply H.
Defined.

(** X16.  Rejection and deletion hide.  After a privileged 'reject' or
    'delete' of a post, no view of get_forum_posts shows its id, as a
    thread row, a root or a nested reply, and it is in nobody's pending
    queue. *)
Theorem rejected_or_deleted_post_is_hidden :
  forall u now p a d,
    privileged (Some u) d = true ->
    a = "reject" \/ a = "delete" ->
    (forall p_thread_id p_limit p_offset,
        ~ In p (view_ids
                  (get_forum_posts p_thread_id p_limit p_offset
                     (fst (moderate_forum_post (Some u) now (Some p) (Some a) d)))))
    /\ (forall uid,
          ~ In p (pending_ids
                    (get_pending_posts uid
                       (fst (moderate_forum_post (Some u) now (Some p)
                                                 (Some a) d))))).
Proof.
  intros u now p a d Hp Ha.
  assert (Hs : exists s, s <> approved /\ s <> pending
                         /\ forall r, moderated_status (Some a) r = s).
  { destruct Ha as [->| ->];
      [exists rejected | exists deleted]; repeat split; discriminate. }
  destruct Hs as [s [Hna [Hnp Hs]]]. split.
  - intros t l o H. apply view_ids_approved in H as [r' [Hr' [Hid Hst]]].
    rewrite (moderated_row_status u now p a s d r' Hp Hs Hr' Hid) in Hst.
    contradiction.
  - intros uid H. apply pending_ids_pending in H as [r' [Hr' [Hid Hst]]].
    rewrite (moderated_row_status u now p a s d r' Hp Hs Hr' Hid) in Hst.
    contradiction.
Qed.

Lemma rejected_or_deleted_post_is_hidden_witness :
  ~ In 2 (view_ids
            (get_forum_posts None None None
               (fst (moderate_forum_post (Some "mod-1") 950 (Some 2)
                                         (Some "reject") (thread_db approved))))).
Proof.
  destruct (rejected_or_deleted_post_is_hidden "mod-1" 950 2 "reject"
              (thread_db approved) eq_refl (or_introl eq_refl)) as [H _].
  apply H.
Defined.

(** X17.  The replies of a deleted post become threads of the list.
    After a privileged 'delete' of a post that was not deleted before,
    each approved direct reply to it is a root of the unlimited list view,
    under its own title or, when it had none, under
    '[Thread] ' || LEFT(content, 50) || '...'. *)
Theorem deleted_post_replies_are_listed :
  forall u now p d c,
    privileged (Some u) d = true ->
    (exists r, In r (forum_posts d) /\ Post.id r = p /\ Post.status r <> deleted) ->
    In c (forum_posts d) -> Post.parent_id c = Some p -> Post.id c <> p ->
    Post.status c = approved ->
    exists rows row,
      get_forum_posts None None None
        (fst (moderate_forum_post (Some u) now (Some p) (Some "delete") d))
      = ListView rows
      /\ In row rows
      /\ RootRow.id row = Post.id c
      /\ RootRow.title row = Some (promoted_title c)
      /\ RootRow.content row = Post.content c
      /\ RootRow.created_at row = Post.created_at c.
Proof.
  intros u now p d c Hp Hex Hc Hpar Hid Hst.
  set (d' := fst (moderate_forum_post (Some u) now (Some p) (Some "delete") d)).
  assert (Hin : In (update_forum_post_timestamp now (promote c)) (forum_posts d')).
  { unfold d'. rewrite (moderate_delete_table u now p d Hp Hex).
    unfold promote_children. apply in_map_iff. exists c. split.
    - now rewrite Hpar, id_is_Some, Z.eqb_refl.
    - apply in_map_iff. exists c. split; [|exact Hc].
      destruct (Z.eqb_spec (Post.id c) p); [contradiction | reflexivity]. }
  destruct (list_view_shows _ d' Hin Hst eq_refl) as [rows [Hv Hr]].
  exists rows, (root_row_of (forum_posts d')
                            (update_forum_post_timestamp now (promote c))).
  split; [exact Hv|]. split; [exact Hr|]. repeat split.
  simpl. unfold promoted_title. now destruct (Post.title c).
Qed.

Lemma deleted_post_replies_are_listed_witness :
  exists rows row,
    get_forum_posts None None None
      (fst (moderate_forum_post (Some "mod-1") 950 (Some 1) (Some "delete")
                                (thread_db approved)))
    = ListView rows
    /\ In row rows
    /\ RootRow.id row = 2
    /\ RootRow.title row = Some "[Thread] a reply to the first post...".
Proof.
  destruct (deleted_post_replies_are_listed "mod-1" 950 1 (thread_db approved)
              reply_post eq_refl) as [rows [row [Hv [Hr [Hi [Ht _]]]]]].
  - exists (root_post approved). split; [now left|]. split; [reflexivity|discriminate].
  - right. now left.
  - reflexivity.
  - discriminate.
  - reflexivity.
  - exists rows, row. now repeat split.
Defined.

(** X18.  Deeper replies drop out of the list view.  When a post [p] that
    heads a thread is deleted by a privileged call, an approved post of
    that thread that answers some other post (a reply to a reply) keeps
    thread_id = p: the list view shows it nowhere, whatever limit and
    offset are passed, neither as a root nor under any root, while the
    thread view of [p] still lists it. *)
Theorem deeper_replies_leave_list_view :
  forall u now p d g c,
    NoDup (map Post.id (forum_posts d)) ->
    privileged (Some u) d = true ->
    (exists r, In r (forum_posts d) /\ Post.id r = p /\ Post.status r <> deleted) ->
    In g (forum_posts d) -> Post.thread_id g = Some p ->
    Post.parent_id g = Some c -> c <> p -> Post.id g <> p ->
    Post.status g = approved ->
    (forall p_limit p_offset,
        ~ In (Post.id g)
             (view_ids
                (get_forum_posts None p_limit p_offset
                   (fst (moderate_forum_post (Some u) now (Some p)
                                             (Some "delete") d)))))
    /\ (forall p_limit p_offset, exists rows,
          get_forum_posts (Some p) p_limit p_offset
            (fst (moderate_forum_post (Some u) now (Some p) (Some "delete") d))
          = ThreadView rows
          /\ In (thread_row_of g) rows).
Proof.
  intros u now p d g c Hnd Hp Hex Hg Hth Hpar Hcp Hgp Hst.
  set (d' := fst (moderate_forum_post (Some u) now (Some p) (Some "delete") d)).
  assert (Htab : forall r', In r' (forum_posts d') -> Post.id r' = Post.id g ->
                            r' = g).
  { intros r' Hr' Hid. unfold d' in Hr'.
    rewrite (moderate_delete_table u now p d Hp Hex) in Hr'.
    unfold promote_children in Hr'. rewrite map_map in Hr'.
    apply in_map_iff in Hr' as [x [Hx Hxin]].
    assert (Hxid : Post.id x = Post.id g).
    { rewrite <- Hid, <- Hx.
      destruct (Z.eqb (Post.id x) p); simpl; now destruct (id_is _ _). }
    rewrite (unique_id _ x g Hnd Hxin Hg Hxid) in Hx.
    destruct (Z.eqb_spec (Post.id g) p) as [E|_]; [contradiction|].
    rewrite Hpar, id_is_Some in Hx.
    destruct (Z.eqb_spec c p) as [E|_]; [contradiction|]. now symmetry. }
  assert (Hgin : In g (forum_posts d')).
  { unfold d'. rewrite (moderate_delete_table u now p d Hp Hex).
    unfold promote_children. rewrite map_map. apply in_map_iff. exists g.
    split; [|exact Hg].
    destruct (Z.eqb_spec (Post.id g) p) as [E|_]; [contradiction|].
    rewrite Hpar, id_is_Some.
    destruct (Z.eqb_spec c p) as [E|_]; [contradiction | reflexivity]. }
  split.
  - intros l o H. apply list_view_ids in H
      as [[r' [Hr' [Hid [Hnopar _]]]] | [r' [fp [Hr' [Hfp [Hid [Ht [_ [_ [_ Hfs]]]]]]]]]].
    + rewrite (Htab r' Hr' Hid), Hpar in Hnopar. discriminate.
    + rewrite (Htab r' Hr' Hid), Hth in Ht. injection Ht as Ht.
      rewrite (moderated_row_status u now p "delete" deleted d fp Hp) in Hfs;
        [discriminate | reflexivity | exact Hfp | now symmetry].
  - intros l o. now apply thread_view_shows.
Qed.

Lemma deeper_replies_leave_list_view_witness :
  ~ In 3 (view_ids
            (get_forum_posts None None None
               (fst (moderate_forum_post (Some "mod-1") 950 (Some 1)
                                         (Some "delete") (thread_db approved)))))
  /\ exists rows,
       get_forum_posts (Some 1) None None
         (fst (moderate_forum_post (Some "mod-1") 950 (Some 1) (Some "delete")
                                   (thread_db approved)))
       = ThreadView rows
       /\ In (thread_row_of grandchild_post) rows.
Proof.
  destruct (deeper_replies_leave_list_view "mod-1" 950 1 (thread_db approved)
              grandchild_post 2) as [Hl Ht].
  - simpl. repeat constructor; simpl; intuition lia.
  - reflexivity.
  - exists (root_post approved). split; [now left|]. split; [reflexivity|discriminate].
  - right. right. now left.
  - reflexivity.
  - reflexivity.
  - lia.
  - simpl. lia.
  - reflexivity.
  - split; [apply (Hl None None) | apply (Ht None None)].
Defined.

Lemma ascending_map {A B : Type} (f : A -> B) (key : B -> Z) (l : list A) :
  ascending (fun x => key (f x)) l -> ascending key (map f l).
Proof.
  induction l as [|x l IH]; simpl; [trivial|].
  intros [Hx Hl]. split; [|now apply IH].
  intros y Hy. apply in_map_iff in Hy as [z [<- Hz]]. now apply Hx.
Qed.

(** X19.  The views are chronological.  Whatever the arguments, the rows
    of the thread view, the roots of the list view, the replies nested
    under each root and the rows of the moderators' queue come oldest
    first. *)
Theorem views_are_chronological :
  forall p_thread_id p_limit p_offset uid d,
    match get_forum_posts p_thread_id p_limit p_offset d with
    | ThreadView rows => ascending ThreadRow.created_at rows
    | ListView rows =>
        ascending RootRow.created_at rows
        /\ forall x, In x rows ->
                     ascending ReplyRow.created_at (RootRow.replies x)
    | ViewRaised _ => True
    end
    /\ match get_pending_posts uid d with
       | PendingRows rows => ascending PendingRow.created_at rows
       | PendingError _ => True
       end.
Proof.
  intros t l o uid d. split.
  - unfold get_forum_posts. destruct t as [t|].
    + apply order_by_ascending.
    + destruct (limit_offset _ _ _) as [page|]; [|exact I].
      split; [apply order_by_ascending|].
      intros x Hx. apply order_by_in, in_map_iff in Hx as [fp [<- _]].
      apply order_by_ascending.
  - unfold get_pending_posts. destruct uid as [u|]; [|exact I].
    destruct (negb _); [exact I|].
    apply ascending_map. apply (order_by_ascending Post.created_at).
Qed.

(** ** Votes: the answer of toggle_vote and what get_user_votes reads *)

Lemma find_score (f : Post.t -> Z) (pid : Z) (posts : list Post.t) :
  forall posts',
    map (fun r => (Post.id r, Post.vote_score r)) posts'
    = map (fun r => (Post.id r, f r)) posts ->
    option_map Post.vote_score (find (fun r => Z.eqb (Post.id r) pid) posts')
    = option_map f (find (fun r => Z.eqb (Post.id r) pid) posts).
Proof.
  induction posts as [|x posts IH]; intros [|y posts'] H; simpl in *;
    try discriminate; [reflexivity|].
  injection H as Hid Hs Ht. rewrite Hid.
  destruct (Z.eqb (Post.id x) pid); simpl; [now rewrite Hs | now apply IH].
Qed.

(** The answer of a well-formed call, in terms of the state it leaves. *)
Lemma toggle_vote_result u now pid v d :
  votes_checked (forum_votes d) ->
  v = 1 \/ v = -1 ->
  existsb (fun r => Z.eqb (Post.id r) pid) (forum_posts d) = true ->
  snd (toggle_vote (Some u) now (Some pid) (Some v) d)
  = VoteSuccess
      (select_score pid (fst (toggle_vote (Some u) now (Some pid) (Some v) d)))
      (match find (vote_of u pid) (forum_votes d) with
       | Some x => if Z.eqb (Vote.vote_type x) v then 0 else v
       | None => v
       end).
Proof.
  intros Hck Hv Hex. unfold toggle_vote. rewrite Hex. simpl negb. cbv iota.
  rewrite (valid_vote_type_sign v Hv).
  destruct (find (vote_of u pid) (forum_votes d)) as [x|]; cbn [option_map];
    [|reflexivity].
  replace (is_true (cmp Z.eqb (Some (Vote.vote_type x)) (Some v)))
    with (Z.eqb (Vote.vote_type x) v)
    by (simpl; now destruct (Z.eqb (Vote.vote_type x) v)).
  now destruct (Z.eqb (Vote.vote_type x) v).
Qed.

Lemma filter_none {A : Type} (f : A -> bool) (l : list A) :
  find f l = None -> filter f l = [].
Proof.
  induction l as [|x l IH]; simpl; [reflexivity|].
  destruct (f x); [discriminate | exact IH].
Qed.

Lemma filter_filter_negb {A : Type} (f : A -> bool) (l : list A) :
  filter f (filter (fun x => negb (f x)) l) = [].
Proof.
  induction l as [|x l IH]; simpl; [reflexivity|].
  destruct (f x) eqn:E; simpl; [exact IH | now rewrite E].
Qed.

Lemma filter_negb_none {A : Type} (f : A -> bool) (l : list A) :
  find f l = None -> filter (fun x => negb (f x)) l = l.
Proof.
  induction l as [|x l IH]; simpl; [reflexivity|].
  destruct (f x); [discriminate|]. intros H. simpl. now rewrite IH.
Qed.

Lemma filter_map_if {A : Type} (f : A -> bool) (g : A -> A) (l : list A) :
  (forall x, f (g x) = f x) ->
  filter f (map (fun x => if f x then g x else x) l) = map g (filter f l).
Proof.
  intros Hg. induction l as [|x l IH]; simpl; [reflexivity|].
  destruct (f x) eqn:E; simpl.
  - now rewrite Hg, E, IH.
  - now rewrite E.
Qed.

(** get_user_votes asked about one post reads the caller's rows on it. *)
Lemma get_user_votes_one u pid d :
  get_user_votes (Some u) (Some [Some pid]) d
  = map (fun v => (Vote.post_id v, Vote.vote_type v))
        (filter (vote_of u pid) (forum_votes d)).
Proof.
  unfold get_user_votes. f_equal. apply filter_ext. intros x.
  unfold vote_of, any_of. simpl. rewrite id_is_Some. now rewrite orb_false_r.
Qed.

(** X20.  The answer of toggle_vote and its read-back.  Under the
    constraints of forum_votes, a call by an authenticated caller with
    sign v on an existing post answers success with the post's score
    before the call plus v (no previous vote), minus v (same sign) or
    plus 2*v (opposite sign), and with user_vote 0 when the vote was
    removed and v otherwise; get_user_votes for that caller and post then
    returns no entry when user_vote is 0 and the one entry (post,
    user_vote) otherwise. *)
Theorem toggle_vote_answer :
  forall u now pid v d,
    votes_unique (forum_votes d) ->
    votes_checked (forum_votes d) ->
    v = 1 \/ v = -1 ->
    existsb (fun r => Z.eqb (Post.id r) pid) (forum_posts d) = true ->
    exists user_vote,
      snd (toggle_vote (Some u) now (Some pid) (Some v) d)
      = VoteSuccess
          (select_score pid d
           + toggle_delta (find (vote_of u pid) (forum_votes d)) v)
          user_vote
      /\ user_vote = match find (vote_of u pid) (forum_votes d) with
                     | Some x => if Z.eqb (Vote.vote_type x) v then 0 else v
                     | None => v
                     end
      /\ get_user_votes (Some u) (Some [Some pid])
           (fst (toggle_vote (Some u) now (Some pid) (Some v) d))
         = if Z.eqb user_vote 0 then [] else [(pid, user_vote)].
Proof.
  intros u now pid v d Hu Hck Hv Hex.
  destruct (toggle_vote_step u now pid v d Hu Hck Hv Hex) as [Hvotes Hposts].
  eexists. split; [|split; [reflexivity|]].
  - rewrite (toggle_vote_result u now pid v d Hck Hv Hex). f_equal.
    unfold select_score.
    rewrite (find_score _ pid (forum_posts d) _ Hposts).
    apply existsb_exists in Hex as [r0 [Hr0 Hid0]].
    destruct (find (fun r => Z.eqb (Post.id r) pid) (forum_posts d))
      as [r|] eqn:Hf.
    + apply find_some in Hf as [_ Hid]. simpl. now rewrite Hid.
    + exfalso. pose proof (find_none _ _ Hf r0 Hr0) as Hno. simpl in Hno.
      congruence.
  - rewrite get_user_votes_one, Hvotes. unfold toggled_votes.
    pose proof (unique_vote_row u pid (forum_votes d) Hu) as Hrow.
    destruct (find (vote_of u pid) (forum_votes d)) as [x|] eqn:Hf.
    + apply find_some in Hf as [_ Hx]. apply vote_of_true in Hx as [Hxu Hxp].
      destruct (Z.eqb (Vote.vote_type x) v).
      * now rewrite filter_filter_negb.
      * rewrite (filter_map_if (vote_of u pid)
                   (fun r => Vote.mk (Vote.id r) (Vote.user_id r)
                                     (Vote.post_id r) v now))
          by (intros ?; reflexivity).
        rewrite Hrow. simpl. rewrite Hxp.
        now destruct Hv as [->| ->].
    + rewrite filter_app, (filter_none _ _ Hf). simpl.
      unfold vote_of. simpl. rewrite String.eqb_refl, Z.eqb_refl. simpl.
      now destruct Hv as [->| ->].
Qed.

Lemma voted_db_unique : votes_unique (forum_votes voted_db).
Proof. constructor; [intros [] | constructor]. Qed.

Lemma voted_db_checked : votes_checked (forum_votes voted_db).
Proof. constructor; [now left | constructor]. Qed.

Lemma toggle_vote_answer_witness :
  exists user_vote,
    snd (toggle_vote (Some "user-1") 200 (Some 1) (Some (-1)) voted_db)
    = VoteSuccess
        (select_score 1 voted_db
         + toggle_delta (find (vote_of "user-1" 1) (forum_votes voted_db)) (-1))
        user_vote
    /\ get_user_votes (Some "user-1") (Some [Some 1])
         (fst (toggle_vote (Some "user-1") 200 (Some 1) (Some (-1)) voted_db))
       = if Z.eqb user_vote 0 then [] else [(1, user_vote)].
Proof.
  destruct (toggle_vote_answer "user-1" 200 1 (-1) voted_db
              voted_db_unique voted_db_checked (or_intror eq_refl) eq_refl)
    as [uv [Ha [_ Hg]]].
  exists uv. split; [exact Ha | exact Hg].
Defined.

(** X21.  Voting twice the same way undoes the vote.  Under the
    constraints of forum_votes, when the caller has no vote on the post,
    two calls with the same sign leave the vote rows exactly as they were
    and every post's score as it was. *)
Theorem toggle_vote_twice_restores :
  forall u now1 now2 pid v d,
    votes_unique (forum_votes d) ->
    votes_checked (forum_votes d) ->
    v = 1 \/ v = -1 ->
    existsb (fun r => Z.eqb (Post.id r) pid) (forum_posts d) = true ->
    find (vote_of u pid) (forum_votes d) = None ->
    forum_votes
      (fst (toggle_vote (Some u) now2 (Some pid) (Some v)
              (fst (toggle_vote (Some u) now1 (Some pid) (Some v) d))))
    = forum_votes d
    /\ map (fun r => (Post.id r, Post.vote_score r))
           (forum_posts
              (fst (toggle_vote (Some u) now2 (Some pid) (Some v)
                      (fst (toggle_vote (Some u) now1 (Some pid) (Some v) d)))))
       = map (fun r => (Post.id r, Post.vote_score r)) (forum_posts d).
Proof.
  intros u now1 now2 pid v d Hu Hck Hv Hex Hnone.
  destruct (toggle_vote_step u now1 pid v d Hu Hck Hv Hex) as [Hvotes1 Hposts1].
  destruct (toggle_vote_keeps_constraints (Some u) now1 (Some pid) (Some v) d
              (conj Hu Hck)) as [Hu1 Hck1].
  set (d1 := fst (toggle_vote (Some u) now1 (Some pid) (Some v) d)) in *.
  assert (Hex1 : existsb (fun r => Z.eqb (Post.id r) pid) (forum_posts d1) = true).
  { apply existsb_exists in Hex as [r0 [Hr0 Hid0]].
    apply (in_map (fun r => (Post.id r,
                             if Z.eqb (Post.id r) pid
                             then Post.vote_score r
                                  + toggle_delta
                                      (find (vote_of u pid) (forum_votes d)) v
                             else Post.vote_score r))) in Hr0.
    rewrite <- Hposts1 in Hr0. apply in_map_iff in Hr0 as [r1 [E Hr1]].
    injection E as E _. apply existsb_exists. exists r1.
    split; [exact Hr1 | congruence]. }
  destruct (toggle_vote_step u now2 pid v d1 Hu1 Hck1 Hv Hex1)
    as [Hvotes2 Hposts2].
  unfold toggled_votes in Hvotes1. rewrite Hnone in Hvotes1.
  assert (Hfind1 : find (vote_of u pid) (forum_votes d1)
                   = Some (Vote.mk (forum_votes_id_seq d) u pid v now1)).
  { rewrite Hvotes1. clear - Hnone.
    induction (forum_votes d) as [|x l IH]; simpl in *.
    - unfold vote_of. simpl. now rewrite String.eqb_refl, Z.eqb_refl.
    - destruct (vote_of u pid x); [discriminate | now apply IH]. }
  split.
  - rewrite Hvotes2. unfold toggled_votes. rewrite Hfind1. simpl.
    rewrite Z.eqb_refl, Hvotes1, filter_app, (filter_negb_none _ _ Hnone).
    simpl. unfold vote_of. simpl. rewrite String.eqb_refl, Z.eqb_refl. simpl.
    apply app_nil_r.
  - rewrite Hposts2, Hfind1.
    transitivity
      (map (fun x : Z * Z =>
              (fst x, if Z.eqb (fst x) pid then snd x - v else snd x))
           (map (fun r => (Post.id r, Post.vote_score r)) (forum_posts d1))).
    + rewrite map_map. apply map_ext. intros r. simpl. rewrite Z.eqb_refl.
      f_equal; destruct (Z.eqb (Post.id r) pid); lia.
    + rewrite Hposts1, Hnone, map_map. apply map_ext. intros r. simpl.
      f_equal; destruct (Z.eqb (Post.id r) pid); lia.
Qed.

Lemma toggle_vote_twice_restores_witness :
  forum_votes
    (fst (toggle_vote (Some "user-2") 310 (Some 1) (Some 1)
            (fst (toggle_vote (Some "user-2") 300 (Some 1) (Some 1) voted_db))))
  = forum_votes voted_db.
Proof.
  apply (toggle_vote_twice_restores "user-2" 300 310 1 1 voted_db
           voted_db_unique voted_db_checked (or_introl eq_refl) eq_refl eq_refl).
Defined.

(** X22.  What toggle_vote refuses.  With the CHECK constraint holding on
    the stored vote rows, a call without login, on a post id that is NULL
    or not stored, or with a vote type that is NULL or neither 1 nor -1
    does not answer success and leaves every table as it was.  The one
    trace it can leave is in the id sequence of forum_votes: when the
    caller is logged in, the post is stored and the caller has no vote on
    it, the refused INSERT has drawn an id, and the sequence stands one
    higher; in every other case the state is the one
    before the call. *)
Theorem toggle_vote_refusals :
  forall uid now p_post_id p_vote_type d,
    votes_checked (forum_votes d) ->
    uid = None
    \/ (forall r, In r (forum_posts d) -> Some (Post.id r) <> p_post_id)
    \/ (p_vote_type <> Some 1 /\ p_vote_type <> Some (-1)) ->
    (forall score user_vote,
        snd (toggle_vote uid now p_post_id p_vote_type d)
        <> VoteSuccess score user_vote)
    /\ forum_posts (fst (toggle_vote uid now p_post_id p_vote_type d))
       = forum_posts d
    /\ forum_votes (fst (toggle_vote uid now p_post_id p_vote_type d))
       = forum_votes d
    /\ fst (toggle_vote uid now p_post_id p_vote_type d)
       = match uid, p_post_id with
         | Some u, Some pid =>
             if existsb (fun r => Z.eqb (Post.id r) pid) (forum_posts d)
                && is_null (find (vote_of u pid) (forum_votes d))
             then set_forum_votes d (forum_votes d) (forum_votes_id_seq d + 1)
             else d
         | _, _ => d
         end.
Proof.
  intros uid now pp pv d Hck H. unfold toggle_vote.
  destruct uid as [u|]; [|now repeat split].
  destruct pp as [pid|]; [|now repeat split].
  destruct (existsb (fun r => Z.eqb (Post.id r) pid) (forum_posts d)) eqn:Hex;
    simpl negb; cbv iota; [|now repeat split].
  destruct H as [H|[H|[H1 H2]]]; [discriminate| |].
  - exfalso. apply existsb_exists in Hex as [r [Hr Hid]].
    apply Z.eqb_eq in Hid. apply (H r Hr). now rewrite Hid.
  - assert (Hinv : valid_vote_type pv = None).
    { destruct pv as [z|]; [|reflexivity]. simpl.
      destruct (Z.eqb_spec z 1) as [->|_]; [now contradiction H1|].
      destruct (Z.eqb_spec z (-1)) as [->|_]; [now contradiction H2|].
      reflexivity. }
    destruct (find (vote_of u pid) (forum_votes d)) as [x|] eqn:Hf;
      cbn [option_map].
    + assert (Hne : is_true (cmp Z.eqb (Some (Vote.vote_type x)) pv) = false).
      { apply find_some in Hf as [Hin _].
        unfold votes_checked in Hck. rewrite Forall_forall in Hck.
        specialize (Hck x Hin).
        destruct pv as [z|]; [|reflexivity]. simpl.
        destruct (Z.eqb_spec (Vote.vote_type x) z) as [E|_]; [|reflexivity].
        exfalso. destruct Hck as [Hx|Hx]; rewrite Hx in E; subst z;
          [now apply H1 | now apply H2]. }
      rewrite Hne, Hinv. now repeat split.
    + rewrite Hinv. now repeat split.
Qed.

Lemma toggle_vote_refusals_witness :
  fst (toggle_vote (Some "user-2") 200 (Some 1) (Some 0) voted_db)
  = set_forum_votes voted_db (forum_votes voted_db) 3
  /\ fst (toggle_vote (Some "user-1") 200 (Some 1) (Some 0) voted_db) = voted_db.
Proof.
  destruct (toggle_vote_refusals (Some "user-2") 200 (Some 1) (Some 0) voted_db
              voted_db_checked) as [_ [_ [_ H]]].
  { right. right. split; discriminate. }
  destruct (toggle_vote_refusals (Some "user-1") 200 (Some 1) (Some 0) voted_db
              voted_db_checked) as [_ [_ [_ H']]].
  { right. right. split; discriminate. }
  split; [exact H | exact H'].
Defined.

(** ** Registration of AI identities *)

Lemma ltrim_no_space (s : string) : starts_with_space (ltrim s) = false.
Proof.
  induction s as [|c s IH]; [reflexivity|].
  simpl. destruct (Ascii.eqb_spec c " "%char) as [->|Hc]; [exact IH|].
  assert (E : ltrim (String c s) = String c s).
  { simpl. destruct c as [[] [] [] [] [] [] [] []]; try reflexivity.
    now contradiction Hc. }
  simpl in E. rewrite E. simpl.
  destruct (Ascii.eqb_spec c " "%char); [contradiction | reflexivity].
Qed.

Lemma rev_string_ends (s : string) :
  forall acc,
    ends_with_space (rev_string s acc)
    = match acc with
      | EmptyString => starts_with_space s
      | String _ _ => ends_with_space acc
      end.
Proof.
  induction s as [|c s IH]; intros acc; simpl.
  - now destruct acc.
  - rewrite IH. now destruct acc.
Qed.

Lemma TRIM_no_trailing_space (s : string) : ends_with_space (TRIM s) = false.
Proof.
  unfold TRIM, rtrim. rewrite rev_string_ends. apply ltrim_no_space.
Qed.

Lemma all_spaces_ends (s : string) :
  s <> EmptyString -> all_spaces s = true -> ends_with_space s = true.
Proof.
  unfold all_spaces. induction s as [|c s IH]; intros Hne H; [contradiction|].
  simpl in H. apply andb_true_iff in H as [Hc Hs].
  destruct s as [|c' s']; [exact Hc|].
  change (ends_with_space (String c' s') = true). apply IH; [discriminate | exact Hs].
Qed.

Lemma substring_all (s : string) : substring 0 (String.length s) s = s.
Proof. induction s as [|c s IH]; simpl; [reflexivity | now rewrite IH]. Qed.

Lemma tail_all_spaces (s : string) :
  forall n, (n < String.length s)%nat ->
            all_spaces (substring n (String.length s - n) s) = true ->
            ends_with_space s = true.
Proof.
  induction s as [|c s IH]; intros n Hn Ha; simpl in Hn; [lia|].
  destruct n as [|n].
  - rewrite Nat.sub_0_r, substring_all in Ha.
    apply all_spaces_ends; [discriminate | exact Ha].
  - change (all_spaces (substring n (String.length s - n) s) = true) in Ha.
    apply IH in Ha; [|lia]. destruct s; [discriminate | exact Ha].
Qed.

(** A trimmed text is stored in a VARCHAR column as it is, or refused. *)
Lemma varchar_TRIM (n : nat) (s t : string) :
  varchar n (TRIM s) = Some t -> t = TRIM s.
Proof.
  unfold varchar. destruct (Nat.leb_spec (String.length (TRIM s)) n) as [_|Hlt].
  - intros H. now inversion H.
  - destruct (all_spaces _) eqn:Ha; [|discriminate]. exfalso.
    apply tail_all_spaces in Ha; [|exact Hlt].
    rewrite TRIM_no_trailing_space in Ha. discriminate.
Qed.

Lemma varchar_fits (n : nat) (s : string) :
  (String.length s <= n)%nat -> varchar n s = Some s.
Proof.
  intros H. unfold varchar. now destruct (Nat.leb_spec (String.length s) n); [|lia].
Qed.

(** What a successful registration has checked and stored. *)
Lemma register_forum_ai_success (h : string -> string) now new_id random_hex
    p_display_name p_ai_model p_bio d d' k dn :
  register_forum_ai h now new_id random_hex p_display_name p_ai_model p_bio d
  = (d', RegSuccess k dn) ->
  exists name prefix hash model,
    p_display_name = Some name
    /\ k = "fa_" ++ random_hex /\ dn = TRIM name
    /\ name_taken name d = false
    /\ varchar 64 (h k) = Some hash
    /\ existsb (fun i => String.eqb (Identity.id i) new_id)
               (forum_ai_identities d) = false
    /\ existsb (fun i => String.eqb (Identity.api_key_hash i) hash)
               (forum_ai_identities d) = false
    /\ d' = set_forum_ai_identities d
              (forum_ai_identities d
               ++ [Identity.mk new_id prefix hash (TRIM name) model p_bio 0
                               (Some false) now None None]).
Proof.
  unfold register_forum_ai.
  destruct p_display_name as [name|]; [|discriminate].
  destruct (Z.ltb _ 2); [discriminate|].
  destruct (name_taken name d) eqn:Hn; [discriminate|].
  destruct (varchar 8 _) as [prefix|]; [|discriminate].
  destruct (varchar 64 _) as [hash|] eqn:Hh; [|discriminate].
  destruct (varchar 50 _) as [display|] eqn:Hd; [|discriminate].
  destruct (match p_ai_model with Some m => _ | None => _ end) as [model|];
    [|discriminate].
  destruct (existsb (fun i => String.eqb (Identity.id i) new_id) _) eqn:E1;
    [discriminate|].
  destruct (existsb (fun i => String.eqb (Identity.api_key_hash i) hash) _)
    eqn:E2; [discriminate|].
  apply varchar_TRIM in Hd. subst display.
  intros H. inversion H; subst; clear H.
  exists name, prefix, hash, model. now repeat split.
Qed.

Lemma find_snoc {A : Type} (f : A -> bool) (l : list A) (x : A) :
  existsb f l = false -> f x = true -> find f (l ++ [x]) = Some x.
Proof.
  induction l as [|y l IH]; simpl; intros Hn Hx.
  - now rewrite Hx.
  - apply orb_false_iff in Hn as [Hy Hl]. rewrite Hy. now apply IH.
Qed.

Lemma existsb_none {A : Type} (f g : A -> bool) (l : list A) :
  existsb g l = false -> (forall x, f x = true -> g x = true) ->
  existsb f l = false.
Proof.
  intros Hg Hfg. induction l as [|x l IH]; simpl in *; [reflexivity|].
  apply orb_false_iff in Hg as [Hx Hl]. rewrite (IH Hl), orb_false_r.
  destruct (f x) eqn:E; [|reflexivity]. rewrite (Hfg x E) in Hx. discriminate.
Qed.

(** A top-level post of sufficient length under a key that is found. *)
Lemma ai_submit_with_key_top_level (h : string -> string) now key c p_title d i :
  select_identity h key d = Some i ->
  content_too_short (Some c) = false ->
  snd (ai_submit_with_key h now key (Some c) p_title None d)
  = SubmitSuccess (forum_posts_id_seq d)
                  (if is_true (Identity.is_trusted i) then approved else pending)
  /\ exists row,
       In row (forum_posts
                 (fst (ai_submit_with_key h now key (Some c) p_title None d)))
       /\ Post.id row = forum_posts_id_seq d
       /\ Post.author_name row = Identity.display_name i
       /\ Post.author_type row = ai
       /\ Post.content row = TRIM c
       /\ Post.status row
          = (if is_true (Identity.is_trusted i) then approved else pending)
       /\ Post.ai_session_id row = Some (Identity.id i).
Proof.
  intros Hsel Hc. unfold ai_submit_with_key. rewrite Hsel, Hc.
  simpl. split; [reflexivity|].
  rewrite update_forum_posts_same_status by (intros ?; reflexivity).
  eexists. split.
  - apply in_map. apply in_or_app. right. left. reflexivity.
  - simpl. rewrite Z.eqb_refl. now repeat split.
Qed.

(** X23.  A registered key works.  When register_forum_ai answers
    success with a key (for a hash of at most 64 characters, as SHA-256 in
    hex is), the key is 'fa_' followed by the random part, the name
    answered is the trimmed name, and the key lookup of ai_submit_with_key
    finds the new identity, active, untrusted and with no posts; a first
    top-level post of sufficient length under that key is stored as
    'pending' under the registered name, with the trimmed content and the
    identity's id as AI session. *)
Theorem registered_key_is_accepted :
  forall (h : string -> string) now new_id random_hex p_display_name
         p_ai_model p_bio d d' k dn,
    (String.length (h ("fa_" ++ random_hex)) <= 64)%nat ->
    register_forum_ai h now new_id random_hex p_display_name p_ai_model p_bio d
    = (d', RegSuccess k dn) ->
    k = "fa_" ++ random_hex
    /\ option_map TRIM p_display_name = Some dn
    /\ (exists i,
          select_identity h (Some k) d' = Some i
          /\ Identity.id i = new_id /\ Identity.display_name i = dn
          /\ Identity.is_trusted i = Some false /\ Identity.post_count i = 0
          /\ Identity.revoked_at i = None)
    /\ (forall now2 c p_title,
          content_too_short (Some c) = false ->
          snd (ai_submit_with_key h now2 (Some k) (Some c) p_title None d')
          = SubmitSuccess (forum_posts_id_seq d) pending
          /\ exists row,
               In row (forum_posts
                         (fst (ai_submit_with_key h now2 (Some k) (Some c)
                                                  p_title None d')))
               /\ Post.id row = forum_posts_id_seq d
               /\ Post.author_name row = dn /\ Post.author_type row = ai
               /\ Post.content row = TRIM c /\ Post.status row = pending
               /\ Post.ai_session_id row = Some new_id).
Proof.
  intros h now new_id hex pname model bio d d' k dn Hlen Hreg.
  apply register_forum_ai_success in Hreg
    as [name [prefix [hash [model' [-> [-> [-> [_ [Hh [_ [Hfree ->]]]]]]]]]]].
  rewrite (varchar_fits 64 _ Hlen) in Hh. inversion Hh; subst hash; clear Hh.
  cbn [append] in *.
  set (i := Identity.mk new_id prefix (h ("fa_" ++ hex)) (TRIM name) model' bio
                        0 (Some false) now None None).
  assert (Hsel : select_identity h (Some ("fa_" ++ hex))
                   (set_forum_ai_identities d (forum_ai_identities d ++ [i])%list)
                 = Some i).
  { unfold select_identity. simpl. apply find_snoc.
    - apply (existsb_none _ _ _ Hfree). intros x. simpl.
      now destruct (String.eqb (Identity.api_key_hash x) _).
    - simpl. now rewrite String.eqb_refl. }
  cbn [append] in Hsel. fold i in Hsel.
  split; [reflexivity|]. split; [reflexivity|]. split.
  - exists i. now repeat split.
  - intros now2 c ttl Hc.
    exact (ai_submit_with_key_top_level h now2 _ c ttl _ i Hsel Hc).
Qed.

Lemma registered_key_is_accepted_witness :
  snd (ai_submit_with_key (fun k => k) 700 (Some "fa_00ff")
         (Some "  a first post under my key  ") None None
         (fst (register_forum_ai (fun k => k) 600 "ident-2" "00ff"
                 (Some " Vega ") None None (keyed_db (fun k => k)))))
  = SubmitSuccess 1 pending.
Proof.
  destruct (registered_key_is_accepted (fun k => k) 600 "ident-2" "00ff"
              (Some " Vega ") None None (keyed_db (fun k => k))
              (fst (register_forum_ai (fun k => k) 600 "ident-2" "00ff"
                      (Some " Vega ") None None (keyed_db (fun k => k))))
              "fa_00ff" "Vega") as [_ [_ [_ H]]].
  - simpl. lia.
  - reflexivity.
  - apply (H 700 "  a first post under my key  " None). reflexivity.
Defined.

Lemma LOWER_length (s : string) : String.length (LOWER s) = String.length s.
Proof. induction s as [|c s IH]; simpl; [reflexivity | now rewrite IH]. Qed.

Lemma existsb_snoc {A : Type} (f : A -> bool) (l : list A) (x : A) :
  f x = true -> existsb f (l ++ [x]) = true.
Proof.
  intros H. rewrite existsb_app. simpl. rewrite H. now rewrite orb_true_r.
Qed.

(** X24.  A registered name is taken.  Once register_forum_ai has
    answered success for a name, a further registration under a name that
    differs from it only in letter case and in spaces at the ends is
    refused as already registered, whatever the other arguments, and
    changes nothing. *)
Theorem registered_name_is_taken :
  forall (h : string -> string) now new_id random_hex name p_ai_model p_bio
         d d' k dn,
    register_forum_ai h now new_id random_hex (Some name) p_ai_model p_bio d
    = (d', RegSuccess k dn) ->
    forall now2 new_id2 random_hex2 name2 p_ai_model2 p_bio2,
      LOWER (TRIM name2) = LOWER (TRIM name) ->
      register_forum_ai h now2 new_id2 random_hex2 (Some name2) p_ai_model2
                        p_bio2 d'
      = (d', RegError "Display name already registered. Use your existing API key or choose a different name.").
Proof.
  intros h now new_id hex name model bio d d' k dn Hreg.
  assert (Hlen : Z.ltb (LENGTH (TRIM name)) 2 = false).
  { unfold register_forum_ai in Hreg.
    destruct (Z.ltb (LENGTH (TRIM name)) 2); [discriminate | reflexivity]. }
  apply register_forum_ai_success in Hreg
    as [name0 [prefix [hash [model' [Hn [_ [_ [_ [_ [_ [_ Hd']]]]]]]]]]].
  injection Hn as <-.
  intros now2 id2 hex2 name2 model2 bio2 Hsame.
  unfold register_forum_ai.
  replace (Z.ltb (LENGTH (TRIM name2)) 2) with false.
  - replace (name_taken name2 d') with true; [reflexivity|].
    symmetry. unfold name_taken. rewrite Hd'. simpl. apply existsb_snoc.
    simpl. rewrite Hsame. now rewrite String.eqb_refl.
  - rewrite <- Hlen. unfold LENGTH.
    now rewrite <- (LOWER_length (TRIM name2)), Hsame, LOWER_length.
Qed.

Lemma registered_name_is_taken_witness :
  register_forum_ai (fun k => k) 700 "ident-3" "11aa" (Some "VEGA  ") None None
    (fst (register_forum_ai (fun k => k) 600 "ident-2" "00ff" (Some " Vega ")
                            None None (keyed_db (fun k => k))))
  = (fst (register_forum_ai (fun k => k) 600 "ident-2" "00ff" (Some " Vega ")
                            None None (keyed_db (fun k => k))),
     RegError "Display name already registered. Use your existing API key or choose a different name.").
Proof.
  apply (registered_name_is_taken (fun k => k) 600 "ident-2" "00ff" " Vega "
           None None (keyed_db (fun k => k)) _ "fa_00ff" "Vega" eq_refl
           700 "ident-3" "11aa" "VEGA  " None None).
  reflexivity.
Defined.

(** Calls other than registration and keyed submission leave
    forum_ai_identities alone. *)
Lemma resolve_and_insert_identities now not_found p_title content author kind
    p_parent_id s model session d :
  forum_ai_identities
    (fst (resolve_and_insert now not_found p_title content author kind
                             p_parent_id s model session d))
  = forum_ai_identities d.
Proof.
  unfold resolve_and_insert. destruct p_parent_id as [pid|]; [|reflexivity].
  now destruct (select_parent_thread pid d).
Qed.

Lemma human_submit_post_identities now p_content p_title p_parent_id name d :
  forum_ai_identities
    (fst (human_submit_post now p_content p_title p_parent_id name d))
  = forum_ai_identities d.
Proof.
  unfold human_submit_post. destruct p_content as [c|]; [|reflexivity].
  destruct (content_too_short (Some c)); [reflexivity|].
  apply resolve_and_insert_identities.
Qed.

Lemma ai_submit_post_identities now p_content p_title p_parent_id name model
    session d :
  forum_ai_identities
    (fst (ai_submit_post now p_content p_title p_parent_id name model session d))
  = forum_ai_identities d.
Proof.
  unfold ai_submit_post.
  destruct (check_ban_status _ _ _ _ d) as [|k why exp];
    [|now destruct k].
  destruct (negb _); [reflexivity|].
  destruct p_content as [c|]; [|reflexivity].
  destruct (content_too_short (Some c)); [reflexivity|].
  apply resolve_and_insert_identities.
Qed.

Lemma create_forum_post_identities uid v_display_name now p_title p_content
    p_parent_id p_author_type p_ai_model p_ai_session_id d :
  forum_ai_identities
    (fst (create_forum_post uid v_display_name now p_title p_content
                            p_parent_id p_author_type p_ai_model
                            p_ai_session_id d))
  = forum_ai_identities d.
Proof.
  unfold create_forum_post. destruct uid; [|reflexivity].
  destruct p_parent_id as [pid|]; [|reflexivity].
  now destruct (find _ (forum_posts d)).
Qed.

Lemma moderate_forum_post_identities uid now p_post_id p_action d :
  forum_ai_identities (fst (moderate_forum_post uid now p_post_id p_action d))
  = forum_ai_identities d.
Proof.
  unfold moderate_forum_post. destruct uid; [|reflexivity].
  now destruct (negb _).
Qed.

Lemma toggle_vote_identities uid now p_post_id p_vote_type d :
  forum_ai_identities (fst (toggle_vote uid now p_post_id p_vote_type d))
  = forum_ai_identities d.
Proof.
  destruct (toggle_vote_effect uid now p_post_id p_vote_type d)
    as [-> | [evs [votes' [seq' [-> _]]]]]; reflexivity.
Qed.

Lemma check_ai_trigger_identities now v_random v_random2 d :
  forum_ai_identities (fst (check_ai_trigger now v_random v_random2 d))
  = forum_ai_identities d.
Proof.
  unfold check_ai_trigger.
  destruct (negb _); [reflexivity|].
  destruct (Settings.cast_error _); [reflexivity|].
  destruct (Z.geb _ _); [reflexivity|].
  destruct (negb _); [reflexivity|].
  destruct (available_personas _ _ _); [reflexivity|].
  now destruct (choose_persona _ _).
Qed.

Lemma ban_user_identities uid now u ip s k why days d :
  forum_ai_identities (fst (ban_user uid now u ip s k why days d))
  = forum_ai_identities d.
Proof.
  unfold ban_user. destruct uid; [|reflexivity]. now destruct (negb _).
Qed.

(** The counters a keyed submission writes leave id, key hash, name and
    revocation of every identity as they were. *)
Lemma ai_submit_with_key_identities (h : string -> string) now p_api_key
    p_content p_title p_parent_id d :
  exists g : Identity.t -> Identity.t,
    forum_ai_identities
      (fst (ai_submit_with_key h now p_api_key p_content p_title p_parent_id d))
    = map g (forum_ai_identities d)
    /\ forall i, Identity.id (g i) = Identity.id i
                 /\ Identity.api_key_hash (g i) = Identity.api_key_hash i
                 /\ Identity.display_name (g i) = Identity.display_name i
                 /\ Identity.revoked_at (g i) = Identity.revoked_at i.
Proof.
  assert (Hsame : exists g : Identity.t -> Identity.t,
             forum_ai_identities d = map g (forum_ai_identities d)
             /\ forall i, Identity.id (g i) = Identity.id i
                          /\ Identity.api_key_hash (g i) = Identity.api_key_hash i
                          /\ Identity.display_name (g i) = Identity.display_name i
                          /\ Identity.revoked_at (g i) = Identity.revoked_at i).
  { exists (fun i => i). split; [now rewrite map_id | now repeat split]. }
  unfold ai_submit_with_key.
  destruct (select_identity h p_api_key d) as [v|]; [|exact Hsame].
  destruct p_content as [c|]; [|exact Hsame].
  destruct (content_too_short (Some c)); [exact Hsame|].
  pose proof (resolve_and_insert_identities now
                "Parent post not found or not approved" p_title (TRIM c)
                (Identity.display_name v) ai p_parent_id
                (if is_true (Identity.is_trusted v) then approved else pending)
                (Identity.ai_model v) (Some (Identity.id v)) d) as Hfr.
  destruct (resolve_and_insert _ _ _ _ _ _ _ _ _ _ d) as [d1 [m|n s]];
    simpl in Hfr; simpl; [now rewrite Hfr|].
  rewrite Hfr.
  exists (fun i =>
            if String.eqb (Identity.id i) (Identity.id v)
            then Identity.mk (Identity.id i) (Identity.api_key_prefix i)
                   (Identity.api_key_hash i) (Identity.display_name i)
                   (Identity.ai_model i) (Identity.bio i)
                   (Identity.post_count i + 1) (Identity.is_trusted i)
                   now (Some now) (Identity.revoked_at i)
            else i).
  split; [reflexivity|].
  intros i. now destruct (String.eqb (Identity.id i) (Identity.id v)).
Qed.

Lemma identities_mapped (g : Identity.t -> Identity.t) (d d' : db) :
  forum_ai_identities d' = map g (forum_ai_identities d) ->
  (forall i, Identity.id (g i) = Identity.id i
             /\ Identity.api_key_hash (g i) = Identity.api_key_hash i
             /\ Identity.display_name (g i) = Identity.display_name i
             /\ Identity.revoked_at (g i) = Identity.revoked_at i) ->
  identities_keyed d /\ names_unique d ->
  identities_keyed d' /\ names_unique d'.
Proof.
  intros Hd Hg [[Hid Hhash] Hname].
  unfold identities_keyed, names_unique. rewrite Hd.
  assert (Hf : filter is_active_identity (map g (forum_ai_identities d))
               = map g (filter is_active_identity (forum_ai_identities d))).
  { clear - Hg.
    induction (forum_ai_identities d) as [|x l IH]; simpl; [reflexivity|].
    assert (Hx : is_active_identity (g x) = is_active_identity x).
    { unfold is_active_identity. now destruct (Hg x) as [_ [_ [_ ->]]]. }
    rewrite Hx. destruct (is_active_identity x); simpl; now rewrite IH. }
  rewrite Hf, !map_map. repeat split.
  - erewrite map_ext; [exact Hid|]. intros i. apply Hg.
  - erewrite map_ext; [exact Hhash|]. intros i. apply Hg.
  - erewrite map_ext; [exact Hname|]. intros i.
    destruct (Hg i) as [_ [_ [-> _]]]. reflexivity.
Qed.

Lemma existsb_not_in {A B : Type} (k : A -> B) (eqb : B -> B -> bool) (b : B)
    (l : list A) :
  (forall x, eqb x x = true) ->
  existsb (fun a => eqb (k a) b) l = false -> ~ In b (map k l).
Proof.
  intros Hrefl He Hin. apply in_map_iff in Hin as [a [Ha Hin]].
  assert (existsb (fun a => eqb (k a) b) l = true).
  { apply existsb_exists. exists a. split; [exact Hin|]. rewrite Ha. apply Hrefl. }
  congruence.
Qed.

Lemma register_forum_ai_identities (h : string -> string) now new_id random_hex
    p_display_name p_ai_model p_bio d :
  identities_keyed d /\ names_unique d ->
  identities_keyed (fst (register_forum_ai h now new_id random_hex
                           p_display_name p_ai_model p_bio d))
  /\ names_unique (fst (register_forum_ai h now new_id random_hex
                          p_display_name p_ai_model p_bio d)).
Proof.
  intros Hinv.
  destruct (register_forum_ai h now new_id random_hex p_display_name
                              p_ai_model p_bio d) as [d' res] eqn:E.
  destruct res as [msg|k dn|msg].
  - replace d' with d; [exact Hinv|].
    revert E. unfold register_forum_ai.
    repeat match goal with
           | |- context [match ?x with _ => _ end] => destruct x
           end; intros H; now inversion H.
  - apply register_forum_ai_success in E
      as [name [prefix [hash [model [_ [_ [_ [Hn [_ [Hi [Hh ->]]]]]]]]]]].
    destruct Hinv as [[Hid Hhash] Hname].
    unfold identities_keyed, names_unique. simpl.
    rewrite filter_app, !map_app. simpl. repeat split.
    + apply NoDup_snoc; [exact Hid|].
      now apply (existsb_not_in Identity.id String.eqb new_id _ String.eqb_refl).
    + apply NoDup_snoc; [exact Hhash|].
      now apply (existsb_not_in Identity.api_key_hash String.eqb hash _
                                String.eqb_refl).
    + apply NoDup_snoc; [exact Hname|].
      intros Hin. apply in_map_iff in Hin as [i [Hi' Hact]].
      apply filter_In in Hact as [Hact Ha].
      unfold name_taken in Hn.
      assert (existsb (fun i => String.eqb (LOWER (Identity.display_name i))
                                           (LOWER (TRIM name))
                                && is_active_identity i)
                      (forum_ai_identities d) = true).
      { apply existsb_exists. exists i. split; [exact Hact|].
        now rewrite Hi', String.eqb_refl, Ha. }
      congruence.
  - replace d' with d; [exact Hinv|].
    revert E. unfold register_forum_ai.
    repeat match goal with
           | |- context [match ?x with _ => _ end] => destruct x
           end; intros H; now inversion H.
Qed.

Lemma run_call_identities (h : string -> string) (c : forum_call) (d : db) :
  identities_keyed d /\ names_unique d ->
  identities_keyed (run_call h c d) /\ names_unique (run_call h c d).
Proof.
  intros Hinv.
  assert (Hframe : forall d', forum_ai_identities d' = forum_ai_identities d ->
                              identities_keyed d' /\ names_unique d').
  { intros d' E. unfold identities_keyed, names_unique. rewrite E. exact Hinv. }
  destruct c; simpl.
  - apply Hframe, human_submit_post_identities.
  - apply Hframe, ai_submit_post_identities.
  - destruct (ai_submit_with_key_identities h now p_api_key p_content p_title
                p_parent_id d) as [g [Hd Hg]].
    exact (identities_mapped g d _ Hd Hg Hinv).
  - apply Hframe, create_forum_post_identities.
  - apply Hframe, moderate_forum_post_identities.
  - apply Hframe, toggle_vote_identities.
  - apply Hframe, check_ai_trigger_identities.
  - apply Hframe. now destruct (references_post p_post_id d).
  - apply Hframe, ban_user_identities.
  - now apply register_forum_ai_identities.
Qed.

(** X25.  Names of AI identities stay distinct.  Starting from a state in
    which the identities have distinct ids and key hashes and no two
    active identities share a name up to letter case, the same holds after
    every sequence of calls (registrations, keyed and other submissions,
    moderation, votes, trigger evaluation, bans). *)
Theorem identity_names_stay_unique :
  forall (h : string -> string) calls d,
    identities_keyed d -> names_unique d ->
    identities_keyed (run_calls h calls d) /\ names_unique (run_calls h calls d).
Proof.
  intros h calls. unfold run_calls.
  induction calls as [|c calls IH]; intros d Hk Hn; simpl; [now split|].
  destruct (run_call_identities h c d (conj Hk Hn)) as [Hk' Hn'].
  now apply IH.
Qed.

Lemma identity_names_stay_unique_witness :
  names_unique
    (run_calls (fun k => k)
       [CallRegister 600 "ident-2" "00ff" (Some " Vega ") None None;
        CallRegister 610 "ident-3" "11aa" (Some "NOVA") None None;
        CallAiSubmitWithKey 700 (Some "fa_00ff")
                            (Some "a first post under my key") None None;
        CallRegister 710 "ident-4" "22bb" (Some "vega") None None]
       (keyed_db (fun k => k))).
Proof.
  apply identity_names_stay_unique.
  - split; (constructor; [intros [] | constructor]).
  - constructor; [intros [] | constructor].
Defined.

(** ** The orphan clean-up of 003_post_ordering_fixes.sql *)

Lemma promote_orphaned_posts_rows now tbl :
  promote_orphaned_posts now tbl
  = map (fun r => if is_orphan tbl r
                  then update_forum_post_timestamp now (promote_orphan r)
                  else r) tbl.
Proof.
  unfold promote_orphaned_posts.
  apply update_forum_posts_same_status. intros r. reflexivity.
Qed.

Lemma is_orphan_same_ids (tbl tbl' : list Post.t) (r : Post.t) :
  map Post.id tbl' = map Post.id tbl -> is_orphan tbl' r = is_orphan tbl r.
Proof.
  intros Hids. unfold is_orphan. f_equal. f_equal.
  transitivity (existsb (fun i => id_is (Some i) (Post.parent_id r))
                        (map Post.id tbl')).
  - clear. induction tbl' as [|x l IH]; simpl; [reflexivity | now rewrite IH].
  - rewrite Hids. clear.
    induction tbl as [|x l IH]; simpl; [reflexivity | now rewrite IH].
Qed.

Lemma promote_orphaned_posts_ids now tbl :
  map Post.id (promote_orphaned_posts now tbl) = map Post.id tbl.
Proof.
  rewrite promote_orphaned_posts_rows, map_map. apply map_ext. intros r.
  now destruct (is_orphan tbl r).
Qed.

Lemma promote_orphaned_posts_none_left now tbl r :
  In r (promote_orphaned_posts now tbl) ->
  is_orphan (promote_orphaned_posts now tbl) r = false.
Proof.
  intros Hin.
  rewrite (is_orphan_same_ids tbl _ r (promote_orphaned_posts_ids now tbl)).
  rewrite promote_orphaned_posts_rows in Hin.
  apply in_map_iff in Hin as [x [Hx _]].
  destruct (is_orphan tbl x) eqn:E; subst r; [reflexivity | exact E].
Qed.

(** X26.  The orphan clean-up repairs the table and is safe to repeat.
    After the UPDATE every row that names a parent names a stored one; the
    rows that were not orphans are untouched and no id or status changes;
    each promoted row heads its own thread, under its own title or, when
    it had none, under '[Promoted] ' || LEFT(content, 50) || '...'; and a
    second run of the statement changes nothing at all. *)
Theorem promote_orphaned_posts_repairs :
  forall now tbl,
    (forall r p, In r (promote_orphaned_posts now tbl) ->
                 Post.parent_id r = Some p ->
                 exists q, In q (promote_orphaned_posts now tbl)
                           /\ Post.id q = p)
    /\ map (fun r => (Post.id r, Post.status r, Post.content r))
           (promote_orphaned_posts now tbl)
       = map (fun r => (Post.id r, Post.status r, Post.content r)) tbl
    /\ (forall r, In r tbl -> is_orphan tbl r = false ->
                  In r (promote_orphaned_posts now tbl))
    /\ (forall r, In r tbl -> is_orphan tbl r = true ->
                  exists r', In r' (promote_orphaned_posts now tbl)
                             /\ Post.id r' = Post.id r
                             /\ Post.parent_id r' = None
                             /\ Post.thread_id r' = Some (Post.id r)
                             /\ Post.title r'
                                = Some (match Post.title r with
                                        | Some t => t
                                        | None => "[Promoted] "
                                                  ++ LEFT (Post.content r) 50
                                                  ++ "..."
                                        end))
    /\ (forall now2,
          promote_orphaned_posts now2 (promote_orphaned_posts now tbl)
          = promote_orphaned_posts now tbl).
Proof.
  intros now tbl. split; [|split; [|split; [|split]]].
  - intros r p Hin Hp.
    pose proof (promote_orphaned_posts_none_left now tbl r Hin) as Hno.
    unfold is_orphan in Hno. rewrite Hp in Hno. simpl in Hno.
    apply negb_false_iff, existsb_exists in Hno as [q [Hq Hid]].
    exists q. split; [exact Hq|].
    rewrite id_is_Some in Hid. now apply Z.eqb_eq.
  - rewrite promote_orphaned_posts_rows, map_map. apply map_ext. intros r.
    now destruct (is_orphan tbl r).
  - intros r Hin Hno. rewrite promote_orphaned_posts_rows.
    apply in_map_iff. exists r. now rewrite Hno.
  - intros r Hin Hyes.
    exists (update_forum_post_timestamp now (promote_orphan r)). split.
    + rewrite promote_orphaned_posts_rows. apply in_map_iff. exists r.
      now rewrite Hyes.
    + simpl. repeat split. now destruct (Post.title r).
  - intros now2.
    rewrite (promote_orphaned_posts_rows now2). apply map_id_on.
    intros r Hin. now rewrite (promote_orphaned_posts_none_left now tbl r Hin).
Qed.

(** ** The auto-responder: checkAndRespond *)

(** What a triggered evaluation has done to the state. *)
Lemma check_ai_trigger_triggered now v_random v_random2 d d1 persona target m :
  check_ai_trigger now v_random v_random2 d = (d1, Triggered persona target m) ->
  In persona roster
  /\ target = target_json (select_target now (forum_posts d))
  /\ forum_posts d1 = forum_posts d
  /\ forum_posts_id_seq d1 = forum_posts_id_seq d
  /\ forum_ai_activity d1
     = (forum_ai_activity d
        ++ [Activity.mk (forum_ai_activity_id_seq d) persona trigger_check
                        None now])%list
  /\ forum_ai_activity_id_seq d1 = forum_ai_activity_id_seq d + 1
  /\ select_metric "page_views_since_ai" d1
     = option_map (fun _ => 0) (select_metric "page_views_since_ai" d)
  /\ select_metric "posts_since_ai" d1
     = option_map (fun _ => 0) (select_metric "posts_since_ai" d).
Proof.
  unfold check_ai_trigger.
  destruct (negb _); [discriminate|].
  destruct (Settings.cast_error _); [discriminate|].
  destruct (Z.geb _ _); [discriminate|].
  destruct (negb _); [discriminate|].
  destruct (available_personas _ _ _) as [|a avail] eqn:Ea; [discriminate|].
  destruct (choose_persona _ _) as [p|] eqn:Ep; [|discriminate].
  intros H. inversion H; subst; clear H.
  split.
  { apply choose_persona_in in Ep. rewrite <- Ea in Ep.
    unfold available_personas in Ep. now apply filter_In in Ep as [Hin _]. }
  split; [reflexivity|]. split; [reflexivity|]. split; [reflexivity|].
  split; [reflexivity|]. split; [reflexivity|].
  rewrite !select_metric_update. simpl.
  rewrite !select_metric_insert_activity, !select_metric_update. simpl.
  rewrite !option_map_map. now split.
Qed.

Lemma length_append (a b : string) :
  String.length (a ++ b) = (String.length a + String.length b)%nat.
Proof. induction a as [|c a IH]; simpl; [reflexivity | now rewrite IH]. Qed.

Lemma length_substring_le (n : nat) (s : string) :
  (String.length (substring 0 n s) <= n)%nat.
Proof.
  revert s. induction n as [|n IH]; intros [|c s]; simpl; try lia.
  specialize (IH s). lia.
Qed.

Lemma truncate_response_length (s : string) :
  (String.length (truncate_response s) <= 500)%nat.
Proof.
  unfold truncate_response.
  destruct (Nat.ltb 500 (String.length s)) eqn:E.
  - rewrite length_append.
    pose proof (length_substring_le 497 s) as H.
    change (String.length "...") with 3%nat. lia.
  - apply Nat.ltb_ge in E. exact E.
Qed.

Lemma js_pick_in {A : Type} (l : list A) (r : Q) (x : A) :
  js_pick l r = Some x -> In x l.
Proof.
  unfold js_pick. destruct (Z.leb 0 _); [|discriminate]. apply nth_error_In.
Qed.

Lemma js_get_own {A : Type} (table : list (string * A)) (key : string) (v : A) :
  js_get table key = Own v -> In v (map snd table).
Proof.
  unfold js_get. destruct (find _ table) as [kv|] eqn:E.
  - intros H. inversion H; subst. apply find_some in E as [Hin _].
    now apply in_map.
  - destruct (existsb _ _); discriminate.
Qed.

Lemma getTemplateResponse_in persona r t :
  getTemplateResponse persona r = Some t -> In t all_templates.
Proof.
  unfold getTemplateResponse, all_templates.
  assert (Hown : forall key l, js_get templates key = Own l ->
                               js_pick l r = Some t ->
                               In t (flat_map snd templates)).
  { intros key l Hg Hp. apply js_get_own in Hg.
    apply in_map_iff in Hg as [kv [Hkv Hin]].
    apply in_flat_map. exists kv. split; [exact Hin|].
    rewrite Hkv. exact (js_pick_in _ _ _ Hp). }
  destruct (js_get templates persona) as [l| |] eqn:E.
  - now apply (Hown persona).
  - discriminate.
  - destruct (js_get templates "Chris") as [l| |] eqn:E'; try discriminate.
    now apply (Hown "Chris").
Qed.

Lemma all_templates_short :
  forallb (fun t => Nat.leb (String.length t) 500) all_templates = true.
Proof. vm_compute. reflexivity. Qed.

Lemma js_pick_total {A : Type} (l : list A) (r : Q) :
  l <> [] -> (0 <= r)%Q -> (r < 1)%Q -> exists x, js_pick l r = Some x.
Proof.
  intros Hne H0 H1. unfold js_pick.
  assert (Hlen : 0 < Z.of_nat (List.length l)).
  { destruct l; [contradiction | simpl; lia]. }
  pose proof (floor_index r _ Hlen H0 H1) as [Hlo Hhi].
  destruct (Z.leb_spec 0 (Qfloor (r * inject_Z (Z.of_nat (List.length l)))));
    [|lia].
  destruct (nth_error l _) as [x|] eqn:E; [now exists x|].
  apply nth_error_None in E. lia.
Qed.

(** Every persona the evaluator can choose has its own fallback
    sentences. *)
Lemma getTemplateResponse_roster persona r :
  In persona roster -> (0 <= r)%Q -> (r < 1)%Q ->
  exists l t, js_get templates persona = Own l
              /\ getTemplateResponse persona r = Some t /\ In t l.
Proof.
  intros Hin H0 H1. unfold getTemplateResponse.
  assert (Hown : exists l, js_get templates persona = Own l /\ l <> []).
  { simpl in Hin.
    repeat (destruct Hin as [<-|Hin];
            [eexists; split; [reflexivity | discriminate]|]).
    contradiction. }
  destruct Hown as [l [-> Hne]].
  destruct (js_pick_total l r Hne H0 H1) as [t Ht].
  exists l, t. split; [reflexivity|]. split; [exact Ht|].
  exact (js_pick_in _ _ _ Ht).
Qed.

Section ResponderFacts.

Variable pollinations : string -> option string.

Lemma generate_response_length persona targetPost r c :
  generate_response pollinations persona targetPost r = Some c ->
  (String.length c <= 500)%nat.
Proof.
  unfold generate_response.
  destruct (pollinations _) as [text|].
  - intros H. inversion H. apply truncate_response_length.
  - intros H. apply getTemplateResponse_in in H.
    pose proof all_templates_short as Hs. rewrite forallb_forall in Hs.
    apply Nat.leb_le. now apply Hs.
Qed.

(** A setting that does not pass its cast makes the first RPC fail: the
    responder answers the message as its error and nothing is written. *)
Lemma checkAndRespond_cast_error now1 now2 now3 v_random v_random2 r_template
    date_now d msg :
  Settings.trigger_enabled (forum_ai_settings d) = Some "true" ->
  Settings.cast_error (forum_ai_settings d) = Some msg ->
  checkAndRespond pollinations now1 now2 now3 v_random v_random2 r_template
                  date_now d
  = (d, RespondError msg).
Proof.
  intros Hon Hcast. unfold checkAndRespond.
  now rewrite (check_ai_trigger_cast_error now1 v_random v_random2 d msg Hon Hcast).
Qed.

(** X27.  What a reply of the auto-responder looks like.  When
    checkAndRespond answers 'responded' with a post id other than 0, on a
    table whose ids lie below the sequence: the persona is one of the six
    of the roster; the target is a stored post that is approved and
    human-authored; exactly one row has been appended to forum_posts, under
    the id answered, a reply to the target in the target's thread, by the
    persona as 'ai' author with model 'pollinations-ai' and session
    'auto-' followed by the clock reading, with status 'pending' and a
    content of at most 500 characters whose first 100 characters make
    the preview; and the ledger has two new rows, the 'trigger_check' of
    the evaluation and a 'reply' row that names the new post. *)
Theorem checkAndRespond_reply :
  forall now1 now2 now3 v_random v_random2 r_template date_now d d'
         persona tid n s preview,
    ids_fresh d ->
    checkAndRespond pollinations now1 now2 now3 v_random v_random2 r_template
                    date_now d
    = (d', Responded persona tid (Some n) (Some s) preview) ->
    n <> 0 ->
    In persona roster
    /\ s = pending /\ n = forum_posts_id_seq d
    /\ (exists q, In q (forum_posts d) /\ Post.id q = tid
                  /\ Post.status q = approved /\ Post.author_type q = human)
    /\ (exists c t,
          forum_posts d'
          = (forum_posts d
             ++ [new_post now2 n None c persona ai (Some tid) (Some t) pending
                          (Some "pollinations-ai")
                          (Some ("auto-" ++ date_now)%string)])%list
          /\ select_parent_thread tid d = Some t
          /\ (String.length c <= 500)%nat
          /\ preview = substring 0 100 c ++ "...")
    /\ forum_ai_activity d'
       = (forum_ai_activity d
          ++ [Activity.mk (forum_ai_activity_id_seq d) persona trigger_check
                          None now1;
              Activity.mk (forum_ai_activity_id_seq d + 1) persona reply
                          (Some n) now3])%list.
Proof.
  intros now1 now2 now3 r1 r2 rt date d d' persona tid n s preview Hfresh H Hn.
  unfold checkAndRespond in H.
  destruct (check_ai_trigger now1 r1 r2 d) as [d1 res] eqn:Et.
  destruct res as [reason m|p tgt m|msg]; try discriminate.
  destruct tgt as [tp|]; [|discriminate].
  destruct (generate_response pollinations p tp rt) as [resp|] eqn:Eg;
    [|discriminate].
  destruct (ai_submit_post now2 (Some resp) None (Some (target_id tp)) p
              (Some "pollinations-ai") (Some ("auto-" ++ date)) d1)
    as [d2 [msg|n' s']] eqn:Es; [discriminate|].
  inversion H; subst; clear H.
  apply Z.eqb_neq in Hn. rewrite Hn.
  apply check_ai_trigger_triggered in Et
    as [Hp [Htgt [Hposts [Hseq [Hact [Haseq _]]]]]].
  assert (Hfresh1 : ids_fresh d1).
  { intros r Hr. rewrite Hposts in Hr. rewrite Hseq. now apply Hfresh. }
  assert (Hstored : n = forum_posts_id_seq d1 /\ s = pending
                    /\ thread_for d1 n (Some (target_id tp)) <> None
                    /\ d2 = set_forum_posts_id_seq
                              (set_forum_posts d1
                                 (forum_posts d1
                                  ++ [new_post now2 n None resp persona ai
                                        (Some (target_id tp))
                                        (thread_for d1 n (Some (target_id tp)))
                                        pending (Some "pollinations-ai")
                                        (Some ("auto-" ++ date))]))
                              (n + 1)).
  { unfold ai_submit_post in Es.
    destruct (check_ban_status now2 None None (Some ("auto-" ++ date)) d1)
      as [|k why exp].
    - destruct (negb _); [discriminate|].
      destruct (content_too_short (Some resp)); [discriminate|].
      exact (resolve_and_insert_appends _ _ _ _ _ _ _ _ _ _ _ _ _ _ Hfresh1 Es).
    - destruct k; inversion Es; subst. now apply Z.eqb_neq in Hn. }
  destruct Hstored as [Hid [-> [Ht ->]]].
  split; [exact Hp|]. split; [reflexivity|]. split; [now rewrite Hid, Hseq|].
  split.
  { symmetry in Htgt. unfold target_json in Htgt.
    destruct (post_is_not_null _); [|discriminate].
    pose proof (select_target_most_recent now1 (forum_posts d)) as Hbest.
    destruct (select_target now1 (forum_posts d)) as [q|]; [|discriminate].
    simpl in Htgt. inversion Htgt; subst tp; clear Htgt.
    destruct Hbest as [Hin [Hc _]]. exists q. split; [exact Hin|].
    split; [reflexivity|].
    unfold target_candidate in Hc.
    apply andb_true_iff in Hc as [Hc _]. apply andb_true_iff in Hc as [Hc _].
    apply andb_true_iff in Hc as [Hs Ha].
    split; [now destruct (Post.status q) | now destruct (Post.author_type q)]. }
  split.
  { simpl thread_for in Ht.
    destruct (select_parent_thread (target_id tp) d1) as [t|] eqn:Eth;
      [|now contradiction Ht].
    exists resp, t. split; [|split; [|split]].
    - simpl. rewrite Hposts. unfold thread_for. now rewrite Eth.
    - unfold select_parent_thread in *. now rewrite <- Hposts.
    - exact (generate_response_length _ _ _ _ Eg).
    - reflexivity. }
  simpl. rewrite Hact, Haseq, <- app_assoc. reflexivity.
Qed.

(** X28.  No target, no reply, but the trigger is spent.  When every
    stored post has a NULL in one of its columns (as every post stored by
    human_submit_post has), checkAndRespond never answers 'responded':
    the row test on the fetched post makes the target null.  If the
    evaluation did trigger, the answer is 'no_target_post', nothing is
    posted, and yet the ledger has the new 'trigger_check' row and the two
    since-counters have been reset to 0. *)
Theorem checkAndRespond_without_complete_post :
  forall now1 now2 now3 v_random v_random2 r_template date_now d,
    (forall r, In r (forum_posts d) -> post_is_not_null (Some r) = false) ->
    (forall persona tid post_id status preview,
        snd (checkAndRespond pollinations now1 now2 now3 v_random v_random2
                             r_template date_now d)
        <> Responded persona tid post_id status preview)
    /\ (forall d1 persona m,
          check_ai_trigger now1 v_random v_random2 d
          = (d1, Triggered persona None m) ->
          checkAndRespond pollinations now1 now2 now3 v_random v_random2
                          r_template date_now d
          = (d1, NotResponded "no_target_post" (Some persona) None)
          /\ forum_posts d1 = forum_posts d
          /\ forum_ai_activity d1
             = (forum_ai_activity d
                ++ [Activity.mk (forum_ai_activity_id_seq d) persona
                                trigger_check None now1])%list
          /\ select_metric "page_views_since_ai" d1
             = option_map (fun _ => 0) (select_metric "page_views_since_ai" d)
          /\ select_metric "posts_since_ai" d1
             = option_map (fun _ => 0) (select_metric "posts_since_ai" d)).
Proof.
  intros now1 now2 now3 r1 r2 rt date d Hnull. split.
  - intros persona tid pid st preview. unfold checkAndRespond.
    destruct (check_ai_trigger now1 r1 r2 d) as [d1 res] eqn:Et.
    destruct res as [reason m|p tgt m|msg]; try discriminate.
    destruct tgt as [tp|]; [|discriminate]. exfalso.
    apply triggered_target in Et. unfold target_json in Et.
    pose proof (select_target_most_recent now1 (forum_posts d)) as Hbest.
    destruct (select_target now1 (forum_posts d)) as [q|]; [|discriminate].
    destruct Hbest as [Hin _]. rewrite (Hnull q Hin) in Et. discriminate.
  - intros d1 persona m Et. unfold checkAndRespond. rewrite Et.
    apply check_ai_trigger_triggered in Et
      as [_ [_ [Hposts [_ [Hact [_ [Hv Hpc]]]]]]].
    now repeat split.
Qed.

(** X29.  The responder always has something to say.  Once the
    evaluation has triggered with a target post and the template draw
    lies in [0,1), checkAndRespond answers 'responded' for that persona
    and that target, whether the text service answers or fails and
    whether or not ai_submit_post stores the reply: the evaluator's
    persona is one of the roster, each persona of the roster has its own
    fallback sentences, so the response is defined, it has at most 500
    characters, and its first 100 characters make the preview.  (When
    a settings cast fails, the evaluation raises and checkAndRespond
    answers the error; that case is not a triggered one.) *)
Theorem checkAndRespond_triggered_responds :
  forall now1 now2 now3 v_random v_random2 r_template date_now d d1
         persona tp m,
    (0 <= r_template)%Q -> (r_template < 1)%Q ->
    check_ai_trigger now1 v_random v_random2 d
    = (d1, Triggered persona (Some tp) m) ->
    exists response post_id status,
      generate_response pollinations persona tp r_template = Some response
      /\ (String.length response <= 500)%nat
      /\ snd (checkAndRespond pollinations now1 now2 now3 v_random v_random2
                              r_template date_now d)
         = Responded persona (target_id tp) post_id status
                     (substring 0 100 response ++ "...").
Proof.
  intros now1 now2 now3 r1 r2 rt date d d1 p tp m Ht0 Ht1 Et.
  unfold checkAndRespond. rewrite Et.
  apply check_ai_trigger_triggered in Et as [Hp _].
  assert (Hg : exists resp, generate_response pollinations p tp rt = Some resp).
  { unfold generate_response. destruct (pollinations _) as [text|].
    - now eexists.
    - destruct (getTemplateResponse_roster p rt Hp Ht0 Ht1) as [l [t [_ [E _]]]].
      now exists t. }
  destruct Hg as [resp Eg]. rewrite Eg.
  pose proof (generate_response_length _ _ _ _ Eg) as Hl.
  exists resp.
  destruct (ai_submit_post _ _ _ _ _ _ _ d1) as [d2 [m'|n s]]; simpl.
  - exists None, None. now repeat split.
  - exists (Some n), (Some s). now repeat split.
Qed.

End ResponderFacts.

Lemma answered_db_fresh : ids_fresh answered_db.
Proof.
  intros r Hin. simpl in Hin.
  repeat (destruct Hin as [<-|Hin]; [simpl; lia|]). contradiction.
Qed.

Lemma checkAndRespond_reply_witness :
  exists c t,
    forum_posts
      (fst (checkAndRespond fixed_service 4000 4001 4002 (1 # 2) (1 # 2) (1 # 2)
                            "1700" answered_db))
    = (forum_posts answered_db
       ++ [new_post 4001 3 None c "Sam" ai (Some 2) (Some t) pending
                    (Some "pollinations-ai") (Some "auto-1700")])%list
    /\ (String.length c <= 500)%nat.
Proof.
  destruct (checkAndRespond_reply fixed_service 4000 4001 4002 (1 # 2) (1 # 2)
              (1 # 2) "1700" answered_db
              (fst (checkAndRespond fixed_service 4000 4001 4002 (1 # 2) (1 # 2)
                                    (1 # 2) "1700" answered_db))
              "Sam" 2 3 pending
              "I would look at the data before deciding anything...."
              answered_db_fresh)
    as [_ [_ [_ [_ [[c [t [Hp [_ [Hl _]]]]] _]]]]].
  - vm_compute. reflexivity.
  - discriminate.
  - exists c, t. split; [exact Hp | exact Hl].
Defined.

Lemma checkAndRespond_without_complete_post_witness :
  checkAndRespond (fun _ => None) 4000 4001 4002 (1 # 2) (1 # 2) (1 # 2) "1700"
                  three_posts_db
  = (fst (check_ai_trigger 4000 (1 # 2) (1 # 2) three_posts_db),
     NotResponded "no_target_post" (Some "Sam") None).
Proof.
  destruct (checkAndRespond_without_complete_post (fun _ => None) 4000 4001 4002
              (1 # 2) (1 # 2) (1 # 2) "1700" three_posts_db) as [_ H].
  - intros r Hin. simpl in Hin.
    repeat (destruct Hin as [<-|Hin]; [reflexivity|]). contradiction.
  - destruct (H (fst (check_ai_trigger 4000 (1 # 2) (1 # 2) three_posts_db))
                "Sam" (evaluated_metrics 4000 three_posts_db)) as [E _].
    + vm_compute. reflexivity.
    + exact E.
Defined.

Lemma checkAndRespond_triggered_responds_witness :
  exists response post_id status,
    generate_response (fun _ => None) "Sam"
      (mk_target 2 (Post.title member_reply) (Post.content member_reply)
                 (Post.author_name member_reply)) (2 # 3)
    = Some response
    /\ (String.length response <= 500)%nat
    /\ snd (checkAndRespond (fun _ => None) 4000 4001 4002 (1 # 2) (1 # 2)
                            (2 # 3) "1700" answered_db)
       = Responded "Sam" 2 post_id status (substring 0 100 response ++ "...").
Proof.
  apply (checkAndRespond_triggered_responds (fun _ => None) 4000 4001 4002
           (1 # 2) (1 # 2) (2 # 3) "1700" answered_db
           (fst (check_ai_trigger 4000 (1 # 2) (1 # 2) answered_db))
           "Sam"
           (mk_target 2 (Post.title member_reply) (Post.content member_reply)
                      (Post.author_name member_reply))
           (evaluated_metrics 4000 answered_db)).
  - discriminate.
  - reflexivity.
  - vm_compute. reflexivity.
Defined.

(** ** The auto-responder: forceRespond *)

Lemma filter_unique_id (l : list Post.t) (t : Post.t) :
  NoDup (map Post.id l) -> In t l ->
  filter (fun r => Z.eqb (Post.id r) (Post.id t)) l = [t].
Proof.
  induction l as [|x l IH]; intros Hnd Hin; [contradiction|].
  simpl in Hnd. inversion Hnd as [|k ks Hnot Hnd']; subst. simpl.
  destruct Hin as [->|Hin].
  - rewrite Z.eqb_refl. f_equal.
    apply filter_none. destruct (find _ l) as [y|] eqn:E; [|reflexivity].
    exfalso. apply find_some in E as [Hy Hid]. apply Z.eqb_eq in Hid.
    apply Hnot. rewrite <- Hid. now apply in_map.
  - destruct (Z.eqb_spec (Post.id x) (Post.id t)) as [E|_]; [|now apply IH].
    exfalso. apply Hnot. rewrite E. now apply in_map.
Qed.

Lemma js_get_own_key {A : Type} (table : list (string * A)) (key : string) (v : A) :
  js_get table key = Own v -> In key (map fst table).
Proof.
  unfold js_get. destruct (find _ table) as [kv|] eqn:E.
  - intros _. apply find_some in E as [Hin Hk]. apply String.eqb_eq in Hk.
    rewrite <- Hk. now apply in_map.
  - destruct (existsb _ _); discriminate.
Qed.

Section ForceResponderFacts.

Variable fetch_text : string -> option string.

(** X30.  A forced reply goes straight to the table.  For a persona of
    PERSONAS, an explicit post id other than 0 that names a stored post,
    and no as_reply flag, forceRespond (template draw in [0,1), ids
    distinct and below the sequence) answers success and appends exactly
    one row, whatever the target's status and whatever bans and word
    filters are stored: a reply with status 'approved', with both parent_id
    and thread_id set to the target's id, a content of at most 500
    characters, model 'pollinations-ai' and session 'force-' followed by
    the clock reading; the ledger gains one 'reply' row that names it.
    The thread view for the target's id lists the new post at once; but
    when the target is itself a reply, the list view shows the new post
    nowhere, neither as a root nor under any root. *)
Theorem forceRespond_reply :
  forall now1 now2 now3 r_persona r_target r_template date_now persona text
         p target d,
    NoDup (map Post.id (forum_posts d)) ->
    ids_fresh d ->
    js_get PERSONAS persona = Own text ->
    In target (forum_posts d) -> Post.id target = p -> p <> 0 ->
    (0 <= r_template)%Q -> (r_template < 1)%Q ->
    exists c,
      snd (forceRespond fetch_text now1 now2 now3 r_persona r_target r_template
                        date_now (Some persona) (Some p) None d)
      = ForceSuccess persona p (forum_posts_id_seq d) c
      /\ forum_posts
           (fst (forceRespond fetch_text now1 now2 now3 r_persona r_target
                              r_template date_now (Some persona) (Some p) None d))
         = (forum_posts d
            ++ [new_post now1 (forum_posts_id_seq d) None c persona ai (Some p)
                         (Some p) approved (Some "pollinations-ai")
                         (Some ("force-" ++ date_now)%string)])%list
      /\ (String.length c <= 500)%nat
      /\ forum_ai_activity
           (fst (forceRespond fetch_text now1 now2 now3 r_persona r_target
                              r_template date_now (Some persona) (Some p) None d))
         = (forum_ai_activity d
            ++ [Activity.mk (forum_ai_activity_id_seq d) persona reply
                            (Some (forum_posts_id_seq d)) now3])%list
      /\ (forall p_limit p_offset, exists rows,
            get_forum_posts (Some p) p_limit p_offset
              (fst (forceRespond fetch_text now1 now2 now3 r_persona r_target
                                 r_template date_now (Some persona) (Some p)
                                 None d))
            = ThreadView rows
            /\ In (ThreadRow.mk (forum_posts_id_seq d) None c persona ai
                                (Some p) (Some p) now1 (Some "pollinations-ai"))
                  rows)
      /\ (Post.parent_id target <> None ->
          forall p_limit p_offset,
            ~ In (forum_posts_id_seq d)
                 (view_ids
                    (get_forum_posts None p_limit p_offset
                       (fst (forceRespond fetch_text now1 now2 now3 r_persona
                               r_target r_template date_now (Some persona)
                               (Some p) None d))))).
Proof.
  intros now1 now2 now3 rp rtg rt date persona text p target d
         Hnd Hfresh Hget Hin Hid Hp H0 H1.
  assert (Hne : String.eqb persona "" = false).
  { destruct persona; [discriminate Hget | reflexivity]. }
  assert (Hroster : In persona roster).
  { apply js_get_own_key in Hget. exact Hget. }
  assert (Hsingle : select_single p d = Some target).
  { unfold select_single. rewrite <- Hid.
    now rewrite (filter_unique_id _ target Hnd Hin). }
  assert (Hresp : exists c,
             match fetch_text (force_prompt text target) with
             | Some body => Some (truncate_response (js_trim body))
             | None => getTemplateResponse persona rt
             end = Some c
             /\ (String.length c <= 500)%nat).
  { destruct (fetch_text _) as [body|].
    - eexists. split; [reflexivity | apply truncate_response_length].
    - destruct (getTemplateResponse_roster persona rt Hroster H0 H1)
        as [l [t [_ [E _]]]].
      exists t. split; [exact E|].
      apply getTemplateResponse_in in E.
      pose proof all_templates_short as Hs. rewrite forallb_forall in Hs.
      apply Nat.leb_le. now apply Hs. }
  destruct Hresp as [c [Hc Hlen]].
  assert (Hrun : forceRespond fetch_text now1 now2 now3 rp rtg rt date
                              (Some persona) (Some p) None d
                 = (record_ai_post now3 persona (Some (forum_posts_id_seq d)) reply
                      (set_forum_posts_id_seq
                         (set_forum_posts d
                            (forum_posts d
                             ++ [new_post now1 (forum_posts_id_seq d) None c
                                          persona ai (Some p) (Some p) approved
                                          (Some "pollinations-ai")
                                          (Some ("force-" ++ date)%string)]))
                         (forum_posts_id_seq d + 1)),
                    ForceSuccess persona p (forum_posts_id_seq d) c)).
  { unfold forceRespond. rewrite Hne, Hget.
    apply Z.eqb_neq in Hp. rewrite Hp, Hsingle, Hc. simpl. now rewrite Hid. }
  rewrite Hrun. exists c.
  split; [reflexivity|]. split; [reflexivity|]. split; [exact Hlen|].
  split; [reflexivity|]. split.
  - intros l o.
    apply (thread_view_shows
             (new_post now1 (forum_posts_id_seq d) None c persona ai (Some p)
                       (Some p) approved (Some "pollinations-ai")
                       (Some ("force-" ++ date)%string)) p l o);
      [|reflexivity..].
    simpl. apply in_or_app. right. now left.
  - intros Hpar l o Hshown.
    assert (Hnew : forall r,
               In r (forum_posts d
                     ++ [new_post now1 (forum_posts_id_seq d) None c persona ai
                                  (Some p) (Some p) approved
                                  (Some "pollinations-ai")
                                  (Some ("force-" ++ date)%string)])%list ->
               Post.id r = forum_posts_id_seq d ->
               Post.parent_id r = Some p /\ Post.thread_id r = Some p).
    { intros r Hr Hrid. apply in_app_or in Hr as [Hr|[<-|[]]].
      - specialize (Hfresh r Hr). lia.
      - now split. }
    apply list_view_ids in Hshown
      as [[r [Hr [Hrid [Hnopar _]]]]
         | [r [fp [Hr [Hfp [Hrid [Hth [_ [_ [Hfpar _]]]]]]]]]]; simpl in Hr.
    + destruct (Hnew r Hr Hrid) as [E _]. congruence.
    + destruct (Hnew r Hr Hrid) as [_ E]. rewrite E in Hth.
      injection Hth as Hth. simpl in Hfp.
      apply in_app_or in Hfp as [Hfp|[<-|[]]]; [|discriminate Hfpar].
      apply Hpar. rewrite <- Hfpar. f_equal.
      apply (unique_id (forum_posts d)); try assumption. congruence.
Qed.

End ForceResponderFacts.

Lemma forceRespond_reply_witness :
  ~ In 4 (view_ids
            (get_forum_posts None None None
               (fst (forceRespond (fun _ => None) 5000 5001 5002 (1 # 2)
                       (1 # 2) (1 # 2) "1700" (Some "Luna") (Some 2) None
                       (thread_db approved))))).
Proof.
  destruct (forceRespond_reply (fun _ => None) 5000 5001 5002 (1 # 2) (1 # 2)
              (1 # 2) "1700" "Luna"
              "You are Luna, a creative thinker AI. You approach topics with imagination and playfulness. You see unusual connections and possibilities."
              2 reply_post (thread_db approved))
    as [c [_ [_ [_ [_ [_ H]]]]]].
  - simpl. repeat constructor; simpl; intuition lia.
  - apply thread_db_fresh.
  - reflexivity.
  - right. now left.
  - reflexivity.
  - discriminate.
  - discriminate.
  - reflexivity.
  - apply H. discriminate.
Defined.
